(** * Abbott FreeStyle Neo mobile driver and FreeStyle HID protocol

    A shallow embedding of
    [example/lib/drivers/abbott/abbottFreeStyleNeoMobile.js] (class
    [AbbottFreeStyleNeoMobile]) and of the protocol class
    [FreeStyleProtocolMobile] that the same file carries, together with the
    second copy of [parseTextResponse] that lives in [example/App.tsx] and
    the two functions of the application that run the driver from
    [connect] to [disconnect].

    Conventions of the embedding:
    - a JavaScript string is a list of code units below 256 ([list ascii]);
    - a JavaScript integer value is a [Z]; [NaN] and [undefined] are [None];
    - [throw] / [try ... catch] are the [Completion] type and [try_catch];
    - [await]ed calls run in sequence, so [async] methods are plain
      state-passing computations over the session and the transport;
    - [console.log] / [console.warn] / [console.error] have no effect on any
      value and are left out, except in the two text-response parsers where
      the warnings are the only trace of the checksum comparison. *)

From Stdlib Require Import ZArith List Bool Ascii String Lia Arith.
Import ListNotations.

Local Open Scope string_scope.
Local Open Scope list_scope.
Local Open Scope Z_scope.

(* ================================================================== *)
(** * Part I: definitions                                               *)
(* ================================================================== *)

(** ** JavaScript strings and the built-ins the driver uses *)

Definition JsString := list ascii.

Coercion list_ascii_of_string : string >-> list.

Module Js.

Definition code (c : ascii) : Z := Z.of_nat (nat_of_ascii c).

Definition ascii_eqb (a b : ascii) : bool := Ascii.eqb a b.

Fixpoint str_eqb (a b : JsString) : bool :=
  match a, b with
  | [], [] => true
  | x :: a', y :: b' => ascii_eqb x y && str_eqb a' b'
  | _, _ => false
  end.

(** WhiteSpace and LineTerminator code units below 256:
    TAB, LF, VT, FF, CR, SP, NBSP. *)
Definition isWhiteSpace (c : ascii) : bool :=
  let n := code c in
  (n =? 9) || (n =? 10) || (n =? 11) || (n =? 12) || (n =? 13)
  || (n =? 32) || (n =? 160).

Fixpoint trimStart (s : JsString) : JsString :=
  match s with
  | c :: s' => if isWhiteSpace c then trimStart s' else s
  | [] => []
  end.

(** [String.prototype.trim] *)
Definition trim (s : JsString) : JsString :=
  rev (trimStart (rev (trimStart s))).

(** [s.startsWith(p)], returning the rest of [s] after [p]. *)
Fixpoint stripPrefix (p s : JsString) : option JsString :=
  match p, s with
  | [], _ => Some s
  | x :: p', y :: s' => if ascii_eqb x y then stripPrefix p' s' else None
  | _ :: _, [] => None
  end.

(** [String.prototype.split(sep)] for a non-empty separator.  [cur] holds
    (reversed) the code units of the segment being read; [skip] counts
    the code units of a separator just found that are still to be
    passed over. *)
Fixpoint split_from (sep : JsString) (skip : nat) (cur : JsString)
  (s : JsString) : list JsString :=
  match s with
  | [] => [rev cur]
  | c :: s' =>
      match skip with
      | S k => split_from sep k cur s'
      | O =>
          match stripPrefix sep s with
          | Some _ =>
              rev cur :: split_from sep (Nat.pred (List.length sep)) [] s'
          | None => split_from sep O (c :: cur) s'
          end
      end
  end.

Definition split (sep : JsString) (s : JsString) : list JsString :=
  split_from sep O [] s.

(** Value of a digit in [parseInt]: 0-9, then a-z / A-Z for 10-35. *)
Definition digitValue (c : ascii) : option Z :=
  let n := code c in
  if (48 <=? n) && (n <=? 57) then Some (n - 48)
  else if (97 <=? n) && (n <=? 122) then Some (n - 87)
  else if (65 <=? n) && (n <=? 90) then Some (n - 55)
  else None.

Fixpoint takeDigits (radix : Z) (s : JsString) : list Z :=
  match s with
  | c :: s' =>
      match digitValue c with
      | Some d => if d <? radix then d :: takeDigits radix s' else []
      | None => []
      end
  | [] => []
  end.

Definition digitsValue (radix : Z) (ds : list Z) : Z :=
  fold_left (fun acc d => acc * radix + d) ds 0.

(** [parseInt(string, radix)].  [input = None] is [undefined], whose
    string form is "undefined"; [radix = None] is an absent radix.  The
    result [None] is [NaN].  The value is the mathematical integer: a
    JavaScript number rounds it to the nearest double beyond 2^53, which
    never changes the outcome of a comparison with a small constant. *)
Definition parseInt (input : option JsString) (radix : option Z)
  : option Z :=
  let inputString : JsString :=
    match input with Some s => s | None => "undefined"%string end in
  let s := trimStart inputString in
  let '(sign, s) :=
    match s with
    | c :: s' =>
        if ascii_eqb c "-" then (-1, s')
        else if ascii_eqb c "+" then (1, s')
        else (1, s)
    | [] => (1, s)
    end in
  let r0 := match radix with Some r => r | None => 0 end in
  if negb (r0 =? 0) && ((r0 <? 2) || (36 <? r0)) then None
  else
    let stripPrefix0x := (r0 =? 0) || (r0 =? 16) in
    let r := if r0 =? 0 then 10 else r0 in
    let '(r, s) :=
      if stripPrefix0x then
        match s with
        | z :: x :: s' =>
            if ascii_eqb z "0" && (ascii_eqb x "x" || ascii_eqb x "X")
            then (16, s') else (r, s)
        | _ => (r, s)
        end
      else (r, s) in
    match takeDigits r s with
    | [] => None
    | ds => Some (sign * digitsValue r ds)
    end.

(** [x === n] for the result of [parseInt] and a numeric constant. *)
Definition num_eqb (x : option Z) (n : Z) : bool :=
  match x with Some v => v =? n | None => false end.

(** [String.prototype.replace(pat, '')] with a one-unit string pattern:
    the first occurrence is removed. *)
Fixpoint removeFirst (c : ascii) (s : JsString) : JsString :=
  match s with
  | [] => []
  | x :: s' => if ascii_eqb x c then s' else x :: removeFirst c s'
  end.

End Js.

(** ** Exceptions *)

Inductive Err : Type :=
| TypeError (msg : string)
| RangeError (msg : string)
| ErrConnect            (* Error('No se pudo conectar al dispositivo') *)
| ErrOpen               (* Error('No se pudo abrir el dispositivo') *)
| ErrClaim              (* Error('No se pudo reclamar la interfaz') *)
| ErrInitProtocol       (* Error('Fallo la inicializacion del protocolo') *)
| ErrInitSequence       (* Error('Fallo la secuencia de inicializacion') *)
| ErrInitCommand (i : nat) (command : Z)
    (* Error(`Fallo comando de inicializacion ${i}: 0x${command hex}`) *)
| ErrUnstable           (* Error('Conexion inestable') *)
| ErrNotInitialized     (* Error('Protocolo no inicializado') *)
| ErrTextWrite (bytesWritten : Z)
    (* Error(`Error enviando comando de texto: ${bytesWritten}`) *)
| ErrNoResponse         (* Error('Sin respuesta del dispositivo') *)
| ErrRejected (tag : string).
    (* a rejection raised by the injected usbModule or by a callback *)

Inductive Completion (A : Type) : Type :=
| Normal (a : A)
| Throw (e : Err).
Arguments Normal {A} a.
Arguments Throw {A} e.

(** [new Error(message)] for the messages of the methods modelled further
    down.  A plain [Error] object is known by its message alone, as a
    rejection coming from the usbModule is: both are written with the
    constructor that carries the message (accents are left out of the
    messages). *)
Definition Error (message : string) : Err := ErrRejected message.

Module Pure.

Definition bind {A B} (m : Completion A) (k : A -> Completion B)
  : Completion B :=
  match m with Normal a => k a | Throw e => Throw e end.

(** [try { m } catch (error) { h error }] *)
Definition try_catch {A} (m : Completion A) (h : Err -> Completion A)
  : Completion A :=
  match m with Normal a => Normal a | Throw e => h e end.

(** Assignment to a binding declared with [const]: the right-hand side
    has been evaluated (to [v]) and the assignment itself throws. *)
Definition assign_const {A} (name : string) (v : A) : Completion unit :=
  Throw (TypeError "Assignment to constant variable.").

(** Reading a property of [null] / [undefined]. *)
Definition get_of_nullable {A B} (o : option A) (prop : A -> B)
  : Completion B :=
  match o with
  | Some a => Normal (prop a)
  | None => Throw (TypeError "Cannot read properties of null")
  end.

End Pure.

Declare Scope pure_scope.
Delimit Scope pure_scope with pure.
Notation "x <- m ;; k" := (Pure.bind m (fun x => k))
  (at level 61, m at next level, right associativity) : pure_scope.
Notation "m ;;; k" := (Pure.bind m (fun _ => k))
  (at level 61, right associativity) : pure_scope.

(** ** Data of the record parser *)

(** A property value that the driver only copies. *)
Inductive JsField : Type :=
| JUndefined
| JNumber (n : Z)
| JText (s : JsString).

(** The [deviceInfo] object handed to [connect]. *)
Record DeviceInfo : Type := {
  deviceName : option JsString;
  deviceId : JsField;
  serialNumber : JsField
}.

(** The arguments of [new Date(year, monthIndex, day, hours, minutes,
    seconds)]; [None] is [NaN]. *)
Record DateArgs : Type := {
  year : option Z;
  monthIndex : option Z;
  day : option Z;
  hours : option Z;
  minutes : option Z;
  seconds : option Z
}.

Record Annotation : Type := {
  code : JsString;
  value : JsString;      (* 'high' or 'low' *)
  threshold : Z
}.

(** [{ type: recordType, index, timestamp, raw: record }] *)
Record BaseRecord : Type := {
  type : option Z;
  index : option Z;
  timestamp : DateArgs;
  raw : JsString
}.

(** The value of a ketone record is a double; it is kept symbolic. *)
Inductive KetoneValue : Type :=
| KetoneHI                 (* KETONE_HI + (1 / KETONE_VALUE_FACTOR) *)
| KetoneRaw (rawValue : Z). (* rawValue / KETONE_VALUE_FACTOR *)

(** The objects [parseRecord] and the three [process...Record] methods
    build.  The constructor stands for the [type] property of the object
    ('glucose', 'ketone', 'timeChange', or the numeric code kept from the
    base record); [unit], [isControlSolution: false], [jsDate] (the base
    timestamp), [valid: true] and [agent: 'manual'] are constants of each
    shape. *)
Inductive ProcessedRecord : Type :=
| Untyped (b : BaseRecord)
| Glucose (b : BaseRecord) (mgdl : Z) (annotations : option (list Annotation))
    (deviceTime : JsString) (devId serial : JsField)
| Ketone (b : BaseRecord) (mmol : KetoneValue)
    (annotations : option (list Annotation))
    (deviceTime : JsString) (devId serial : JsField)
| TimeChange (b : BaseRecord) (changeFrom changeTo : JsString)
    (deviceTime : JsString) (devId serial : JsField).

(** ** The regular expression of the text responses *)

Module TextRegex.

Definition CR : ascii := "013"%char.
Definition LF : ascii := "010"%char.
Definition crlf : JsString := [CR; LF].

(** [[0-9A-F]] *)
Definition isHexUpper (c : ascii) : bool :=
  let n := Js.code c in
  ((48 <=? n) && (n <=? 57)) || ((65 <=? n) && (n <=? 70)).

(** Group 1: the longest run of code units other than CR, and what
    follows it. *)
Fixpoint spanNotCR (s : JsString) : JsString * JsString :=
  match s with
  | [] => ([], [])
  | c :: s' =>
      if Js.ascii_eqb c CR then ([], s)
      else let '(run, rest) := spanNotCR s' in (c :: run, rest)
  end.

(** [([0-9A-F]{8})] *)
Definition takeHex8 (s : JsString) : option (JsString * JsString) :=
  let digits := firstn 8 s in
  if (List.length digits =? 8)%nat && forallb isHexUpper digits
  then Some (digits, skipn 8 s) else None.

(** The groups of a match: [match[1]], [match[2]], [match[3]]. *)
Record Groups : Type := {
  data : JsString;
  checksum : JsString;
  status : JsString
}.

(** [response.match(regex)] for the expression of [parseTextResponse]:
    start of input, group 1 = any run of code units other than CR, then
    CR LF "CKSM:", group 2 = eight of [0-9A-F], then CR LF "CMD ",
    group 3 = "OK" or "Fail!", then CR LF.  Group 1 must be followed by
    CR, which it cannot contain, so only its longest run can lead to a
    match; the two alternatives of group 3 start with different letters.
    The matcher therefore needs no backtracking. *)
Definition regex_match (response : JsString) : option Groups :=
  let '(d, r1) := spanNotCR response in
  match Js.stripPrefix (crlf ++ "CKSM:") r1 with
  | None => None
  | Some r2 =>
      match takeHex8 r2 with
      | None => None
      | Some (c, r3) =>
          match Js.stripPrefix (crlf ++ "CMD ") r3 with
          | None => None
          | Some r4 =>
              match Js.stripPrefix ("OK" ++ crlf) r4 with
              | Some _ => Some {| data := d; checksum := c; status := "OK" |}
              | None =>
                  match Js.stripPrefix ("Fail!" ++ crlf) r4 with
                  | Some _ =>
                      Some {| data := d; checksum := c; status := "Fail!" |}
                  | None => None
                  end
              end
          end
      end
  end.

(** The shape the expression describes, stated on the text itself. *)
Definition wellFormed (response : JsString) : Prop :=
  exists d c st rest,
    response = d ++ crlf ++ "CKSM:" ++ c ++ crlf ++ "CMD " ++ st ++ crlf ++ rest
    /\ Forall (fun x => x <> CR) d
    /\ List.length c = 8%nat /\ Forall (fun x => isHexUpper x = true) c
    /\ (st = ("OK" : JsString) \/ st = ("Fail!" : JsString)).

(** A framed response with status OK. *)
Definition okResponse (d c : JsString) : JsString :=
  d ++ crlf ++ "CKSM:" ++ c ++ crlf ++ "CMD OK" ++ crlf.

(** The sum of the code units of the data, the checksum of the format. *)
Definition byteSum (d : JsString) : Z :=
  fold_left (fun sum char => sum + Z.land (Js.code char) 0xFF) d 0.

(** What the two parsers write to the console. *)
Inductive LogEntry : Type :=
| WarnEmpty                               (* 'Respuesta vacia o nula' *)
| WarnInvalidFormat (response : JsString) (* 'Formato de respuesta invalido:' *)
| WarnFullResponse (response : JsString)  (* 'Respuesta completa:' *)
| WarnUnformatted (line : JsString)       (* 'Intentando extraer datos sin formato:' *)
| ErrorCommandFailed (st : JsString)      (* 'Comando fallo:' *)
| WarnChecksum (calculated received : option Z). (* 'Checksum invalido' *)

End TextRegex.

(** ** The injected usbModule, the session and its computations *)

(** The methods of the [usbModule] object the driver is built with.  [T]
    is the state of the transport behind it; every call returns normally
    or rejects.  [None] as a device name is [null] / [undefined];
    [readData] may resolve to [null]. *)
Record UsbModule (T : Type) : Type := {
  openDevice : option JsString -> T -> Completion bool * T;
  closeDevice : option JsString -> T -> Completion bool * T;
  claimInterface : option JsString -> Z -> T -> Completion bool * T;
  writeData : option JsString -> list Z -> T -> Completion Z * T;
  readData : option JsString -> Z -> T -> Completion (option (list Z)) * T
}.
Arguments openDevice {T} _ _ _.
Arguments closeDevice {T} _ _ _.
Arguments claimInterface {T} _ _ _ _.
Arguments writeData {T} _ _ _ _.
Arguments readData {T} _ _ _ _.

(** What a computation does to the outside, in order: the calls on the
    usbModule, the [delay]s and the progress notifications. *)
Inductive Event : Type :=
| EvOpen (name : option JsString)
| EvClaim (name : option JsString) (interfaceNumber : Z)
| EvClose (name : option JsString)
| EvWrite (name : option JsString) (data : list Z) (result : Completion Z)
| EvRead (name : option JsString) (timeout : Z)
| EvDelay (ms : Z)
| EvProgress (step total : Z).

(** The fields of the driver object ([deviceInfo], [isConnected]), of its
    protocol object ([deviceName], [isInitialized]) and the transport. *)
Record Session (T : Type) : Type := {
  deviceInfo : option DeviceInfo;
  isConnected : bool;
  protocol_deviceName : option JsString;
  protocol_isInitialized : bool;
  transport : T
}.
Arguments deviceInfo {T} _.
Arguments isConnected {T} _.
Arguments protocol_deviceName {T} _.
Arguments protocol_isInitialized {T} _.
Arguments transport {T} _.

(** The state of a driver just built by its constructor. *)
Definition newSession {T} (t : T) : Session T :=
  {| deviceInfo := None; isConnected := false;
     protocol_deviceName := None; protocol_isInitialized := false;
     transport := t |}.

Module Eff.

Section Monad.

Context {T : Type}.

(** An [async] method: from a session to its completion, the session it
    leaves and the events it caused. *)
Definition M (A : Type) : Type :=
  Session T -> Completion A * Session T * list Event.

Definition ret {A} (a : A) : M A := fun s => (Normal a, s, []).

Definition throw {A} (e : Err) : M A := fun s => (Throw e, s, []).

Definition bind {A B} (m : M A) (k : A -> M B) : M B :=
  fun s =>
    let '(r, s1, t1) := m s in
    match r with
    | Normal a => let '(r2, s2, t2) := k a s1 in (r2, s2, t1 ++ t2)
    | Throw e => (Throw e, s1, t1)
    end.

(** [try { m } catch (error) { h error }] *)
Definition try_catch {A} (m : M A) (h : Err -> M A) : M A :=
  fun s =>
    let '(r, s1, t1) := m s in
    match r with
    | Normal a => (Normal a, s1, t1)
    | Throw e => let '(r2, s2, t2) := h e s1 in (r2, s2, t1 ++ t2)
    end.

Definition gets {A} (f : Session T -> A) : M A := fun s => (Normal (f s), s, []).

Definition modify (f : Session T -> Session T) : M unit :=
  fun s => (Normal tt, f s, []).

Definition emit (e : Event) : M unit := fun s => (Normal tt, s, [e]).

(** [await new Promise(resolve => setTimeout(resolve, ms))] *)
Definition delay (ms : Z) : M unit := emit (EvDelay ms).

Definition set_deviceInfo (v : option DeviceInfo) (s : Session T) : Session T :=
  {| deviceInfo := v; isConnected := isConnected s;
     protocol_deviceName := protocol_deviceName s;
     protocol_isInitialized := protocol_isInitialized s;
     transport := transport s |}.

Definition set_isConnected (v : bool) (s : Session T) : Session T :=
  {| deviceInfo := deviceInfo s; isConnected := v;
     protocol_deviceName := protocol_deviceName s;
     protocol_isInitialized := protocol_isInitialized s;
     transport := transport s |}.

Definition set_protocol_deviceName (v : option JsString) (s : Session T)
  : Session T :=
  {| deviceInfo := deviceInfo s; isConnected := isConnected s;
     protocol_deviceName := v;
     protocol_isInitialized := protocol_isInitialized s;
     transport := transport s |}.

Definition set_protocol_isInitialized (v : bool) (s : Session T) : Session T :=
  {| deviceInfo := deviceInfo s; isConnected := isConnected s;
     protocol_deviceName := protocol_deviceName s;
     protocol_isInitialized := v;
     transport := transport s |}.

Definition set_transport (t : T) (s : Session T) : Session T :=
  {| deviceInfo := deviceInfo s; isConnected := isConnected s;
     protocol_deviceName := protocol_deviceName s;
     protocol_isInitialized := protocol_isInitialized s;
     transport := t |}.

(** A call on the usbModule: it moves the transport and is recorded. *)
Definition call {A} (f : T -> Completion A * T) (ev : Completion A -> Event)
  : M A :=
  fun s =>
    let '(r, t') := f (transport s) in (r, set_transport t' s, [ev r]).

Variable usb : UsbModule T.

Definition usb_openDevice (name : option JsString) : M bool :=
  call (openDevice usb name) (fun _ => EvOpen name).

Definition usb_closeDevice (name : option JsString) : M bool :=
  call (closeDevice usb name) (fun _ => EvClose name).

Definition usb_claimInterface (name : option JsString) (n : Z) : M bool :=
  call (claimInterface usb name n) (fun _ => EvClaim name n).

Definition usb_writeData (name : option JsString) (data : list Z) : M Z :=
  call (writeData usb name data) (fun r => EvWrite name data r).

Definition usb_readData (name : option JsString) (timeout : Z)
  : M (option (list Z)) :=
  call (readData usb name timeout) (fun _ => EvRead name timeout).

End Monad.

Arguments M T A : clear implicits.

End Eff.

Declare Scope eff_scope.
Delimit Scope eff_scope with eff.
Notation "x <- m ;; k" := (Eff.bind m (fun x => k))
  (at level 61, m at next level, right associativity) : eff_scope.
Notation "m ;;; k" := (Eff.bind m (fun _ => k))
  (at level 61, right associativity) : eff_scope.

(** ** The protocol class, [FreeStyleProtocolMobile] *)

Module Protocol.

Import Eff.
Local Open Scope eff_scope.

(** [HID_CONFIG] *)
Definition FRAME_SIZE : nat := 64.
Definition TIMEOUT : Z := 5000.
Definition MAX_RETRIES : nat := 3.
Definition RETRY_DELAY : Z := 1000.

(** The [command] fields of [INIT_SEQUENCE], in the order of the array. *)
Definition INIT_SEQUENCE : list Z := [0x04; 0x05; 0x15; 0x01; 0x00].

(** [frame[i] = v] for an index inside the array (the driver never writes
    outside the 64 slots: its loops stop at [FRAME_SIZE - 2] payload
    bytes). *)
Fixpoint set_index (frame : list Z) (i : nat) (v : Z) : list Z :=
  match frame, i with
  | [], _ => []
  | _ :: rest, O => v :: rest
  | x :: rest, S i' => x :: set_index rest i' v
  end.

(** [for (let i = from; i < bound; i++) frame[2 + i] = data[i]], with
    [count = bound - from] iterations left. *)
Fixpoint copy_loop (count : nat) (i : nat) (data : list Z) (frame : list Z)
  : list Z :=
  match count with
  | O => frame
  | S count' => copy_loop count' (S i) data (set_index frame (2 + i) (nth i data 0))
  end.

(** [createHIDFrame(command, data = null)] *)
Definition createHIDFrame (command : Z) (data : option (list Z)) : list Z :=
  let frame := repeat 0 FRAME_SIZE in
  let frame := set_index frame 0 command in
  match data with
  | Some d =>
      if (0 <? List.length d)%nat then
        let frame := set_index frame 1 (Z.of_nat (List.length d)) in
        copy_loop (Nat.min (List.length d) (FRAME_SIZE - 2)) 0 d frame
      else frame
  | None => frame
  end.

(** [createTextCommandFrame(command)] *)
Definition createTextCommandFrame (command : JsString) : list Z :=
  let commandBytes := map Js.code command in
  let frame := repeat 0 FRAME_SIZE in
  let frame := set_index frame 0 0x21 in
  let frame := set_index frame 1 (Z.of_nat (List.length commandBytes)) in
  copy_loop (Nat.min (List.length commandBytes) (FRAME_SIZE - 2)) 0
    commandBytes frame.

(** [String.fromCharCode(...codes)]; the driver applies it to values
    between 32 and 126 only. *)
Definition fromCharCode (codes : list Z) : JsString :=
  map (fun b => ascii_of_nat (Z.to_nat b)) codes.

(** [b => b >= 32 && b <= 126] *)
Definition printable (b : Z) : bool := (32 <=? b) && (b <=? 126).

Definition crlf : JsString := TextRegex.crlf.

Section Methods.

Context {T : Type} (usb : UsbModule T).

Definition readInitResponse : M T (option (list Z)) :=
  try_catch
    (name <- gets protocol_deviceName;;
     response <- usb_readData usb name TIMEOUT;;
     match response with
     | Some r => if (0 <? List.length r)%nat then ret (Some r) else ret None
     | None => ret None
     end)
    (fun _ => ret None).

(** The [while (attempts < maxAttempts && bytesWritten < 0)] loop of
    [sendInitCommand]; [remaining] is [maxAttempts - attempts]. *)
Fixpoint write_attempts (remaining : nat) (bytesWritten : Z)
  (hidFrame : list Z) : M T Z :=
  match remaining with
  | O => ret bytesWritten
  | S remaining' =>
      if bytesWritten <? 0 then
        name <- gets protocol_deviceName;;
        bytesWritten' <- usb_writeData usb name hidFrame;;
        (if bytesWritten' <? 0 then
           if (0 <? remaining')%nat   (* attempts < maxAttempts *)
           then delay RETRY_DELAY else ret tt
         else ret tt);;;
        write_attempts remaining' bytesWritten' hidFrame
      else ret bytesWritten
  end.

Definition sendInitCommand (command : Z) : M T bool :=
  try_catch
    (let hidFrame := createHIDFrame command None in
     bytesWritten <- write_attempts 3 (-1) hidFrame;;
     if bytesWritten <? 0 then ret false
     else
       (if negb (command =? 0x00) then
          _ <- readInitResponse;; ret tt
        else ret tt);;;
       ret true)
    (fun _ => ret false).

Definition sendWakeUpCommand : M T bool :=
  try_catch
    (let wakeUpFrame := createHIDFrame 0x00 None in
     name <- gets protocol_deviceName;;
     _ <- usb_writeData usb name wakeUpFrame;;
     delay 500;;;
     try_catch
       (name <- gets protocol_deviceName;;
        _ <- usb_readData usb name 1000;; ret tt)
       (fun _ => ret tt);;;
     ret true)
    (fun _ => ret false).

(** The [for] loop of [executeInitSequence] from index [i] on. *)
Fixpoint init_loop (i : nat) (commands : list Z) : M T unit :=
  match commands with
  | [] => ret tt
  | command :: rest =>
      success <- sendInitCommand command;;
      if negb success then throw (ErrInitCommand (i + 1) command)
      else delay RETRY_DELAY;;; init_loop (S i) rest
  end.

Definition executeInitSequence : M T bool :=
  try_catch
    (_ <- sendWakeUpCommand;;
     delay 60000;;;
     init_loop 0 INIT_SEQUENCE;;;
     ret true)
    (fun error => throw error).

Definition initCommunication (deviceName : option JsString) : M T bool :=
  try_catch
    (modify (set_protocol_deviceName deviceName);;;
     initSuccess <- executeInitSequence;;
     if negb initSuccess then throw ErrInitSequence
     else modify (set_protocol_isInitialized true);;; ret true)
    (fun error => modify (set_protocol_isInitialized false);;; throw error).

Definition requestTextResponse (command : JsString) : M T JsString :=
  try_catch
    (initialized <- gets protocol_isInitialized;;
     if negb initialized then throw ErrNotInitialized
     else
       let hidFrame := createTextCommandFrame command in
       name <- gets protocol_deviceName;;
       bytesWritten <- usb_writeData usb name hidFrame;;
       if bytesWritten <? 0 then throw (ErrTextWrite bytesWritten)
       else
         name <- gets protocol_deviceName;;
         response <- usb_readData usb name TIMEOUT;;
         match response with
         | None => throw ErrNoResponse
         | Some bytes =>
             if (List.length bytes =? 0)%nat then throw ErrNoResponse
             else ret (fromCharCode (filter printable bytes))
         end)
    (fun error => throw error).

Definition nonblank (line : JsString) : bool :=
  negb (Js.str_eqb (Js.trim line) []).

Definition getResults : M T (list JsString) :=
  try_catch
    (response <- requestTextResponse "$result?";;
     if negb (Js.str_eqb response []) && nonblank response then
       ret (filter nonblank (Js.split crlf (Js.trim response)))
     else ret [])
    (fun error => throw error).

(** [getSerialNumber()] of the protocol class *)
Definition getSerialNumber : M T JsString :=
  try_catch
    (response <- requestTextResponse "$serlnum?";;
     if negb (Js.str_eqb response []) && nonblank response
     then ret (Js.trim response)
     else throw (Error "No se recibio numero de serie"))
    (fun error => throw error).

(** [getDate()] *)
Definition getDate : M T JsString :=
  try_catch
    (response <- requestTextResponse "$date?";;
     if negb (Js.str_eqb response []) && nonblank response
     then ret (Js.trim response)
     else throw (Error "No se recibio fecha"))
    (fun error => throw error).

(** [getTime()] *)
Definition getTime : M T JsString :=
  try_catch
    (response <- requestTextResponse "$time?";;
     if negb (Js.str_eqb response []) && nonblank response
     then ret (Js.trim response)
     else throw (Error "No se recibio hora"))
    (fun error => throw error).

(** [parseRecordsResponse(response)]: nothing in its [try] block throws,
    so the [catch] that returns an empty array is never entered. *)
Definition parseRecordsResponse (response : JsString) : list JsString :=
  let lines := filter nonblank (Js.split crlf response) in
  flat_map (fun line => if nonblank line then [Js.trim line] else []) lines.

(** [getDBRecords(command)] *)
Definition getDBRecords (command : JsString) : M T (list JsString) :=
  try_catch
    (initialized <- gets protocol_isInitialized;;
     if negb initialized then throw ErrNotInitialized
     else
       response <- requestTextResponse command;;
       if Js.str_eqb response []
       then throw (Error "Sin respuesta para comando de registros")
       else ret (parseRecordsResponse response))
    (fun error => throw error).

(** [isProtocolInitialized()] *)
Definition isProtocolInitialized : M T bool := gets protocol_isInitialized.

End Methods.

End Protocol.

Module Driver.

Import Pure.
Local Open Scope pure_scope.

Section RecordParser.

(** [Date.prototype.toISOString] of the date built from the given
    arguments in the host's time zone; [None] when the date is invalid
    (the call then throws a RangeError). *)
Variable toISOString : DateArgs -> option JsString.

(** [this.deviceInfo] *)
Variable this_deviceInfo : option DeviceInfo.

Definition call_toISOString (ts : DateArgs) : Completion JsString :=
  match toISOString ts with
  | Some s => Normal s
  | None => Throw (RangeError "Invalid time value")
  end.

Definition formatDeviceTime (ts : DateArgs) : Completion JsString :=
  try_catch
    (s <- call_toISOString ts;; Normal (Js.removeFirst "Z" s))
    (fun _ => call_toISOString ts).

Definition is_str (v : option JsString) (lit : string) : bool :=
  match v with Some s => Js.str_eqb s lit | None => false end.

Definition add2000 (y : option Z) : option Z := option_map (fun v => v + 2000) y.
Definition minus1 (m : option Z) : option Z := option_map (fun v => v - 1) m.

Definition some_if_nonempty {A} (l : list A) : option (list A) :=
  match l with [] => None | _ => Some l end.

Definition processGlucoseRecord (fields : list JsString)
  (baseRecord : BaseRecord) : Completion (option ProcessedRecord) :=
  try_catch
    (let value := nth_error fields 8 in
     let isControlSolution :=
       Js.num_eqb (Js.parseInt (nth_error fields 10) None) 0 in
     if isControlSolution then Normal None
     else
       pv <- (if is_str value "HI" then
                Normal (Some (501,
                  [ {| code := "bg/out-of-range";
                       value := "high"; threshold := 500 |} ]))
              else if is_str value "LO" then
                Normal (Some (19,
                  [ {| code := "bg/out-of-range";
                       value := "low"; threshold := 20 |} ]))
              else
                match Js.parseInt value None with
                | None => Normal None
                | Some v => Normal (Some (v, []))
                end);;
       match pv with
       | None => Normal None
       | Some (processedValue, annotations) =>
           deviceTime <- formatDeviceTime (timestamp baseRecord);;
           devId <- get_of_nullable this_deviceInfo deviceId;;
           serial <- get_of_nullable this_deviceInfo serialNumber;;
           Normal (Some (Glucose baseRecord processedValue
                           (some_if_nonempty annotations)
                           deviceTime devId serial))
       end)
    (fun _ => Normal None).

Definition processKetoneRecord (fields : list JsString)
  (baseRecord : BaseRecord) : Completion (option ProcessedRecord) :=
  try_catch
    (let value := nth_error fields 8 in
     let isControlSolution :=
       Js.num_eqb (Js.parseInt (nth_error fields 9) None) 0 in
     if isControlSolution then Normal None
     else
       pv <- (if is_str value "HI" then
                Normal (Some (KetoneHI,
                  [ {| code := "ketone/out-of-range";
                       value := "high"; threshold := 8 |} ]))
              else
                match Js.parseInt value None with
                | None => Normal None
                | Some rawValue => Normal (Some (KetoneRaw rawValue, []))
                end);;
       match pv with
       | None => Normal None
       | Some (processedValue, annotations) =>
           deviceTime <- formatDeviceTime (timestamp baseRecord);;
           devId <- get_of_nullable this_deviceInfo deviceId;;
           serial <- get_of_nullable this_deviceInfo serialNumber;;
           Normal (Some (Ketone baseRecord processedValue
                           (some_if_nonempty annotations)
                           deviceTime devId serial))
       end)
    (fun _ => Normal None).

Definition processTimeChangeRecord (fields : list JsString)
  (baseRecord : BaseRecord) : Completion (option ProcessedRecord) :=
  try_catch
    (let valid := Js.num_eqb (Js.parseInt (nth_error fields 7) None) 1 in
     if negb valid then Normal None
     else
       let fromTimestamp :=
         {| year := add2000 (Js.parseInt (nth_error fields 10) None);
            monthIndex := minus1 (Js.parseInt (nth_error fields 8) None);
            day := Js.parseInt (nth_error fields 9) None;
            hours := Js.parseInt (nth_error fields 11) None;
            minutes := Js.parseInt (nth_error fields 12) None;
            seconds := Some 0 |} in
       from <- formatDeviceTime fromTimestamp;;
       to <- formatDeviceTime (timestamp baseRecord);;
       deviceTime <- formatDeviceTime (timestamp baseRecord);;
       devId <- get_of_nullable this_deviceInfo deviceId;;
       serial <- get_of_nullable this_deviceInfo serialNumber;;
       Normal (Some (TimeChange baseRecord from to deviceTime devId serial)))
    (fun _ => Normal None).

(** The common fields read by [parseRecord] once the line is known to
    have at least 8 fields: the object bound to [processedRecord]. *)
Definition commonFields (record : JsString) (fields : list JsString)
  : BaseRecord :=
  let recordType := Js.parseInt (nth_error fields 0) None in
  let index := Js.parseInt (nth_error fields 1) None in
  let month := Js.parseInt (nth_error fields 2) None in
  let day := Js.parseInt (nth_error fields 3) None in
  let year := add2000 (Js.parseInt (nth_error fields 4) None) in
  let hours := Js.parseInt (nth_error fields 5) None in
  let minutes := Js.parseInt (nth_error fields 6) None in
  let seconds :=   (* parseInt(fields[7]) || 0 *)
    match Js.parseInt (nth_error fields 7) None with
    | Some v => v | None => 0
    end in
  let timestamp :=
    {| year := year; monthIndex := minus1 month; day := day;
       hours := hours; minutes := minutes; seconds := Some seconds |} in
  {| type := recordType; index := index;
     timestamp := timestamp; raw := record |}.

(** The body of the [try] block of [parseRecord].  [processedRecord] is
    declared with [const]; the three typed branches of the [switch]
    assign to it. *)
Definition parseRecord_try (record : JsString)
  : Completion (option ProcessedRecord) :=
  let fields := Js.split "," record in
  if (Z.of_nat (List.length fields) <? 8) then Normal None
  else
    let processedRecord (* const *) := commonFields record fields in
    let recordType := type processedRecord in
    (if Js.num_eqb recordType 7 then
       r <- processGlucoseRecord fields processedRecord;;
       assign_const "processedRecord" r
     else if Js.num_eqb recordType 9 then
       r <- processKetoneRecord fields processedRecord;;
       assign_const "processedRecord" r
     else if Js.num_eqb recordType 6 then
       r <- processTimeChangeRecord fields processedRecord;;
       assign_const "processedRecord" r
     else Normal tt);;;
    Normal (Some (Untyped processedRecord)).

Definition parseRecord (record : JsString)
  : Completion (option ProcessedRecord) :=
  try_catch (parseRecord_try record) (fun _ => Normal None).

(** The [for ... of] loop of [processRecords]; [processedRecords] is the
    array being filled. *)
Fixpoint processRecords_loop (records : list JsString)
  (processedRecords : list ProcessedRecord)
  : Completion (list ProcessedRecord) :=
  match records with
  | [] => Normal processedRecords
  | record :: rest =>
      pushed <- try_catch
                  (processedRecord <- parseRecord record;;
                   match processedRecord with
                   | Some r => Normal (processedRecords ++ [r])
                   | None => Normal processedRecords
                   end)
                  (fun _ => Normal processedRecords);;
      processRecords_loop rest pushed
  end.

Definition processRecords (records : list JsString)
  : Completion (list ProcessedRecord) :=
  try_catch (processRecords_loop records []) (fun error => Throw error).

End RecordParser.

(** [parseTextResponse(response)] of the driver class: the value returned
    ([None] is [null]) and the console entries written. *)
Definition parseTextResponse (response : JsString)
  : option JsString * list TextRegex.LogEntry :=
  if Js.str_eqb response [] || Js.str_eqb (Js.trim response) [] then (None, [])
  else
    match TextRegex.regex_match response with
    | None => (None, [TextRegex.WarnInvalidFormat response])
    | Some m =>
        let data := TextRegex.data m in
        let status := TextRegex.status m in
        if negb (Js.str_eqb status "OK")
        then (None, [TextRegex.ErrorCommandFailed status])
        else (Some data, [])
    end.

Local Close Scope pure_scope.
Local Open Scope eff_scope.
Import Eff.

Section Methods.

Context {T : Type} (usb : UsbModule T).

(** A progress callback receives [{ step, total, message }] (the message
    is a constant of each step); it returns or throws, and does not reach
    the usbModule itself: the callbacks of the application only log. *)
Definition ProgressCallback : Type := Z -> Z -> Completion unit.

(** [if (progressCallback) { progressCallback({ step, total, message }) }] *)
Definition notify (progressCallback : option ProgressCallback)
  (step total : Z) : M T unit :=
  match progressCallback with
  | None => ret tt
  | Some f =>
      emit (EvProgress step total);;;
      match f step total with
      | Normal _ => ret tt
      | Throw e => throw e
      end
  end.

Definition connectToDevice (info : DeviceInfo) : M T bool :=
  try_catch
    (opened <- usb_openDevice usb (deviceName info);;
     if negb opened then throw ErrOpen
     else
       claimed <- usb_claimInterface usb (deviceName info) 0;;
       if negb claimed then throw ErrClaim
       else ret true)
    (fun error => throw error).

Definition initCommunication (name : option JsString) : M T bool :=
  try_catch
    (initSuccess <- Protocol.initCommunication usb name;;
     if negb initSuccess then throw ErrInitProtocol
     else ret true)
    (fun error => throw error).

Definition verifyConnection : M T bool :=
  try_catch
    (let testCommand := [0x04; 0x00] in
     info <- gets deviceInfo;;
     match info with
     | None => throw (TypeError "Cannot read properties of null")
     | Some d =>
         response <- usb_writeData usb (deviceName d) testCommand;;
         if response <? 0 then ret false else ret true
     end)
    (fun _ => ret false).

Definition connect (info : DeviceInfo)
  (progressCallback : option ProgressCallback) : M T bool :=
  try_catch
    (modify (set_deviceInfo (Some info));;;
     notify progressCallback 1 4;;;
     connected <- connectToDevice info;;
     if negb connected then throw ErrConnect
     else
       notify progressCallback 2 4;;;
       _ <- initCommunication (deviceName info);;
       notify progressCallback 3 4;;;
       isStable <- verifyConnection;;
       if negb isStable then throw ErrUnstable
       else
         modify (set_isConnected true);;;
         notify progressCallback 4 4;;;
         ret true)
    (fun error => modify (set_isConnected false);;; throw error).

Definition disconnect : M T bool :=
  try_catch
    (info <- gets deviceInfo;;
     match info with
     | Some d => _ <- usb_closeDevice usb (deviceName d);; ret tt
     | None => ret tt
     end;;;
     modify (set_isConnected false);;;
     modify (set_deviceInfo None);;;
     ret true)
    (fun error => throw error).

End Methods.

(** *** Device information, data and upload *)

(** What [fetchData] returns. *)
Record FetchResult : Type := {
  rawRecords : list JsString;
  processedRecords : list ProcessedRecord;
  recordCount : Z
}.

(** What [getDeviceDateTime] returns (its [timestamp], the host clock at
    the time of the call, is left out). *)
Record DeviceDateTime : Type := {
  date : JsString;
  time : JsString;
  formatted : JsString
}.

(** A [Date] object: built from arguments, or the current time. *)
Inductive JsDate : Type :=
| DateOf (args : DateArgs)
| DateNow.

(** What [verifyTimeSync] returns: the sync result, or the object of its
    [catch] block.  Times are milliseconds since the epoch, [None] being
    [NaN]; the difference is kept in milliseconds ([timeDifference] is
    that number divided by 60000). *)
Inductive SyncResult : Type :=
| SyncInfo (deviceTimeMs : option Z) (currentTimeMs : Z)
    (timeDifferenceMs : option Z) (needsSync : bool)
| SyncError (error : Err).

(** What [getDeviceInfo] returns (without its [timestamp]). *)
Record DeviceInfoResult : Type := {
  info_serialNumber : JsString;
  info_deviceId : JsString;
  info_deviceDateTime : DeviceDateTime;
  info_timeSync : SyncResult
}.

(** The [summary] object built by [uploadData]. *)
Record Summary : Type := {
  totalRecords : nat;
  glucoseRecords : nat;
  ketoneRecords : nat;
  timeChangeRecords : nat;
  hiValues : nat;
  loValues : nat
}.

(** What [uploadData] returns: the records and the summary of
    [tidepoolData], the serial number and device id of its [sessionInfo],
    and [recordsUploaded] of the simulated response.  The clock readings
    ([start], [timestamp], [uploadId]) and the constant fields are left
    out. *)
Record UploadResult : Type := {
  upload_records : list ProcessedRecord;
  upload_summary : Summary;
  upload_serialNumber : JsField;
  upload_deviceId : JsField;
  recordsUploaded : nat
}.

(** [r.type === 'glucose'] and the like. *)
Definition isGlucose (r : ProcessedRecord) : bool :=
  match r with Glucose _ _ _ _ _ _ => true | _ => false end.
Definition isKetone (r : ProcessedRecord) : bool :=
  match r with Ketone _ _ _ _ _ _ => true | _ => false end.
Definition isTimeChange (r : ProcessedRecord) : bool :=
  match r with TimeChange _ _ _ _ _ _ => true | _ => false end.

(** [r.annotations] *)
Definition annotationsOf (r : ProcessedRecord) : option (list Annotation) :=
  match r with
  | Glucose _ _ a _ _ _ | Ketone _ _ a _ _ _ => a
  | _ => None
  end.

(** [r.annotations && r.annotations.some(a => a.value === v)] *)
Definition hasAnnotation (v : JsString) (r : ProcessedRecord) : bool :=
  match annotationsOf r with
  | Some l => existsb (fun a => Js.str_eqb (value a) v) l
  | None => false
  end.

Definition summarize (processedRecords : list ProcessedRecord) : Summary :=
  {| totalRecords := List.length processedRecords;
     glucoseRecords := List.length (filter isGlucose processedRecords);
     ketoneRecords := List.length (filter isKetone processedRecords);
     timeChangeRecords := List.length (filter isTimeChange processedRecords);
     hiValues := List.length (filter (hasAnnotation "high") processedRecords);
     loValues := List.length (filter (hasAnnotation "low") processedRecords) |}.

(** [parseDeviceDateTime(deviceDateTime)]: the destructured pieces that
    are missing are [undefined]; calling [split] on a missing [timeStr]
    throws, and the [catch] block returns the current time. *)
Definition parseDeviceDateTime (deviceDateTime : DeviceDateTime)
  : Completion JsDate :=
  Pure.try_catch
    (let pieces := Js.split " " (formatted deviceDateTime) in
     let dateStr := nth_error pieces 0 in
     let timeStr := nth_error pieces 1 in
     match dateStr, timeStr with
     | Some dateStr, Some timeStr =>
         let dateParts := Js.split "," dateStr in
         let timeParts := Js.split "," timeStr in
         let month := nth_error dateParts 0 in
         let day := nth_error dateParts 1 in
         let year := nth_error dateParts 2 in
         let hour := nth_error timeParts 0 in
         let minute := nth_error timeParts 1 in
         Normal (DateOf
           {| year := option_map (fun y => 2000 + y) (Js.parseInt year None);
              monthIndex := minus1 (Js.parseInt month None);
              day := Js.parseInt day None;
              hours := Js.parseInt hour None;
              minutes := Js.parseInt minute None;
              seconds := Some 0 |})
     | _, _ => Throw (TypeError "Cannot read properties of undefined")
     end)
    (fun _ => Normal DateNow).

Section DataMethods.

Context {T : Type} (usb : UsbModule T).

(** [usbModule.sendTextCommand(deviceName, command)]: it moves the transport
    and resolves to the response text, or rejects.  These calls are not
    among the recorded events. *)
Variable sendTextCommand :
  option JsString -> JsString -> T -> Completion JsString * T.

(** [Date.prototype.toISOString], as for the record parser. *)
Variable toISOString : DateArgs -> option JsString.

(** The time value of a [Date] built from arguments in the host's time
    zone ([None] for an invalid date), the clock read by [verifyTimeSync]
    and the clock read in the [catch] block of [parseDeviceDateTime]. *)
Variable timeValue : DateArgs -> option Z.
Variable currentTime : Z.
Variable currentTimeInCatch : Z.

(** [this.config.driverId] *)
Variable config_driverId : JsString.

Definition usb_sendTextCommand (name : option JsString) (command : JsString)
  : M T JsString :=
  fun s =>
    let '(r, t') := sendTextCommand name command (transport s) in
    (r, set_transport t' s, []).

(** [this.deviceInfo.deviceName] *)
Definition this_deviceName : M T (option JsString) :=
  info <- gets deviceInfo;;
  match info with
  | Some d => ret (deviceName d)
  | None => throw (TypeError "Cannot read properties of null")
  end.

Definition getSerialNumber : M T JsString :=
  try_catch
    (name <- this_deviceName;;
     response <- usb_sendTextCommand name "$serlnum?";;
     if Js.str_eqb response [] || Js.str_eqb (Js.trim response) []
     then throw (Error "Respuesta vacia del dispositivo")
     else
       match fst (parseTextResponse response) with
       | None => throw (Error "No se pudo parsear el numero de serie")
       | Some serial =>
           if Js.str_eqb serial []
           then throw (Error "No se pudo parsear el numero de serie")
           else ret serial
       end)
    (fun error => throw error).

(** [!date || !time] *)
Definition falsy (v : option JsString) : bool :=
  match v with Some s => Js.str_eqb s [] | None => true end.

Definition getDeviceDateTime : M T DeviceDateTime :=
  try_catch
    (name <- this_deviceName;;
     dateResponse <- usb_sendTextCommand name "$date?";;
     let date := fst (parseTextResponse dateResponse) in
     name <- this_deviceName;;
     timeResponse <- usb_sendTextCommand name "$time?";;
     let time := fst (parseTextResponse timeResponse) in
     match date, time with
     | Some d, Some t =>
         if falsy date || falsy time
         then throw (Error "No se pudo obtener fecha/hora del dispositivo")
         else ret {| date := d; time := t; formatted := d ++ " " ++ t |}
     | _, _ => throw (Error "No se pudo obtener fecha/hora del dispositivo")
     end)
    (fun error => throw error).

Definition dateValue (d : JsDate) : option Z :=
  match d with
  | DateOf args => timeValue args
  | DateNow => Some currentTimeInCatch
  end.

(** [verifyTimeSync(deviceDateTime)].  [timeDiff > 5] compares a number
    of minutes; on whole milliseconds it is the comparison with 300000. *)
Definition verifyTimeSync (deviceDateTime : DeviceDateTime) : M T SyncResult :=
  try_catch
    (match parseDeviceDateTime deviceDateTime with
     | Normal deviceTime =>
         let timeDiff :=
           option_map (fun t => Z.abs (currentTime - t)) (dateValue deviceTime) in
         ret (SyncInfo (dateValue deviceTime) currentTime timeDiff
                (match timeDiff with
                 | Some d => 300000 <? d
                 | None => false
                 end))
     | Throw e => throw e
     end)
    (fun error => ret (SyncError error)).

Definition getDeviceInfo (progressCallback : option ProgressCallback)
  : M T DeviceInfoResult :=
  try_catch
    (notify progressCallback 1 3;;;
     serialNumber <- getSerialNumber;;
     if Js.str_eqb serialNumber []
     then throw (Error "No se pudo obtener el numero de serie")
     else
       let deviceId := config_driverId ++ "-" ++ serialNumber in
       notify progressCallback 2 3;;;
       deviceDateTime <- getDeviceDateTime;;
       notify progressCallback 3 3;;;
       timeSyncResult <- verifyTimeSync deviceDateTime;;
       ret {| info_serialNumber := serialNumber;
              info_deviceId := deviceId;
              info_deviceDateTime := deviceDateTime;
              info_timeSync := timeSyncResult |})
    (fun error => throw error).

Definition fetchData (progressCallback : option ProgressCallback)
  : M T FetchResult :=
  try_catch
    (notify progressCallback 1 2;;;
     records <- Protocol.getResults usb;;
     notify progressCallback 2 2;;;
     info <- gets deviceInfo;;
     match processRecords toISOString info records with
     | Normal processed =>
         ret {| rawRecords := records;
                processedRecords := processed;
                recordCount := Z.of_nat (List.length records) |}
     | Throw e => throw e
     end)
    (fun error => throw error).

Definition simulateUpload (records : list ProcessedRecord) : M T nat :=
  try_catch
    (delay 1000;;; ret (List.length records))
    (fun error => throw error).

Definition uploadData (processedRecords : list ProcessedRecord)
  (progressCallback : option ProgressCallback) : M T UploadResult :=
  try_catch
    (notify progressCallback 1 3;;;
     info <- gets deviceInfo;;
     match info with
     | None => throw (TypeError "Cannot read properties of null")
     | Some d =>
         notify progressCallback 2 3;;;
         let summary := summarize processedRecords in
         notify progressCallback 3 3;;;
         uploaded <- simulateUpload processedRecords;;
         ret {| upload_records := processedRecords;
                upload_summary := summary;
                upload_serialNumber := serialNumber d;
                upload_deviceId := deviceId d;
                recordsUploaded := uploaded |}
     end)
    (fun error => throw error).

End DataMethods.

End Driver.

(** ** The copy of [parseTextResponse] in [example/App.tsx] *)

Module App.

Definition parseTextResponse (response : JsString)
  : option JsString * list TextRegex.LogEntry :=
  if Js.str_eqb response [] || Js.str_eqb (Js.trim response) []
  then (None, [TextRegex.WarnEmpty])
  else
    match TextRegex.regex_match response with
    | None =>
        let warned := [TextRegex.WarnInvalidFormat response;
                       TextRegex.WarnFullResponse response] in
        match Js.split TextRegex.crlf response with
        | line0 :: _ =>
            if negb (Js.str_eqb (Js.trim line0) [])
            then (Some line0, warned ++ [TextRegex.WarnUnformatted line0])
            else (None, warned)
        | [] => (None, warned)
        end
    | Some m =>
        let data := TextRegex.data m in
        let checksum := Js.parseInt (Some (TextRegex.checksum m)) (Some 16) in
        let status := TextRegex.status m in
        if negb (Js.str_eqb status "OK")
        then (None, [TextRegex.ErrorCommandFailed status])
        else
          let calculatedChecksum := Some (TextRegex.byteSum data) in
          if negb (match checksum with
                   | Some v => v =? TextRegex.byteSum data
                   | None => false
                   end)
          then (Some data, [TextRegex.WarnChecksum calculatedChecksum checksum])
          else (Some data, [])
    end.

(** *** The two functions that drive the Abbott driver *)

Section Flows.

Import Eff.
Local Open Scope eff_scope.

Context {T : Type} (usb : UsbModule T).
Variable sendTextCommand :
  option JsString -> JsString -> T -> Completion JsString * T.
Variable toISOString : DateArgs -> option JsString.
Variable timeValue : DateArgs -> option Z.
Variable currentTime : Z.
Variable currentTimeInCatch : Z.
Variable driverId : JsString.

(** [createAbbottDriver(config, usbModule)]: a new driver object over the
    same transport. *)
Definition createAbbottDriver : M T unit :=
  modify (fun s => newSession (transport s)).

(** The callbacks of both functions write a log line and return. *)
Definition logProgress : option Driver.ProgressCallback :=
  Some (fun _ _ => Normal tt).

(** [communicateWithFreeStyleNeo(deviceInfo)] of App.tsx *)
Definition communicateWithFreeStyleNeo (info : DeviceInfo) : M T unit :=
  try_catch
    (createAbbottDriver;;;
     _ <- Driver.connect usb info logProgress;;
     _ <- Driver.getDeviceInfo sendTextCommand timeValue currentTime
            currentTimeInCatch driverId logProgress;;
     _ <- Driver.disconnect usb;;
     ret tt)
    (fun error => throw error).

(** [communicateWithAbbottDevice(userInfo)] of the upload flow; it returns
    the upload result and [recordsCount]. *)
Definition communicateWithAbbottDevice (info : DeviceInfo)
  : M T (Driver.UploadResult * nat) :=
  try_catch
    (createAbbottDriver;;;
     _ <- Driver.connect usb info logProgress;;
     _ <- Driver.getDeviceInfo sendTextCommand timeValue currentTime
            currentTimeInCatch driverId logProgress;;
     dataResult <- Driver.fetchData usb toISOString logProgress;;
     this_deviceInfo <- gets deviceInfo;;
     match Driver.processRecords toISOString this_deviceInfo
             (Driver.rawRecords dataResult) with
     | Throw e => throw e
     | Normal processedRecords =>
         uploadResult <- Driver.uploadData processedRecords logProgress;;
         _ <- Driver.disconnect usb;;
         ret (uploadResult, List.length processedRecords)
     end)
    (fun error => throw error).

End Flows.

End App.

(** ** Vocabulary of the statements about the record parser *)

Module RecordSpec.

(** The type codes that [parseRecord] dispatches on. *)
Definition typedCode (t : option Z) : bool :=
  Js.num_eqb t 7 || Js.num_eqb t 9 || Js.num_eqb t 6.

(** What a raw line contributes to the output of [processRecords]: an
    untyped record made of the common fields when the line has at least
    8 fields and its type code is none of 7, 9, 6; nothing otherwise. *)
Definition emitted (record : JsString) : option ProcessedRecord :=
  let fields := Js.split "," record in
  if (List.length fields <? 8)%nat then None
  else
    let b := Driver.commonFields record fields in
    if typedCode (type b) then None else Some (Untyped b).

Definition emittedList (records : list JsString) : list ProcessedRecord :=
  flat_map (fun r => match emitted r with Some x => [x] | None => [] end)
           records.

Definition isUntyped (r : ProcessedRecord) : Prop :=
  exists b, r = Untyped b /\ typedCode (type b) = false.

(** The lines that contribute a record: at least 8 fields and a type code
    that is none of 7, 9, 6. *)
Definition kept (record : JsString) : bool :=
  let fields := Js.split "," record in
  (8 <=? List.length fields)%nat
  && negb (typedCode (Js.parseInt (nth_error fields 0) None)).

(** The [raw] property of a record of any shape. *)
Definition rawOf (r : ProcessedRecord) : JsString :=
  match r with
  | Untyped b | Glucose b _ _ _ _ _ | Ketone b _ _ _ _ _
  | TimeChange b _ _ _ _ _ => raw b
  end.

Definition highAnnotation : Annotation :=
  {| code := "bg/out-of-range"; value := "high"; threshold := 500 |}.

Definition lowAnnotation : Annotation :=
  {| code := "bg/out-of-range"; value := "low"; threshold := 20 |}.

End RecordSpec.

(** ** Sample environment used by the concrete instances *)

Module Sample.

(** A host in UTC: 2024-06-15 10:30:00 is the only date the samples use;
    a date with a [NaN] component is invalid. *)
Definition toISOString (d : DateArgs) : option JsString :=
  match year d, monthIndex d, day d, hours d, minutes d, seconds d with
  | Some 2024, Some 5, Some 15, Some 10, Some 30, Some 0 =>
      Some ("2024-06-15T10:30:00.000Z" : JsString)
  | Some _, Some _, Some _, Some _, Some _, Some _ =>
      Some ("2024-01-01T00:00:00.000Z" : JsString)
  | _, _, _, _, _, _ => None
  end.

Definition info : DeviceInfo :=
  {| deviceName := Some ("/dev/bus/usb/001/002" : JsString);
     deviceId := JText "AbbottFreeStyleOptiumNeo-X1";
     serialNumber := JText "X1" |}.

Definition hiLine : JsString := "7,1,6,15,24,10,30,HI,0,0,0".
Definition loLine : JsString := "7,1,6,15,24,10,30,LO,0,0,0".
Definition hiLineField8 : JsString := "7,1,6,15,24,10,30,0,HI,0,1".
Definition loLineField8 : JsString := "7,1,6,15,24,10,30,0,LO,0,1".
Definition normalGlucoseLine : JsString := "7,1,6,15,24,10,30,0,100,0,1".
Definition controlGlucoseLine : JsString := "7,2,6,15,24,10,30,0,100,0,0".
Definition ketoneLine : JsString := "9,3,6,15,24,10,30,0,12,1".
Definition timeChangeLine : JsString := "6,4,6,15,24,10,30,1,6,15,24,10,25".
Definition otherLine : JsString := "10,5,6,15,24,10,30,0,4".


(** A scripted usbModule.  Its state counts the [writeData] calls made so
    far; [onWrite n data] is the outcome of call number [n] (from 0),
    [onRead] the outcome of every [readData], [onClose] of every
    [closeDevice]; [openDevice] and [claimInterface] resolve to true. *)
Definition scripted (onWrite : nat -> list Z -> Completion Z)
  (onRead : Completion (option (list Z))) (onClose : Completion bool)
  : UsbModule nat :=
  {| openDevice := fun _ n => (Normal true, n);
     closeDevice := fun _ n => (onClose, n);
     claimInterface := fun _ _ n => (Normal true, n);
     writeData := fun _ data n => (onWrite n data, S n);
     readData := fun _ _ n => (onRead, n) |}.

(** Every write whose first byte is [opCode] returns -1; the others
    return the number of bytes handed over. *)
Definition rejectOpcode (opCode : Z) (_ : nat) (data : list Z) : Completion Z :=
  if nth 0 data 0 =? opCode then Normal (-1)
  else Normal (Z.of_nat (List.length data)).

(** The transport of the handshake scenario: every write of 0x05 fails. *)
Definition rejecting05 : UsbModule nat :=
  scripted (rejectOpcode 0x05) (Normal (Some [])) (Normal true).

(** A transport that accepts every write and has nothing to read. *)
Definition accepting : UsbModule nat :=
  scripted (fun _ data => Normal (Z.of_nat (List.length data)))
           (Normal (Some [])) (Normal true).

(** The first two writes of the session after the wake-up fail. *)
Definition flaky : UsbModule nat :=
  scripted (fun n data => if (Nat.leb 1 n && Nat.leb n 2)%bool then Normal (-1)
                          else Normal (Z.of_nat (List.length data)))
           (Normal (Some [])) (Normal true).

(** A usbModule whose [closeDevice] rejects. *)
Definition closeRejects : UsbModule nat :=
  scripted (fun _ data => Normal (Z.of_nat (List.length data)))
           (Normal (Some [])) (Throw (ErrRejected "closeDevice")).

(** A device answering every read with the bytes of "12" CR LF "AB",
    a NUL and a byte 200. *)
Definition answering : UsbModule nat :=
  scripted (fun _ data => Normal (Z.of_nat (List.length data)))
           (Normal (Some [49; 50; 13; 10; 65; 66; 0; 200])) (Normal true).

(** Text responses.  The sum of the code units of "DATA" is
    68 + 65 + 84 + 65 = 282 = 0x11A. *)
Definition dataMismatch : JsString := TextRegex.okResponse "DATA" "00000000".
Definition dataMatch : JsString := TextRegex.okResponse "DATA" "0000011A".

(** A response cut right after "CMD OK", before its last CR LF. *)
Definition truncatedResponse : JsString :=
  "12345" ++ TextRegex.crlf ++ "CKSM:000000FF" ++ TextRegex.crlf ++ "CMD OK".

(** A usbModule whose device cannot be opened, and one whose interface
    cannot be claimed. *)
Definition unopenable : UsbModule nat :=
  {| openDevice := fun _ n => (Normal false, S n);
     closeDevice := fun _ n => (Normal true, S n);
     claimInterface := fun _ _ n => (Normal true, S n);
     writeData := fun _ data n => (Normal (Z.of_nat (List.length data)), S n);
     readData := fun _ _ n => (Normal (Some []), S n) |}.

Definition unclaimable : UsbModule nat :=
  {| openDevice := fun _ n => (Normal true, S n);
     closeDevice := fun _ n => (Normal true, S n);
     claimInterface := fun _ _ n => (Normal false, S n);
     writeData := fun _ data n => (Normal (Z.of_nat (List.length data)), S n);
     readData := fun _ _ n => (Normal (Some []), S n) |}.

(** A progress callback that throws. *)
Definition throwingCallback : Z -> Z -> Completion unit :=
  fun _ _ => Throw (ErrRejected "progressCallback").

(** A session whose protocol object has been initialized. *)
Definition initializedSession : Session nat :=
  Eff.set_protocol_isInitialized true
    (Eff.set_protocol_deviceName (deviceName info) (newSession 0%nat)).

(** A session after a successful [connect]. *)
Definition readySession : Session nat :=
  Eff.set_isConnected true (Eff.set_deviceInfo (Some info) initializedSession).

(** A device answering the three text commands of the driver with framed
    responses: serial number X1234, date 6,15,24 and time 10,30. *)
Definition textDevice (_ : option JsString) (command : JsString) (n : nat)
  : Completion JsString * nat :=
  (Normal
     (if Js.str_eqb command "$serlnum?"
      then TextRegex.okResponse "X1234" "00000122"
      else if Js.str_eqb command "$date?"
      then TextRegex.okResponse "6,15,24" "0000015A"
      else TextRegex.okResponse "10,30" "000000F0"),
   S n).

(** The host clock at 2024-06-15 10:31:00 UTC, in milliseconds, and the
    time value of the one date the samples use. *)
Definition currentTime : Z := 1718447460000.

Definition timeValue (d : DateArgs) : option Z :=
  match year d, monthIndex d, day d, hours d, minutes d, seconds d with
  | Some 2024, Some 5, Some 15, Some 10, Some 30, Some 0 => Some 1718447400000
  | Some _, Some _, Some _, Some _, Some _, Some _ => Some 1704067200000
  | _, _, _, _, _, _ => None
  end.

(** The session left by a successful [connect] over [closeRejects]. *)
Definition connectedOverCloseRejects : Session nat :=
  snd (fst (Driver.connect closeRejects info None (newSession 0%nat))).

End Sample.

(** ** Vocabulary of the statements about sessions *)

Module Trace.

Definition isClose (e : Event) : bool :=
  match e with EvClose _ => true | _ => false end.

(** How many times the transport handle was released ([closeDevice]). *)
Definition closes (tr : list Event) : nat := List.length (filter isClose tr).

(** The result, the session left and the events of a run. *)
Definition result {T A} (x : Completion A * Session T * list Event)
  : Completion A := fst (fst x).
Definition final {T A} (x : Completion A * Session T * list Event)
  : Session T := snd (fst x).
Definition events {T A} (x : Completion A * Session T * list Event)
  : list Event := snd x.

(** The frames handed to [writeData], in order, and their first bytes. *)
Definition writtenFrames (tr : list Event) : list (list Z) :=
  flat_map (fun e => match e with EvWrite _ d _ => [d] | _ => [] end) tr.

Definition writtenOpcodes (tr : list Event) : list Z :=
  map (fun d => nth 0 d 0) (writtenFrames tr).

(** A run of equal neighbours is kept once. *)
Fixpoint collapse (l : list Z) : list Z :=
  match l with
  | [] => []
  | x :: t =>
      match t with
      | [] => [x]
      | y :: _ => if x =? y then collapse t else x :: collapse t
      end
  end.

(** The calls made on the usbModule, in order, and how many of each. *)
Definition isCall (e : Event) : bool :=
  match e with
  | EvOpen _ | EvClaim _ _ | EvClose _ | EvWrite _ _ _ | EvRead _ _ => true
  | EvDelay _ | EvProgress _ _ => false
  end.

Definition calls (tr : list Event) : list Event := filter isCall tr.

Definition isOpen (e : Event) : bool :=
  match e with EvOpen _ => true | _ => false end.
Definition isClaim (e : Event) : bool :=
  match e with EvClaim _ _ => true | _ => false end.
Definition isWrite (e : Event) : bool :=
  match e with EvWrite _ _ _ => true | _ => false end.
Definition isRead (e : Event) : bool :=
  match e with EvRead _ _ => true | _ => false end.

Definition opens (tr : list Event) : nat := List.length (filter isOpen tr).
Definition claims (tr : list Event) : nat := List.length (filter isClaim tr).
Definition writes (tr : list Event) : nat := List.length (filter isWrite tr).
Definition reads (tr : list Event) : nat := List.length (filter isRead tr).

(** The time spent in [delay], in milliseconds. *)
Definition totalDelay (tr : list Event) : Z :=
  fold_right (fun e acc => match e with EvDelay ms => ms + acc | _ => acc end)
             0 tr.

(** The notification of one step: an event when a callback was given. *)
Definition progress {A} (progressCallback : option A) (step total : Z)
  : list Event :=
  match progressCallback with
  | Some _ => [EvProgress step total]
  | None => []
  end.

(** A progress callback that returns normally whatever it is told. *)
Definition alwaysReturns (cb : option (Z -> Z -> Completion unit)) : Prop :=
  match cb with
  | None => True
  | Some f => forall step total, f step total = Normal tt
  end.

(** Events that neither open, claim nor close the device. *)
Definition isSetup (e : Event) : bool := isOpen e || isClaim e || isClose e.

Definition noSetup (tr : list Event) : Prop :=
  Forall (fun e => isSetup e = false) tr.

(** Two sessions that differ in the transport only. *)
Definition sameFields {T} (s s' : Session T) : Prop :=
  deviceInfo s' = deviceInfo s /\ isConnected s' = isConnected s
  /\ protocol_deviceName s' = protocol_deviceName s
  /\ protocol_isInitialized s' = protocol_isInitialized s.

(** [m] keeps the property [P] of the session and only causes events
    satisfying [Q]. *)
Definition Inv {T A} (P : Session T -> Prop) (Q : list Event -> Prop)
  (m : Eff.M T A) : Prop :=
  forall s, P s -> P (final (m s)) /\ Q (events (m s)).

End Trace.

(** ** Vocabulary of the statements about the initialization handshake *)

Module Handshake.

(** What the transport answered to the write attempts made for one init
    command: the negative byte counts of the attempts that were retried,
    then the outcome of the last attempt. *)
Record Attempts : Type := {
  failedCounts : list Z;
  lastResult : Completion Z
}.

(** The last attempt returned a non-negative byte count. *)
Definition accepted (a : Attempts) : bool :=
  match lastResult a with
  | Normal n => negb (n <? 0)
  | Throw _ => false
  end.

(** At most 3 attempts; every retried attempt had returned a negative
    count; an attempt that returned a negative count is the last one only
    if it is the third. *)
Definition wellFormed (a : Attempts) : Prop :=
  Forall (fun n => n < 0) (failedCounts a)
  /\ (List.length (failedCounts a) <= 2)%nat
  /\ (forall n, lastResult a = Normal n -> n < 0 ->
        List.length (failedCounts a) = 2%nat).

(** The writes of one command: each failed attempt is followed by the
    retry delay, then comes the last attempt. *)
Definition attemptEvents (name : option JsString) (command : Z)
  (a : Attempts) : list Event :=
  flat_map (fun n => [EvWrite name (Protocol.createHIDFrame command None)
                        (Normal n);
                      EvDelay Protocol.RETRY_DELAY])
           (failedCounts a)
  ++ [EvWrite name (Protocol.createHIDFrame command None) (lastResult a)].

(** An accepted command other than 0x00 is followed by one read. *)
Definition commandEvents (name : option JsString) (command : Z)
  (a : Attempts) : list Event :=
  attemptEvents name command a
  ++ (if accepted a
      then if command =? 0x00 then [] else [EvRead name Protocol.TIMEOUT]
      else []).

(** The commands are taken in order, each accepted one followed by the
    delay between commands; the first command that is not accepted ends
    the sequence. *)
Fixpoint handshakeEvents (name : option JsString) (commands : list Z)
  (attempts : list Attempts) : list Event :=
  match commands, attempts with
  | c :: cs, a :: rest =>
      commandEvents name c a
      ++ (if accepted a
          then EvDelay Protocol.RETRY_DELAY :: handshakeEvents name cs rest
          else [])
  | _, _ => []
  end.

(** [attempts] has one entry per command tried: all of them when every
    command is accepted, else up to the first one that is not. *)
Fixpoint covers (commands : list Z) (attempts : list Attempts) : Prop :=
  match commands, attempts with
  | [], [] => True
  | _ :: cs, a :: rest => if accepted a then covers cs rest else rest = []
  | _, _ => False
  end.

(** The completion of the loop: the error of the first command (numbered
    from [i + 1]) that is not accepted. *)
Fixpoint outcome (i : nat) (commands : list Z) (attempts : list Attempts)
  : Completion unit :=
  match commands, attempts with
  | c :: cs, a :: rest =>
      if accepted a then outcome (S i) cs rest
      else Throw (ErrInitCommand (i + 1) c)
  | _, _ => Normal tt
  end.

(** The wake-up: one write of the 0x00 frame; when it does not reject,
    500 ms of delay and one read. *)
Definition wakeUpEvents (name : option JsString) (written : Completion Z)
  : list Event :=
  EvWrite name (Protocol.createHIDFrame 0x00 None) written
  :: match written with
     | Normal _ => [EvDelay 500; EvRead name 1000]
     | Throw _ => []
     end.

(** No two neighbours of the list are equal. *)
Fixpoint distinctNeighbours (l : list Z) : Prop :=
  match l with
  | [] => True
  | x :: t =>
      match t with
      | [] => True
      | y :: _ => x <> y /\ distinctNeighbours t
      end
  end.

(** A progress callback that returns normally for the steps of [connect]. *)
Definition callbackReturns (cb : option (Z -> Z -> Completion unit)) : Prop :=
  match cb with
  | None => True
  | Some f => forall step, f step 4 = Normal tt
  end.

End Handshake.

(** ** Vocabulary of the statements about the text responses *)

Module TextSpec.




(** A framed response with status Fail!. *)
Definition failResponse (d c : JsString) : JsString :=
  d ++ TextRegex.crlf ++ "CKSM:" ++ c ++ TextRegex.crlf ++ "CMD Fail!"
    ++ TextRegex.crlf.

(** [!response || response.trim() === ''] *)
Definition blank (response : JsString) : bool :=
  Js.str_eqb response [] || Js.str_eqb (Js.trim response) [].

End TextSpec.

(** ** Vocabulary of the statements about the frames *)

Module FrameSpec.




End FrameSpec.

(* ================================================================== *)
(** * Part II: theorems                                                 *)
(* ================================================================== *)

Example parseInt_7 : Js.parseInt (Some ("7"%string : JsString)) None = Some 7.
Proof. reflexivity. Qed.

Example parseInt_hex : Js.parseInt (Some (" -0x1f,"%string : JsString)) None = Some (-31).
Proof. reflexivity. Qed.

Example parseInt_HI : Js.parseInt (Some ("HI"%string : JsString)) None = None.
Proof. reflexivity. Qed.

Example split_commas :
  Js.split (","%string : JsString) ("a,,b,"%string : JsString)
  = [("a"%string : JsString); []; ("b"%string : JsString); []].
Proof. reflexivity. Qed.

Example split_crlf :
  Js.split (String "013" (String "010" EmptyString) : JsString)
           (String "a" (String "013" (String "010" (String "013" (String "b" EmptyString)))) : JsString)
  = [("a"%string : JsString); (String "013" (String "b" EmptyString) : JsString)].
Proof. reflexivity. Qed.


(** ** The record parser *)

Section RecordParserFacts.

Variable toISOString : DateArgs -> option JsString.
Variable this_deviceInfo : option DeviceInfo.

Local Abbreviation parseRecord := (Driver.parseRecord toISOString this_deviceInfo).
Local Abbreviation processRecords := (Driver.processRecords toISOString this_deviceInfo).
Local Abbreviation processGlucoseRecord :=
  (Driver.processGlucoseRecord toISOString this_deviceInfo).

Lemma try_catch_null {A} (m : Completion (option A)) :
  exists r, Pure.try_catch m (fun _ => Normal None) = Normal r.
Proof. destruct m; simpl; eauto. Qed.

Lemma processGlucoseRecord_returns fields b :
  exists r, processGlucoseRecord fields b = Normal r.
Proof. apply try_catch_null. Qed.

Lemma processKetoneRecord_returns fields b :
  exists r, Driver.processKetoneRecord toISOString this_deviceInfo fields b
            = Normal r.
Proof. apply try_catch_null. Qed.

Lemma processTimeChangeRecord_returns fields b :
  exists r, Driver.processTimeChangeRecord toISOString this_deviceInfo fields b
            = Normal r.
Proof. apply try_catch_null. Qed.

Lemma length_lt8_iff (fields : list JsString) :
  (Z.of_nat (List.length fields) <? 8) = (List.length fields <? 8)%nat.
Proof.
  destruct (Nat.ltb_spec (List.length fields) 8);
    [apply Z.ltb_lt | apply Z.ltb_ge]; lia.
Qed.

(** [parseRecord] never throws, and what it returns is told by the field
    count and the type code alone. *)
Lemma parseRecord_emitted record :
  parseRecord record = Normal (RecordSpec.emitted record).
Proof.
  unfold Driver.parseRecord, Driver.parseRecord_try, RecordSpec.emitted,
    RecordSpec.typedCode.
  rewrite length_lt8_iff.
  destruct (List.length (Js.split "," record) <? 8)%nat; [reflexivity|].
  set (fields := Js.split "," record).
  set (b := Driver.commonFields record fields).
  destruct (Js.num_eqb (type b) 7).
  { destruct (processGlucoseRecord_returns fields b) as [r ->]. reflexivity. }
  destruct (Js.num_eqb (type b) 9).
  { destruct (processKetoneRecord_returns fields b) as [r ->]. reflexivity. }
  destruct (Js.num_eqb (type b) 6).
  { destruct (processTimeChangeRecord_returns fields b) as [r ->]. reflexivity. }
  reflexivity.
Qed.

Lemma processRecords_loop_emitted records acc :
  Driver.processRecords_loop toISOString this_deviceInfo records acc
  = Normal (acc ++ RecordSpec.emittedList records).
Proof.
  revert acc; induction records as [|record rest IH]; intros acc; simpl.
  - now rewrite app_nil_r.
  - rewrite parseRecord_emitted. simpl.
    destruct (RecordSpec.emitted record) as [r|]; simpl; rewrite IH.
    + now rewrite <- app_assoc.
    + reflexivity.
Qed.

Lemma processRecords_emitted records :
  processRecords records = Normal (RecordSpec.emittedList records).
Proof.
  unfold Driver.processRecords. now rewrite processRecords_loop_emitted.
Qed.

Lemma emitted_isUntyped record r :
  RecordSpec.emitted record = Some r -> RecordSpec.isUntyped r.
Proof.
  unfold RecordSpec.emitted.
  destruct (List.length (Js.split "," record) <? 8)%nat; [discriminate|].
  destruct (RecordSpec.typedCode _) eqn:E; [discriminate|].
  intros [= <-]. eexists; split; [reflexivity | exact E].
Qed.

Lemma emittedList_untyped records :
  Forall RecordSpec.isUntyped (RecordSpec.emittedList records).
Proof.
  unfold RecordSpec.emittedList.
  induction records as [|record rest IH]; simpl; [constructor|].
  destruct (RecordSpec.emitted record) eqn:E; simpl; auto.
  constructor; eauto using emitted_isUntyped.
Qed.

Lemma typedCode_cases t :
  t = Some 7 \/ t = Some 9 \/ t = Some 6 -> RecordSpec.typedCode t = true.
Proof. intros [-> | [-> | ->]]; reflexivity. Qed.

(** C1.  A line with at least 8 comma-separated fields whose field 0
    parses to 7, 9 or 6 makes [parseRecord] return null (the assignment
    to the const binding throws and the error is caught); a line with at
    least 8 fields and any other type code is returned with the common
    fields only; so the output of [processRecords] is exactly the list of
    those untyped records and holds no glucose, ketone or time-change
    record. *)
Theorem typed_lines_never_emitted :
  (forall record,
      (8 <= List.length (Js.split "," record))%nat ->
      (let t := Js.parseInt (nth_error (Js.split "," record) 0) None in
       t = Some 7 \/ t = Some 9 \/ t = Some 6) ->
      parseRecord record = Normal None)
  /\ (forall record,
      (8 <= List.length (Js.split "," record))%nat ->
      RecordSpec.typedCode
        (Js.parseInt (nth_error (Js.split "," record) 0) None) = false ->
      parseRecord record
      = Normal (Some (Untyped
                  (Driver.commonFields record (Js.split "," record)))))
  /\ (forall records,
      processRecords records = Normal (RecordSpec.emittedList records)
      /\ Forall RecordSpec.isUntyped (RecordSpec.emittedList records)).
Proof.
  split; [|split].
  - intros record Hlen Ht. rewrite parseRecord_emitted.
    unfold RecordSpec.emitted.
    destruct (Nat.ltb_spec (List.length (Js.split "," record)) 8); [lia|].
    cbn [type Driver.commonFields].
    now rewrite (typedCode_cases _ Ht).
  - intros record Hlen Ht. rewrite parseRecord_emitted.
    unfold RecordSpec.emitted.
    destruct (Nat.ltb_spec (List.length (Js.split "," record)) 8); [lia|].
    cbn [type Driver.commonFields]. now rewrite Ht.
  - intros records. split.
    + apply processRecords_emitted.
    + apply emittedList_untyped.
Qed.

End RecordParserFacts.

Lemma typed_lines_never_emitted_witness :
  Driver.parseRecord Sample.toISOString (Some Sample.info) Sample.normalGlucoseLine
  = Normal None
  /\ Driver.parseRecord Sample.toISOString (Some Sample.info) Sample.ketoneLine
     = Normal None
  /\ Driver.parseRecord Sample.toISOString (Some Sample.info) Sample.timeChangeLine
     = Normal None
  /\ Driver.parseRecord Sample.toISOString (Some Sample.info) Sample.otherLine
     = Normal (Some (Untyped
         (Driver.commonFields Sample.otherLine (Js.split "," Sample.otherLine)))).
Proof.
  pose proof (typed_lines_never_emitted Sample.toISOString (Some Sample.info))
    as [Hnull [Hother _]].
  split; [|split; [|split]].
  - apply Hnull; [vm_compute; lia | vm_compute; auto].
  - apply Hnull; [vm_compute; lia | vm_compute; auto].
  - apply Hnull; [vm_compute; lia | vm_compute; auto].
  - apply Hother; [vm_compute; lia | vm_compute; reflexivity].
Defined.

Lemma num_eqb_0_false (x : option Z) :
  x <> Some 0 -> Js.num_eqb x 0 = false.
Proof.
  destruct x as [v|]; simpl; [|reflexivity].
  intros H. apply Z.eqb_neq. congruence.
Qed.

(** C3.  On a batch of one normal glucose line and one control-solution
    glucose line (field 10 is 0) [processRecords] returns no record at all,
    not one: [processGlucoseRecord] keeps the first line and drops the
    second, and [parseRecord] then loses the kept record in the assignment
    to its const binding. *)
Theorem control_batch_returns_nothing :
  (forall toISOString this_deviceInfo,
      Driver.processRecords toISOString this_deviceInfo
        [Sample.normalGlucoseLine; Sample.controlGlucoseLine] = Normal [])
  /\ Driver.processGlucoseRecord Sample.toISOString (Some Sample.info)
       (Js.split "," Sample.normalGlucoseLine)
       (Driver.commonFields Sample.normalGlucoseLine
          (Js.split "," Sample.normalGlucoseLine))
     = Normal (Some (Glucose
         (Driver.commonFields Sample.normalGlucoseLine
            (Js.split "," Sample.normalGlucoseLine))
         100 None "2024-06-15T10:30:00.000"
         (deviceId Sample.info) (serialNumber Sample.info)))
  /\ Driver.processGlucoseRecord Sample.toISOString (Some Sample.info)
       (Js.split "," Sample.controlGlucoseLine)
       (Driver.commonFields Sample.controlGlucoseLine
          (Js.split "," Sample.controlGlucoseLine))
     = Normal None.
Proof.
  split; [|split].
  - intros toISOString this_deviceInfo.
    rewrite processRecords_emitted. reflexivity.
  - vm_compute. reflexivity.
  - vm_compute. reflexivity.
Qed.

(** C4, as stated, fails: parsing "7,1,6,15,24,10,30,HI,0,0,0" yields no
    glucose record with value 501, and the line with "LO" yields none with
    value 19; [parseRecord] returns null on both. *)
Lemma hi_lo_lines_yield_no_glucose_record :
  Driver.parseRecord Sample.toISOString (Some Sample.info) Sample.hiLine
  = Normal None
  /\ Driver.parseRecord Sample.toISOString (Some Sample.info) Sample.loLine
     = Normal None
  /\ ~ (exists b ann t d s,
         Driver.parseRecord Sample.toISOString (Some Sample.info) Sample.hiLine
         = Normal (Some (Glucose b 501 ann t d s)))
  /\ ~ (exists b ann t d s,
         Driver.parseRecord Sample.toISOString (Some Sample.info) Sample.loLine
         = Normal (Some (Glucose b 19 ann t d s))).
Proof.
  assert (Hhi : Driver.parseRecord Sample.toISOString (Some Sample.info)
                  Sample.hiLine = Normal None) by (vm_compute; reflexivity).
  assert (Hlo : Driver.parseRecord Sample.toISOString (Some Sample.info)
                  Sample.loLine = Normal None) by (vm_compute; reflexivity).
  repeat split; auto.
  - intros (b & ann & t & d & s & H). rewrite Hhi in H. discriminate.
  - intros (b & ann & t & d & s & H). rewrite Hlo in H. discriminate.
Qed.

(** C4, amended.  [processGlucoseRecord] reads the value in field 8 and the
    control flag in field 10.  With a field 10 that does not parse to 0, a
    valid timestamp and [deviceInfo] set, "HI" in field 8 gives a glucose
    record of value 501 with the annotation high / threshold 500, and "LO"
    gives value 19 with the annotation low / threshold 20.  The fields of
    "7,1,6,15,24,10,30,HI,0,0,0" (and of the same line with "LO") carry "0"
    in fields 8 and 10, so the method excludes them as a control test. *)
Theorem glucose_HI_LO_from_field8 :
  (forall toISOString info fields b iso,
      Js.parseInt (nth_error fields 10) None <> Some 0 ->
      toISOString (timestamp b) = Some iso ->
      (nth_error fields 8 = Some ("HI" : JsString) ->
       Driver.processGlucoseRecord toISOString (Some info) fields b
       = Normal (Some (Glucose b 501 (Some [RecordSpec.highAnnotation])
                         (Js.removeFirst "Z" iso)
                         (deviceId info) (serialNumber info))))
      /\ (nth_error fields 8 = Some ("LO" : JsString) ->
          Driver.processGlucoseRecord toISOString (Some info) fields b
          = Normal (Some (Glucose b 19 (Some [RecordSpec.lowAnnotation])
                            (Js.removeFirst "Z" iso)
                            (deviceId info) (serialNumber info)))))
  /\ (forall toISOString this_deviceInfo b,
        Driver.processGlucoseRecord toISOString this_deviceInfo
          (Js.split "," Sample.hiLine) b = Normal None
        /\ Driver.processGlucoseRecord toISOString this_deviceInfo
             (Js.split "," Sample.loLine) b = Normal None).
Proof.
  split.
  - intros toISOString info fields b iso Hctl Hiso.
    unfold Driver.processGlucoseRecord.
    rewrite (num_eqb_0_false _ Hctl).
    split; intros ->; cbn -[Js.removeFirst];
      unfold Driver.formatDeviceTime, Driver.call_toISOString;
      rewrite Hiso; reflexivity.
  - intros toISOString this_deviceInfo b. split; reflexivity.
Qed.

Lemma glucose_HI_LO_from_field8_witness :
  Driver.processGlucoseRecord Sample.toISOString (Some Sample.info)
    (Js.split "," Sample.hiLineField8)
    (Driver.commonFields Sample.hiLineField8 (Js.split "," Sample.hiLineField8))
  = Normal (Some (Glucose
      (Driver.commonFields Sample.hiLineField8 (Js.split "," Sample.hiLineField8))
      501 (Some [RecordSpec.highAnnotation])
      (Js.removeFirst "Z" ("2024-06-15T10:30:00.000Z" : JsString))
      (deviceId Sample.info) (serialNumber Sample.info)))
  /\ Driver.processGlucoseRecord Sample.toISOString (Some Sample.info)
       (Js.split "," Sample.loLineField8)
       (Driver.commonFields Sample.loLineField8 (Js.split "," Sample.loLineField8))
     = Normal (Some (Glucose
         (Driver.commonFields Sample.loLineField8 (Js.split "," Sample.loLineField8))
         19 (Some [RecordSpec.lowAnnotation])
         (Js.removeFirst "Z" ("2024-06-15T10:30:00.000Z" : JsString))
         (deviceId Sample.info) (serialNumber Sample.info))).
Proof.
  split.
  - apply (proj1 glucose_HI_LO_from_field8 Sample.toISOString Sample.info
             (Js.split "," Sample.hiLineField8)
             (Driver.commonFields Sample.hiLineField8
                (Js.split "," Sample.hiLineField8))
             ("2024-06-15T10:30:00.000Z" : JsString));
      [vm_compute; discriminate | vm_compute; reflexivity | vm_compute; reflexivity].
  - apply (proj1 glucose_HI_LO_from_field8 Sample.toISOString Sample.info
             (Js.split "," Sample.loLineField8)
             (Driver.commonFields Sample.loLineField8
                (Js.split "," Sample.loLineField8))
             ("2024-06-15T10:30:00.000Z" : JsString));
      [vm_compute; discriminate | vm_compute; reflexivity | vm_compute; reflexivity].
Defined.

(** ** The frame codec *)

Lemma set_index_app (l1 l2 : list Z) (x v : Z) :
  Protocol.set_index (l1 ++ x :: l2) (List.length l1) v = l1 ++ v :: l2.
Proof. induction l1 as [|a l1 IH]; simpl; [reflexivity | now rewrite IH]. Qed.

Lemma firstn_snoc_nth (i : nat) (data : list Z) :
  (i < List.length data)%nat ->
  firstn (S i) data = firstn i data ++ [nth i data 0].
Proof.
  revert i; induction data as [|a data IH]; intros i Hi; simpl in Hi; [lia|].
  destruct i as [|i]; [reflexivity|].
  rewrite !firstn_cons. cbn [nth app]. f_equal. apply IH. lia.
Qed.

(** The copy loop fills the payload slots from left to right. *)
Lemma copy_loop_fills (count i : nat) (data : list Z) (a b : Z) :
  (i + count <= List.length data)%nat -> (i + count <= 62)%nat ->
  Protocol.copy_loop count i data ([a; b] ++ firstn i data ++ repeat 0 (62 - i))
  = [a; b] ++ firstn (i + count) data ++ repeat 0 (62 - (i + count)).
Proof.
  revert i; induction count as [|count IH]; intros i Hd H62.
  - now rewrite Nat.add_0_r.
  - cbn [Protocol.copy_loop].
    replace (62 - i)%nat with (S (62 - S i)) by lia.
    cbn [repeat].
    replace ([a; b] ++ firstn i data ++ 0 :: repeat 0 (62 - S i))
      with (([a; b] ++ firstn i data) ++ 0 :: repeat 0 (62 - S i))
      by now rewrite <- app_assoc.
    replace (2 + i)%nat with (List.length ([a; b] ++ firstn i data))
      by (rewrite length_app, length_firstn; simpl; lia).
    rewrite set_index_app.
    replace (([a; b] ++ firstn i data) ++ nth i data 0 :: repeat 0 (62 - S i))
      with ([a; b] ++ firstn (S i) data ++ repeat 0 (62 - S i)).
    + rewrite IH by lia. now replace (S i + count)%nat with (i + S count)%nat by lia.
    + rewrite firstn_snoc_nth by lia. now rewrite <- !app_assoc.
Qed.

Lemma createHIDFrame_empty (command : Z) (data : option (list Z)) :
  data = None \/ data = Some [] ->
  Protocol.createHIDFrame command data = command :: repeat 0 63.
Proof. intros [-> | ->]; reflexivity. Qed.

Lemma createHIDFrame_payload (command : Z) (d : list Z) :
  d <> [] ->
  Protocol.createHIDFrame command (Some d)
  = command :: Z.of_nat (List.length d)
      :: firstn 62 d ++ repeat 0 (62 - Nat.min (List.length d) 62).
Proof.
  intros Hd. unfold Protocol.createHIDFrame.
  destruct d as [|x d]; [congruence|].
  cbn [List.length Nat.ltb Nat.leb].
  set (p := x :: d).
  change (Protocol.set_index
            (Protocol.set_index (repeat 0 Protocol.FRAME_SIZE) 0 command) 1
            (Z.of_nat (S (List.length d))))
    with ([command; Z.of_nat (List.length p)] ++ firstn 0 p ++ repeat 0 (62 - 0)).
  change (Protocol.FRAME_SIZE - 2)%nat with 62%nat.
  change (S (List.length d)) with (List.length p).
  rewrite copy_loop_fills by lia.
  cbn [Nat.add app].
  destruct (Nat.le_ge_cases (List.length p) 62) as [H|H].
  - rewrite Nat.min_l by lia. rewrite !firstn_all2 by lia. reflexivity.
  - rewrite Nat.min_r by lia. reflexivity.
Qed.

Lemma createTextCommandFrame_as_HIDFrame (command : JsString) :
  Protocol.createTextCommandFrame command
  = Protocol.createHIDFrame 0x21 (Some (map Js.code command)).
Proof.
  unfold Protocol.createTextCommandFrame, Protocol.createHIDFrame.
  destruct (map Js.code command) as [|x d] eqn:E; reflexivity.
Qed.

(** C8, as stated, fails in its second half: with a payload of 63 bytes
    [createHIDFrame] does not fail, it returns a frame of 64 bytes that
    carries the first 62 payload bytes and the length 63 in byte 1. *)
Lemma createHIDFrame_long_payload_returns :
  exists frame,
    Protocol.createHIDFrame 0x21 (Some (repeat 7 63)) = frame
    /\ List.length frame = 64%nat
    /\ frame = 0x21 :: 63 :: repeat 7 62.
Proof. eexists; repeat split; reflexivity. Qed.

(** C8, amended.  For every opcode and payload [createHIDFrame] returns a
    frame of exactly 64 entries whose byte 0 is the opcode.  Without a
    payload (absent or empty) every other byte is zero.  With a payload
    of at most 62 bytes, byte 1 is the payload length, the payload follows
    from offset 2 and the rest is zero.  With a longer payload the call
    still returns a frame: byte 1 is the payload length and the first 62
    payload bytes fill the frame.  [createTextCommandFrame] is the same
    frame with opcode 0x21 and the code units of the command. *)
Theorem createHIDFrame_layout :
  forall (opCode : Z) (payload : option (list Z)),
    let frame := Protocol.createHIDFrame opCode payload in
    List.length frame = 64%nat
    /\ nth 0 frame 0 = opCode
    /\ (payload = None \/ payload = Some [] ->
        frame = opCode :: 0 :: repeat 0 62)
    /\ (forall d, payload = Some d -> (List.length d <= 62)%nat ->
        frame = opCode :: Z.of_nat (List.length d)
                  :: d ++ repeat 0 (62 - List.length d))
    /\ (forall d, payload = Some d -> (62 < List.length d)%nat ->
        frame = opCode :: Z.of_nat (List.length d) :: firstn 62 d)
    /\ (forall command : JsString,
        Protocol.createTextCommandFrame command
        = Protocol.createHIDFrame 0x21 (Some (map Js.code command))).
Proof.
  intros opCode payload frame.
  assert (Hempty : payload = None \/ payload = Some [] ->
                   frame = opCode :: 0 :: repeat 0 62).
  { intros H. unfold frame. now rewrite createHIDFrame_empty. }
  assert (Hshort : forall d, payload = Some d -> (List.length d <= 62)%nat ->
            frame = opCode :: Z.of_nat (List.length d)
                      :: d ++ repeat 0 (62 - List.length d)).
  { intros d -> Hlen. unfold frame. destruct d as [|x d]; [reflexivity|].
    rewrite createHIDFrame_payload by discriminate.
    rewrite Nat.min_l by lia. now rewrite firstn_all2 by lia. }
  assert (Hlong : forall d, payload = Some d -> (62 < List.length d)%nat ->
            frame = opCode :: Z.of_nat (List.length d) :: firstn 62 d).
  { intros d -> Hlen. unfold frame. destruct d as [|x d]; [simpl in Hlen; lia|].
    rewrite createHIDFrame_payload by discriminate.
    rewrite Nat.min_r by lia. rewrite Nat.sub_diag. cbn [repeat].
    now rewrite app_nil_r. }
  assert (Hcases : frame = opCode :: 0 :: repeat 0 62
                   \/ exists d, payload = Some d /\ d <> []).
  { destruct payload as [[|x d]|]; auto. right; eexists; split; eauto; discriminate. }
  repeat split; auto using createTextCommandFrame_as_HIDFrame.
  - destruct Hcases as [-> | (d & -> & Hd)]; [reflexivity|].
    destruct (Nat.le_gt_cases (List.length d) 62) as [H|H].
    + rewrite (Hshort d eq_refl H). cbn [List.length].
      rewrite length_app, repeat_length. lia.
    + rewrite (Hlong d eq_refl H). cbn [List.length].
      rewrite length_firstn. lia.
  - destruct Hcases as [-> | (d & -> & Hd)]; [reflexivity|].
    unfold frame. now rewrite createHIDFrame_payload.
Qed.

Lemma createHIDFrame_layout_witness :
  Protocol.createHIDFrame 0x04 (Some [0xAA; 0xBB])
  = 0x04 :: 2 :: [0xAA; 0xBB] ++ repeat 0 60
  /\ Protocol.createHIDFrame 0x21 (Some (repeat 7 70))
     = 0x21 :: 70 :: repeat 7 62
  /\ Protocol.createHIDFrame 0x00 None = 0 :: 0 :: repeat 0 62.
Proof.
  split; [|split].
  - pose proof (createHIDFrame_layout 0x04 (Some [0xAA; 0xBB])) as H.
    cbv zeta in H. destruct H as (_ & _ & _ & Hshort & _).
    apply (Hshort [0xAA; 0xBB] eq_refl). simpl; lia.
  - pose proof (createHIDFrame_layout 0x21 (Some (repeat 7 70))) as H.
    cbv zeta in H. destruct H as (_ & _ & _ & _ & Hlong & _).
    apply (Hlong (repeat 7 70) eq_refl). simpl; lia.
  - pose proof (createHIDFrame_layout 0x00 None) as H.
    cbv zeta in H. destruct H as (_ & _ & Hempty & _).
    apply Hempty. now left.
Defined.

(** ** The text-response format *)

Lemma ascii_eqb_true (a b : ascii) : Js.ascii_eqb a b = true <-> a = b.
Proof. apply Ascii.eqb_eq. Qed.

Lemma str_eqb_nil (s : JsString) : Js.str_eqb s [] = true <-> s = [].
Proof. destruct s; simpl; split; congruence. Qed.

Lemma stripPrefix_app (p x : JsString) : Js.stripPrefix p (p ++ x) = Some x.
Proof.
  induction p as [|c p IH]; simpl; [reflexivity|].
  unfold Js.ascii_eqb. now rewrite Ascii.eqb_refl.
Qed.

Lemma stripPrefix_some (p s r : JsString) :
  Js.stripPrefix p s = Some r -> s = p ++ r.
Proof.
  revert s; induction p as [|c p IH]; intros s; simpl.
  - now intros [= ->].
  - destruct s as [|y s]; [discriminate|].
    destruct (Js.ascii_eqb c y) eqn:E; [|discriminate].
    apply ascii_eqb_true in E. subst y. intros H. now rewrite (IH _ H).
Qed.

Lemma spanNotCR_app (d r : JsString) :
  Forall (fun x => x <> TextRegex.CR) d ->
  TextRegex.spanNotCR (d ++ TextRegex.CR :: r) = (d, TextRegex.CR :: r).
Proof.
  induction 1 as [|x d Hx _ IH]; simpl.
  - reflexivity.
  - destruct (Js.ascii_eqb x TextRegex.CR) eqn:E.
    + apply ascii_eqb_true in E. contradiction.
    + simpl in IH. now rewrite IH.
Qed.

Lemma spanNotCR_sound (s d r : JsString) :
  TextRegex.spanNotCR s = (d, r) ->
  s = d ++ r /\ Forall (fun x => x <> TextRegex.CR) d.
Proof.
  revert d r; induction s as [|c s IH]; intros d r; simpl.
  - intros [= <- <-]. split; [reflexivity | constructor].
  - destruct (Js.ascii_eqb c TextRegex.CR) eqn:E.
    + intros [= <- <-]. split; [reflexivity | constructor].
    + destruct (TextRegex.spanNotCR s) as [run rest].
      intros [= <- <-]. destruct (IH run rest eq_refl) as [-> Hrun].
      split; [reflexivity|]. constructor; [|exact Hrun].
      intros ->. unfold Js.ascii_eqb in E. now rewrite Ascii.eqb_refl in E.
Qed.

Lemma spanNotCR_no_CR (s : JsString) :
  ~ In TextRegex.CR s -> TextRegex.spanNotCR s = (s, []).
Proof.
  induction s as [|c s IH]; simpl; intros H; [reflexivity|].
  destruct (Js.ascii_eqb c TextRegex.CR) eqn:E.
  - apply ascii_eqb_true in E. subst c. tauto.
  - rewrite IH by tauto. reflexivity.
Qed.

Lemma takeHex8_app (c r : JsString) :
  List.length c = 8%nat -> Forall (fun x => TextRegex.isHexUpper x = true) c ->
  TextRegex.takeHex8 (c ++ r) = Some (c, r).
Proof.
  intros Hlen Hhex. unfold TextRegex.takeHex8.
  rewrite firstn_app, skipn_app, Hlen.
  rewrite firstn_all2, skipn_all2 by lia.
  change (8 - 8)%nat with 0%nat. cbn [firstn skipn app].
  rewrite app_nil_r, Hlen, Nat.eqb_refl.
  replace (forallb TextRegex.isHexUpper c) with true; [reflexivity|].
  symmetry. apply forallb_forall. now apply Forall_forall.
Qed.

Lemma takeHex8_sound (s c r : JsString) :
  TextRegex.takeHex8 s = Some (c, r) ->
  s = c ++ r /\ List.length c = 8%nat
  /\ Forall (fun x => TextRegex.isHexUpper x = true) c.
Proof.
  unfold TextRegex.takeHex8. cbv zeta.
  destruct (_ && _) eqn:E; [|discriminate].
  apply andb_true_iff in E as [E1 E2].
  intros H.
  assert (Hc : c = firstn 8 s) by congruence.
  assert (Hr : r = skipn 8 s) by congruence.
  subst c r. clear H.
  split; [exact (eq_sym (firstn_skipn 8 s))|].
  split; [now apply Nat.eqb_eq|].
  apply Forall_forall. now apply forallb_forall.
Qed.

Lemma regex_match_complete (d c st rest : JsString) :
  Forall (fun x => x <> TextRegex.CR) d ->
  List.length c = 8%nat -> Forall (fun x => TextRegex.isHexUpper x = true) c ->
  st = ("OK" : JsString) \/ st = ("Fail!" : JsString) ->
  TextRegex.regex_match
    (d ++ TextRegex.crlf ++ "CKSM:" ++ c ++ TextRegex.crlf ++ "CMD " ++ st
       ++ TextRegex.crlf ++ rest)
  = Some {| TextRegex.data := d; TextRegex.checksum := c;
            TextRegex.status := st |}.
Proof.
  intros Hd Hlen Hhex Hst. unfold TextRegex.regex_match.
  change (TextRegex.crlf ++ "CKSM:" ++ c ++ TextRegex.crlf ++ "CMD " ++ st
            ++ TextRegex.crlf ++ rest)
    with (TextRegex.CR :: (TextRegex.LF :: "CKSM:" ++ c ++ TextRegex.crlf
            ++ "CMD " ++ st ++ TextRegex.crlf ++ rest)).
  rewrite (spanNotCR_app d _ Hd).
  change (TextRegex.CR :: (TextRegex.LF :: "CKSM:" ++ c ++ TextRegex.crlf
            ++ "CMD " ++ st ++ TextRegex.crlf ++ rest))
    with ((TextRegex.crlf ++ "CKSM:") ++ (c ++ TextRegex.crlf
            ++ "CMD " ++ st ++ TextRegex.crlf ++ rest)).
  rewrite stripPrefix_app, (takeHex8_app c _ Hlen Hhex).
  change (TextRegex.crlf ++ "CMD " ++ st ++ TextRegex.crlf ++ rest)
    with ((TextRegex.crlf ++ "CMD ") ++ (st ++ TextRegex.crlf ++ rest)).
  rewrite stripPrefix_app.
  destruct Hst as [-> | ->]; reflexivity.
Qed.

Lemma regex_match_sound (s : JsString) (m : TextRegex.Groups) :
  TextRegex.regex_match s = Some m ->
  exists rest,
    s = TextRegex.data m ++ TextRegex.crlf ++ "CKSM:" ++ TextRegex.checksum m
          ++ TextRegex.crlf ++ "CMD " ++ TextRegex.status m
          ++ TextRegex.crlf ++ rest
    /\ Forall (fun x => x <> TextRegex.CR) (TextRegex.data m)
    /\ List.length (TextRegex.checksum m) = 8%nat
    /\ Forall (fun x => TextRegex.isHexUpper x = true) (TextRegex.checksum m)
    /\ (TextRegex.status m = ("OK" : JsString)
        \/ TextRegex.status m = ("Fail!" : JsString)).
Proof.
  unfold TextRegex.regex_match.
  destruct (TextRegex.spanNotCR s) as [d r1] eqn:E1.
  apply spanNotCR_sound in E1 as [-> Hd].
  destruct (Js.stripPrefix _ r1) as [r2|] eqn:E2; [|discriminate].
  apply stripPrefix_some in E2. subst r1.
  destruct (TextRegex.takeHex8 r2) as [[c r3]|] eqn:E3; [|discriminate].
  apply takeHex8_sound in E3 as (-> & Hlen & Hhex).
  destruct (Js.stripPrefix _ r3) as [r4|] eqn:E4; [|discriminate].
  apply stripPrefix_some in E4. subst r3.
  destruct (Js.stripPrefix ("OK" ++ TextRegex.crlf) r4) as [r5|] eqn:E5.
  - apply stripPrefix_some in E5. subst r4. intros [= <-]. cbn [TextRegex.data
      TextRegex.checksum TextRegex.status].
    exists r5. rewrite <- !app_assoc. repeat split; auto.
  - destruct (Js.stripPrefix ("Fail!" ++ TextRegex.crlf) r4) as [r6|] eqn:E6;
      [|discriminate].
    apply stripPrefix_some in E6. subst r4. intros [= <-].
    cbn [TextRegex.data TextRegex.checksum TextRegex.status].
    exists r6. rewrite <- !app_assoc. repeat split; auto.
Qed.

(** The matcher decides the shape of the format. *)
Lemma regex_match_None_iff (s : JsString) :
  TextRegex.regex_match s = None <-> ~ TextRegex.wellFormed s.
Proof.
  split.
  - intros Hnone (d & c & st & rest & -> & Hd & Hlen & Hhex & Hst).
    rewrite regex_match_complete in Hnone by assumption. discriminate.
  - intros Hnot. destruct (TextRegex.regex_match s) as [m|] eqn:E; [|reflexivity].
    exfalso. apply Hnot. apply regex_match_sound in E as (rest & E & H).
    exists (TextRegex.data m), (TextRegex.checksum m), (TextRegex.status m), rest.
    tauto.
Qed.

Lemma In_trimStart (c : ascii) (s : JsString) :
  In c s -> Js.isWhiteSpace c = false -> In c (Js.trimStart s).
Proof.
  induction s as [|x s IH]; simpl; [tauto|].
  intros [-> | H] Hc.
  - rewrite Hc. now left.
  - destruct (Js.isWhiteSpace x); [auto | now right].
Qed.

Lemma In_trim (c : ascii) (s : JsString) :
  In c s -> Js.isWhiteSpace c = false -> In c (Js.trim s).
Proof.
  intros H Hc. unfold Js.trim.
  apply in_rev. rewrite rev_involutive.
  apply In_trimStart; [|exact Hc].
  apply -> in_rev. now apply In_trimStart.
Qed.

Lemma okResponse_not_blank (d c rest : JsString) :
  Js.str_eqb (TextRegex.okResponse d c ++ rest) []
  || Js.str_eqb (Js.trim (TextRegex.okResponse d c ++ rest)) [] = false.
Proof.
  assert (HC : In "C"%char (TextRegex.okResponse d c ++ rest)).
  { unfold TextRegex.okResponse. apply in_or_app. left.
    apply in_or_app. right. simpl. tauto. }
  apply orb_false_iff. split.
  - destruct (Js.str_eqb _ []) eqn:E; [|reflexivity].
    apply str_eqb_nil in E. rewrite E in HC. destruct HC.
  - destruct (Js.str_eqb (Js.trim _) []) eqn:E; [|reflexivity].
    apply str_eqb_nil in E.
    pose proof (In_trim "C"%char _ HC eq_refl) as H. rewrite E in H. destruct H.
Qed.

Lemma driver_parseTextResponse_ok (d c rest : JsString) :
  Forall (fun x => x <> TextRegex.CR) d ->
  List.length c = 8%nat -> Forall (fun x => TextRegex.isHexUpper x = true) c ->
  Driver.parseTextResponse (TextRegex.okResponse d c ++ rest) = (Some d, []).
Proof.
  intros Hd Hlen Hhex. unfold Driver.parseTextResponse.
  rewrite okResponse_not_blank.
  replace (TextRegex.okResponse d c ++ rest)
    with (d ++ TextRegex.crlf ++ "CKSM:" ++ c ++ TextRegex.crlf ++ "CMD "
            ++ "OK" ++ TextRegex.crlf ++ rest)
    by (unfold TextRegex.okResponse; now rewrite <- !app_assoc).
  rewrite regex_match_complete by auto. reflexivity.
Qed.

(** Whatever does not have the shape of the format is answered with null
    by the driver's parser; there is no second attempt on the first line. *)
Lemma driver_parseTextResponse_unmatched (response : JsString) :
  ~ TextRegex.wellFormed response ->
  fst (Driver.parseTextResponse response) = None.
Proof.
  intros H. apply regex_match_None_iff in H.
  unfold Driver.parseTextResponse. rewrite H.
  destruct (_ || _); reflexivity.
Qed.

(** C6.  On the response "12345" CR LF "CKSM:000000FF" CR LF "CMD OK" (cut
    before its last CR LF, so not matching the expression) the first
    segment "12345" is not empty, yet the driver's [parseTextResponse]
    returns null; the copy of the function in App.tsx returns "12345". *)
Theorem driver_parseTextResponse_no_fallback :
  ~ TextRegex.wellFormed Sample.truncatedResponse
  /\ nth_error (Js.split TextRegex.crlf Sample.truncatedResponse) 0
     = Some ("12345" : JsString)
  /\ Driver.parseTextResponse Sample.truncatedResponse
     = (None, [TextRegex.WarnInvalidFormat Sample.truncatedResponse])
  /\ App.parseTextResponse Sample.truncatedResponse
     = (Some ("12345" : JsString),
        [TextRegex.WarnInvalidFormat Sample.truncatedResponse;
         TextRegex.WarnFullResponse Sample.truncatedResponse;
         TextRegex.WarnUnformatted "12345"]).
Proof.
  split; [|repeat split].
  apply regex_match_None_iff. reflexivity.
Qed.

(** C7, as stated, fails on the tag: for "DATA" with the checksum field
    00000000 (the byte sum of "DATA" is 282) the driver returns the bare
    string "DATA" and writes nothing to the console, exactly as it does
    for the matching checksum 0000011A; no flag computed from what the
    call returns can tell the two apart. *)
Lemma checksum_mismatch_is_not_tagged :
  TextRegex.byteSum "DATA" = 282
  /\ Driver.parseTextResponse Sample.dataMismatch = (Some ("DATA" : JsString), [])
  /\ Driver.parseTextResponse Sample.dataMatch = (Some ("DATA" : JsString), [])
  /\ ~ (exists checksumMismatch :
          option JsString * list TextRegex.LogEntry -> bool,
          checksumMismatch (Driver.parseTextResponse Sample.dataMismatch) = true
          /\ checksumMismatch (Driver.parseTextResponse Sample.dataMatch) = false).
Proof.
  assert (H1 : Driver.parseTextResponse Sample.dataMismatch
               = (Some ("DATA" : JsString), [])) by reflexivity.
  assert (H2 : Driver.parseTextResponse Sample.dataMatch
               = (Some ("DATA" : JsString), [])) by reflexivity.
  repeat split; auto.
  intros (tag & Ht & Hf). rewrite H1 in Ht. rewrite H2 in Hf. congruence.
Qed.

(** C7, amended.  [parseTextResponse] on "DATA" CR LF "CKSM:00000000" CR LF
    "CMD OK" CR LF returns the data "DATA", a bare string without any
    checksum tag, and never null.  For every response of the format whose
    status is OK the data is returned whatever the eight checksum digits
    are: they are not compared with the byte sum of the data. *)
Theorem ok_response_returns_data_whatever_checksum :
  Driver.parseTextResponse Sample.dataMismatch = (Some ("DATA" : JsString), [])
  /\ (forall d c rest : JsString,
        Forall (fun x => x <> TextRegex.CR) d ->
        List.length c = 8%nat ->
        Forall (fun x => TextRegex.isHexUpper x = true) c ->
        Driver.parseTextResponse (TextRegex.okResponse d c ++ rest)
        = (Some d, [])).
Proof.
  split; [reflexivity|]. apply driver_parseTextResponse_ok.
Qed.

Lemma ok_response_returns_data_whatever_checksum_witness :
  Driver.parseTextResponse
    (TextRegex.okResponse "X1234" "DEADBEEF" ++ [])
  = (Some ("X1234" : JsString), []).
Proof.
  apply (proj2 ok_response_returns_data_whatever_checksum
           ("X1234" : JsString) ("DEADBEEF" : JsString) []).
  - repeat constructor; discriminate.
  - reflexivity.
  - repeat constructor.
Defined.

(** ** Text obtained through the protocol *)

Ltac unfold_eff :=
  unfold Eff.try_catch, Eff.bind, Eff.gets, Eff.throw, Eff.ret, Eff.modify,
    Eff.delay, Eff.emit, Eff.usb_writeData, Eff.usb_readData,
    Eff.usb_openDevice, Eff.usb_closeDevice, Eff.usb_claimInterface,
    Eff.call in *.

(** Case analysis on the innermost value a run stored in [H] is waiting
    for. *)
Ltac step_run H :=
  match type of H with
  | context [match ?x with _ => _ end] =>
      lazymatch x with
      | context [match _ with _ => _ end] => fail
      | _ => idtac
      end;
      destruct x eqn:?; cbn beta iota in H; try discriminate H
  end.

Lemma code_fromCharCode (b : Z) :
  0 <= b < 256 -> Js.code (ascii_of_nat (Z.to_nat b)) = b.
Proof.
  intros Hb. unfold Js.code. rewrite nat_ascii_embedding by lia. lia.
Qed.

Lemma fromCharCode_printable (bytes : list Z) :
  Forall (fun c => 32 <= Js.code c <= 126)
    (Protocol.fromCharCode (filter Protocol.printable bytes)).
Proof.
  unfold Protocol.fromCharCode.
  induction bytes as [|b bytes IH]; simpl; [constructor|].
  destruct (Protocol.printable b) eqn:E; [|exact IH].
  simpl. constructor; [|exact IH].
  unfold Protocol.printable in E. apply andb_true_iff in E as [E1 E2].
  apply Z.leb_le in E1, E2. rewrite code_fromCharCode by lia. lia.
Qed.

Lemma requestTextResponse_text {T} (usb : UsbModule T) command s text s' tr :
  Protocol.requestTextResponse usb command s = (Normal text, s', tr) ->
  exists bytes, text = Protocol.fromCharCode (filter Protocol.printable bytes).
Proof.
  intros H. unfold Protocol.requestTextResponse in H. unfold_eff.
  repeat step_run H.
  injection H as <- _ _. eauto.
Qed.

Lemma printable_not_ctl (text : JsString) (c : ascii) :
  Forall (fun c => 32 <= Js.code c <= 126) text ->
  Js.code c < 32 -> ~ In c text.
Proof.
  intros H Hc Hin. rewrite Forall_forall in H. specialize (H c Hin). lia.
Qed.

Lemma split_no_CR (text cur : JsString) :
  ~ In TextRegex.CR text ->
  Js.split_from TextRegex.crlf O cur text = [rev cur ++ text].
Proof.
  revert cur; induction text as [|c text IH]; intros cur H.
  - simpl. now rewrite app_nil_r.
  - cbn [Js.split_from].
    change (Js.stripPrefix TextRegex.crlf (c :: text))
      with (if Js.ascii_eqb TextRegex.CR c
            then Js.stripPrefix [TextRegex.LF] text else None).
    destruct (Js.ascii_eqb TextRegex.CR c) eqn:E.
    + apply ascii_eqb_true in E. subst c. exfalso. apply H. now left.
    + rewrite IH by (intros Hin; apply H; now right).
      cbn [rev]. rewrite <- app_assoc. reflexivity.
Qed.

Lemma In_trimStart_inv (c : ascii) (s : JsString) :
  In c (Js.trimStart s) -> In c s.
Proof.
  induction s as [|x s IH]; simpl; [tauto|].
  destruct (Js.isWhiteSpace x); [auto | tauto].
Qed.

Lemma In_trim_inv (c : ascii) (s : JsString) : In c (Js.trim s) -> In c s.
Proof.
  unfold Js.trim. intros H. apply in_rev in H.
  apply In_trimStart_inv in H. apply in_rev in H.
  now apply In_trimStart_inv in H.
Qed.

Lemma no_CR_unmatched (text : JsString) :
  ~ In TextRegex.CR text -> TextRegex.regex_match text = None.
Proof.
  intros H. unfold TextRegex.regex_match.
  now rewrite spanNotCR_no_CR.
Qed.

(** C10.  A text returned by [requestTextResponse] holds code units
    between 32 and 126 only, hence neither CR nor LF and never the
    delimiter CR LF: splitting it on CR LF leaves it in one piece, the
    expression of [parseTextResponse] cannot match it, and [getResults]
    returns at most one line. *)
Theorem requestTextResponse_printable_only :
  forall (T : Type) (usb : UsbModule T),
    (forall command s text s' tr,
        Protocol.requestTextResponse usb command s = (Normal text, s', tr) ->
        Forall (fun c => 32 <= Js.code c <= 126) text
        /\ ~ In TextRegex.CR text /\ ~ In TextRegex.LF text
        /\ (forall pre post, text <> pre ++ TextRegex.crlf ++ post)
        /\ Js.split TextRegex.crlf text = [text]
        /\ TextRegex.regex_match text = None
        /\ fst (Driver.parseTextResponse text) = None)
    /\ (forall s records s' tr,
        Protocol.getResults usb s = (Normal records, s', tr) ->
        (List.length records <= 1)%nat
        /\ Forall (fun line => ~ In TextRegex.CR line /\ ~ In TextRegex.LF line)
             records).
Proof.
  intros T usb.
  assert (Hreq : forall command s text s' tr,
             Protocol.requestTextResponse usb command s = (Normal text, s', tr) ->
             Forall (fun c => 32 <= Js.code c <= 126) text
             /\ ~ In TextRegex.CR text /\ ~ In TextRegex.LF text).
  { intros command s text s' tr H.
    apply requestTextResponse_text in H as [bytes ->].
    pose proof (fromCharCode_printable bytes) as Hp.
    repeat split; [exact Hp | |];
      apply (printable_not_ctl _ _ Hp); vm_compute; reflexivity. }
  split.
  - intros command s text s' tr H.
    destruct (Hreq _ _ _ _ _ H) as (Hp & Hcr & Hlf).
    repeat split; auto.
    + intros pre post ->. apply Hcr. apply in_or_app. right. now left.
    + unfold Js.split. now rewrite split_no_CR.
    + now apply no_CR_unmatched.
    + unfold Driver.parseTextResponse. rewrite no_CR_unmatched by exact Hcr.
      destruct (_ || _); reflexivity.
  - intros s records s' tr H. unfold Protocol.getResults in H.
    unfold Eff.try_catch, Eff.bind in H.
    destruct (Protocol.requestTextResponse usb _ s) as [[[text|e] s1] tr1] eqn:E;
      [|unfold Eff.throw in H; discriminate H].
    destruct (Hreq _ _ _ _ _ E) as (Hp & Hcr & Hlf).
    unfold Eff.ret in H.
    destruct (_ && _); injection H as <- _ _.
    + unfold Protocol.crlf, Js.split.
      rewrite split_no_CR by (intros Hin; apply Hcr; now apply In_trim_inv).
      cbn [rev app filter].
      destruct (Protocol.nonblank (Js.trim text)); simpl; split; try lia;
        repeat constructor; intros Hin; [apply Hcr | apply Hlf];
        now apply In_trim_inv.
    + simpl. split; [lia | constructor].
Qed.

Lemma requestTextResponse_printable_only_witness :
  Forall (fun c => 32 <= Js.code c <= 126) ("12AB" : JsString)
  /\ (List.length [("12AB" : JsString)] <= 1)%nat.
Proof.
  pose proof (requestTextResponse_printable_only nat Sample.answering)
    as [Hreq Hres].
  split.
  - apply (Hreq ("$serlnum?" : JsString) Sample.initializedSession
             ("12AB" : JsString)
             (Trace.final (Protocol.requestTextResponse Sample.answering
                             "$serlnum?" Sample.initializedSession))
             (Trace.events (Protocol.requestTextResponse Sample.answering
                              "$serlnum?" Sample.initializedSession))).
    vm_compute. reflexivity.
  - apply (Hres Sample.initializedSession [("12AB" : JsString)]
             (Trace.final (Protocol.getResults Sample.answering
                             Sample.initializedSession))
             (Trace.events (Protocol.getResults Sample.answering
                              Sample.initializedSession))).
    vm_compute. reflexivity.
Defined.

(** ** Invariants of session computations *)

Section Invariants.

Context {T : Type} (P : Session T -> Prop) (Q : list Event -> Prop).
Hypothesis Q_nil : Q [].
Hypothesis Q_app : forall a b, Q a -> Q b -> Q (a ++ b).

Lemma Inv_ret {A} (a : A) : Trace.Inv P Q (Eff.ret a).
Proof. intros s Hs. split; [exact Hs | exact Q_nil]. Qed.

Lemma Inv_throw {A} (e : Err) : Trace.Inv P Q (@Eff.throw T A e).
Proof. intros s Hs. split; [exact Hs | exact Q_nil]. Qed.

Lemma Inv_gets {A} (f : Session T -> A) : Trace.Inv P Q (Eff.gets f).
Proof. intros s Hs. split; [exact Hs | exact Q_nil]. Qed.

Lemma Inv_modify (f : Session T -> Session T) :
  (forall s, P s -> P (f s)) -> Trace.Inv P Q (Eff.modify f).
Proof. intros Hf s Hs. split; [now apply Hf | exact Q_nil]. Qed.

Lemma Inv_emit (e : Event) : Q [e] -> Trace.Inv P Q (Eff.emit e).
Proof. intros He s Hs. split; [exact Hs | exact He]. Qed.

Lemma Inv_call {A} (f : T -> Completion A * T) (ev : Completion A -> Event) :
  (forall s t, P s -> P (Eff.set_transport t s)) ->
  (forall r, Q [ev r]) ->
  Trace.Inv P Q (Eff.call f ev).
Proof.
  intros Ht Hev s Hs. unfold Eff.call, Trace.final, Trace.events.
  destruct (f (transport s)) as [r t']. simpl. split; auto.
Qed.

Lemma Inv_bind {A B} (m : Eff.M T A) (k : A -> Eff.M T B) :
  Trace.Inv P Q m -> (forall a, Trace.Inv P Q (k a)) ->
  Trace.Inv P Q (Eff.bind m k).
Proof.
  intros Hm Hk s Hs. specialize (Hm s Hs).
  unfold Eff.bind, Trace.final, Trace.events in *.
  destruct (m s) as [[[a|e] s1] t1]; simpl in *; [|exact Hm].
  destruct Hm as [Hs1 Ht1]. specialize (Hk a s1 Hs1).
  destruct (k a s1) as [[r2 s2] t2]; simpl in *. split; [tauto|].
  apply Q_app; tauto.
Qed.

Lemma Inv_try_catch {A} (m : Eff.M T A) (h : Err -> Eff.M T A) :
  Trace.Inv P Q m -> (forall e, Trace.Inv P Q (h e)) ->
  Trace.Inv P Q (Eff.try_catch m h).
Proof.
  intros Hm Hh s Hs. specialize (Hm s Hs).
  unfold Eff.try_catch, Trace.final, Trace.events in *.
  destruct (m s) as [[[a|e] s1] t1]; simpl in *; [exact Hm|].
  destruct Hm as [Hs1 Ht1]. specialize (Hh e s1 Hs1).
  destruct (h e s1) as [[r2 s2] t2]; simpl in *. split; [tauto|].
  apply Q_app; tauto.
Qed.

(** The same for a computation that first establishes [P]. *)
Lemma establish_bind_modify {A} (f : Session T -> Session T) (k : Eff.M T A) :
  (forall s, P (f s)) -> Trace.Inv P Q k ->
  forall s,
    P (Trace.final (Eff.bind (Eff.modify f) (fun _ => k) s))
    /\ Q (Trace.events (Eff.bind (Eff.modify f) (fun _ => k) s)).
Proof.
  intros Hf Hk s. specialize (Hk (f s) (Hf s)).
  unfold Eff.bind, Eff.modify, Trace.final, Trace.events in *.
  destruct (k (f s)) as [[r s2] t2]. exact Hk.
Qed.

Lemma establish_try_catch {A} (m : Eff.M T A) (h : Err -> Eff.M T A) :
  (forall s, P (Trace.final (m s)) /\ Q (Trace.events (m s))) ->
  (forall e, Trace.Inv P Q (h e)) ->
  forall s,
    P (Trace.final (Eff.try_catch m h s))
    /\ Q (Trace.events (Eff.try_catch m h s)).
Proof.
  intros Hm Hh s. specialize (Hm s).
  unfold Eff.try_catch, Trace.final, Trace.events in *.
  destruct (m s) as [[[a|e] s1] t1]; simpl in *; [exact Hm|].
  destruct Hm as [Hs1 Ht1]. specialize (Hh e s1 Hs1).
  destruct (h e s1) as [[r2 s2] t2]; simpl in *. split; [tauto|].
  apply Q_app; tauto.
Qed.

End Invariants.

(** One step of an invariant proof that follows the shape of the code. *)
Ltac inv_step Qn Qa :=
  first
    [ apply (Inv_ret _ _ Qn)
    | apply (Inv_throw _ _ Qn)
    | apply (Inv_gets _ _ Qn)
    | apply (Inv_bind _ _ Qa); [|intros ?]
    | apply (Inv_try_catch _ _ Qa); [|intros ?]
    | match goal with
      | |- Trace.Inv _ _ (match ?x with _ => _ end) => destruct x
      end ].

Lemma closes_app (a b : list Event) :
  Trace.closes (a ++ b) = (Trace.closes a + Trace.closes b)%nat.
Proof. unfold Trace.closes. now rewrite filter_app, length_app. Qed.

Section ConnectNeverCloses.

Context {T : Type} (usb : UsbModule T) (info : DeviceInfo).

Let P (s : Session T) : Prop := deviceInfo s = Some info.
Let Q (tr : list Event) : Prop := Trace.closes tr = 0%nat.

Local Lemma Q_nil : Q [].
Proof. reflexivity. Qed.

Local Lemma Q_app (a b : list Event) : Q a -> Q b -> Q (a ++ b).
Proof. unfold Q. rewrite closes_app. lia. Qed.

Local Ltac prim :=
  first
    [ apply Inv_emit; reflexivity
    | apply (Inv_modify _ _ Q_nil); intros; assumption
    | apply Inv_call; [intros; assumption | reflexivity] ].

(** Known computations first, then the shape of the code. *)
Local Ltac go known :=
  repeat (cbv beta; first [known | inv_step Q_nil Q_app]).

Lemma Inv_delay ms : Trace.Inv P Q (@Eff.delay T ms).
Proof. prim. Qed.

Lemma Inv_usb_writeData name data :
  Trace.Inv P Q (Eff.usb_writeData usb name data).
Proof. prim. Qed.

Lemma Inv_usb_readData name timeout :
  Trace.Inv P Q (Eff.usb_readData usb name timeout).
Proof. prim. Qed.

Local Ltac io :=
  first [apply Inv_delay | apply Inv_usb_writeData | apply Inv_usb_readData].

Lemma Inv_readInitResponse : Trace.Inv P Q (Protocol.readInitResponse usb).
Proof. unfold Protocol.readInitResponse. go io. Qed.

Lemma Inv_write_attempts remaining bytesWritten hidFrame :
  Trace.Inv P Q (Protocol.write_attempts usb remaining bytesWritten hidFrame).
Proof.
  revert bytesWritten; induction remaining as [|r IH]; intros bw;
    cbn [Protocol.write_attempts]; go ltac:(first [apply IH | io]).
Qed.

Lemma Inv_sendInitCommand command :
  Trace.Inv P Q (Protocol.sendInitCommand usb command).
Proof.
  unfold Protocol.sendInitCommand.
  go ltac:(first [apply Inv_write_attempts | apply Inv_readInitResponse]).
Qed.

Lemma Inv_sendWakeUpCommand : Trace.Inv P Q (Protocol.sendWakeUpCommand usb).
Proof. unfold Protocol.sendWakeUpCommand. go io. Qed.

Lemma Inv_init_loop i commands :
  Trace.Inv P Q (Protocol.init_loop usb i commands).
Proof.
  revert i; induction commands as [|c rest IH]; intros i;
    cbn [Protocol.init_loop];
    go ltac:(first [apply IH | apply Inv_sendInitCommand | io]).
Qed.

Lemma Inv_executeInitSequence :
  Trace.Inv P Q (Protocol.executeInitSequence usb).
Proof.
  unfold Protocol.executeInitSequence.
  go ltac:(first [apply Inv_sendWakeUpCommand | apply Inv_init_loop | io]).
Qed.

Lemma Inv_protocol_initCommunication name :
  Trace.Inv P Q (Protocol.initCommunication usb name).
Proof.
  unfold Protocol.initCommunication.
  go ltac:(first [apply Inv_executeInitSequence | prim]).
Qed.

Lemma Inv_notify cb step total : Trace.Inv P Q (@Driver.notify T cb step total).
Proof. unfold Driver.notify. go prim. Qed.

Lemma Inv_connectToDevice : Trace.Inv P Q (Driver.connectToDevice usb info).
Proof. unfold Driver.connectToDevice. go prim. Qed.

Lemma Inv_verifyConnection : Trace.Inv P Q (Driver.verifyConnection usb).
Proof. unfold Driver.verifyConnection. go prim. Qed.

Lemma Inv_initCommunication name :
  Trace.Inv P Q (Driver.initCommunication usb name).
Proof.
  unfold Driver.initCommunication.
  go ltac:(apply Inv_protocol_initCommunication).
Qed.

(** After [this.deviceInfo = deviceInfo], nothing in [connect] touches
    [deviceInfo] or calls [closeDevice]. *)
Lemma connect_events_and_deviceInfo cb s :
  deviceInfo (Trace.final (Driver.connect usb info cb s)) = Some info
  /\ Trace.closes (Trace.events (Driver.connect usb info cb s)) = 0%nat.
Proof.
  unfold Driver.connect.
  apply (establish_try_catch P Q Q_app).
  - apply (establish_bind_modify P Q); [reflexivity|].
    go ltac:(first [apply Inv_notify | apply Inv_connectToDevice
                   | apply Inv_initCommunication | apply Inv_verifyConnection
                   | prim]).
  - intros e. go prim.
Qed.

End ConnectNeverCloses.

(** ** Releasing the transport handle *)

Lemma disconnect_without_deviceInfo {T} (usb : UsbModule T) (s : Session T) :
  deviceInfo s = None ->
  Driver.disconnect usb s
  = (Normal true, Eff.set_deviceInfo None (Eff.set_isConnected false s), []).
Proof.
  intros H. unfold Driver.disconnect. unfold_eff. rewrite H. reflexivity.
Qed.

Lemma disconnect_close_returns {T} (usb : UsbModule T) (s : Session T) d b t' :
  deviceInfo s = Some d ->
  closeDevice usb (deviceName d) (transport s) = (Normal b, t') ->
  Driver.disconnect usb s
  = (Normal true,
     Eff.set_deviceInfo None
       (Eff.set_isConnected false (Eff.set_transport t' s)),
     [EvClose (deviceName d)]).
Proof.
  intros H Hc. unfold Driver.disconnect. unfold_eff. rewrite H.
  cbn beta iota. rewrite Hc. reflexivity.
Qed.

Lemma disconnect_close_rejects {T} (usb : UsbModule T) (s : Session T) d e t' :
  deviceInfo s = Some d ->
  closeDevice usb (deviceName d) (transport s) = (Throw e, t') ->
  Driver.disconnect usb s
  = (Throw e, Eff.set_transport t' s, [EvClose (deviceName d)]).
Proof.
  intros H Hc. unfold Driver.disconnect. unfold_eff. rewrite H.
  cbn beta iota. rewrite Hc. reflexivity.
Qed.

Lemma disconnect_with_deviceInfo {T} (usb : UsbModule T) (s : Session T) d :
  deviceInfo s = Some d ->
  Trace.closes (Trace.events (Driver.disconnect usb s)) = 1%nat.
Proof.
  intros H.
  destruct (closeDevice usb (deviceName d) (transport s)) as [[b|e] t'] eqn:Hc.
  - now rewrite (disconnect_close_returns usb s d b t' H Hc).
  - now rewrite (disconnect_close_rejects usb s d e t' H Hc).
Qed.

Lemma connect_throw_not_connected {T} (usb : UsbModule T) info cb s e :
  Trace.result (Driver.connect usb info cb s) = Throw e ->
  isConnected (Trace.final (Driver.connect usb info cb s)) = false.
Proof.
  unfold Driver.connect.
  match goal with
  | |- context [Eff.try_catch ?m ?h s] => set (body := m); set (handler := h)
  end.
  unfold Eff.try_catch, Trace.result, Trace.final.
  destruct (body s) as [[[a|e'] s1] t1]; cbn [fst snd].
  - discriminate.
  - intros _. reflexivity.
Qed.

(** C2, as stated, fails: on the transport whose every write of 0x05
    returns -1, [connect] ends with the initialization error of command 2
    and has not called [closeDevice] at all, let alone exactly once. *)
Lemma failed_handshake_releases_nothing :
  Trace.result
    (Driver.connect Sample.rejecting05 Sample.info None (newSession 0%nat))
  = Throw (ErrInitCommand 2 0x05)
  /\ Trace.closes
       (Trace.events
          (Driver.connect Sample.rejecting05 Sample.info None
             (newSession 0%nat))) = 0%nat
  /\ Trace.closes
       (Trace.events
          (Driver.connect Sample.rejecting05 Sample.info None
             (newSession 0%nat))) <> 1%nat.
Proof. split; [|split]; vm_compute; congruence. Qed.

(** C2, amended.  [connect] never calls [closeDevice], on any transport
    and on any path.  When it fails (for instance because the handshake
    failed) it sets [isConnected] to false and rethrows the error, with
    [deviceInfo] still set: the handle stays as the transport left it
    until the caller releases it, and a [disconnect] that follows calls
    [closeDevice] exactly once. *)
Theorem connect_never_releases_the_handle :
  forall (T : Type) (usb : UsbModule T) (info : DeviceInfo)
         (progressCallback : option Driver.ProgressCallback) (s : Session T),
    let run := Driver.connect usb info progressCallback s in
    Trace.closes (Trace.events run) = 0%nat
    /\ deviceInfo (Trace.final run) = Some info
    /\ (forall e, Trace.result run = Throw e ->
          isConnected (Trace.final run) = false
          /\ Trace.closes
               (Trace.events (Driver.disconnect usb (Trace.final run)))
             = 1%nat).
Proof.
  intros T usb info cb s run.
  destruct (connect_events_and_deviceInfo usb info cb s) as [Hinfo Hcl].
  split; [exact Hcl|]. split; [exact Hinfo|].
  intros e He. split.
  - exact (connect_throw_not_connected usb info cb s e He).
  - exact (disconnect_with_deviceInfo usb _ info Hinfo).
Qed.

Lemma connect_never_releases_the_handle_witness :
  isConnected
    (Trace.final
       (Driver.connect Sample.rejecting05 Sample.info None (newSession 0%nat)))
  = false
  /\ Trace.closes
       (Trace.events
          (Driver.disconnect Sample.rejecting05
             (Trace.final
                (Driver.connect Sample.rejecting05 Sample.info None
                   (newSession 0%nat))))) = 1%nat.
Proof.
  pose proof (connect_never_releases_the_handle nat Sample.rejecting05
                Sample.info None (newSession 0%nat)) as H.
  cbv zeta in H. destruct H as (_ & _ & H).
  apply (H (ErrInitCommand 2 0x05)). vm_compute. reflexivity.
Defined.

(** C9, as stated, fails on "neither call throws": when [closeDevice]
    rejects, [disconnect] rethrows, keeps [deviceInfo], and a second call
    asks for the release again. *)
Lemma disconnect_rethrows_rejected_close :
  deviceInfo Sample.connectedOverCloseRejects = Some Sample.info
  /\ isConnected Sample.connectedOverCloseRejects = true
  /\ Trace.result
       (Driver.disconnect Sample.closeRejects Sample.connectedOverCloseRejects)
     = Throw (ErrRejected "closeDevice")
  /\ Trace.closes
       (Trace.events
          (Driver.disconnect Sample.closeRejects
             Sample.connectedOverCloseRejects)
        ++ Trace.events
             (Driver.disconnect Sample.closeRejects
                (Trace.final
                   (Driver.disconnect Sample.closeRejects
                      Sample.connectedOverCloseRejects)))) = 2%nat.
Proof. repeat split; vm_compute; reflexivity. Qed.

(** C9, amended.  For every session state in which the [closeDevice] of
    the first call (if one is made) returns rather than rejects, two
    [disconnect] calls in a row both return true, the first releases the
    handle once if [deviceInfo] was set and not at all otherwise, and the
    second releases nothing: at most one release in total.  A
    [disconnect] on a session without [deviceInfo] (as a completed
    [disconnect] leaves it) performs no release.  When [closeDevice]
    rejects, [disconnect] rethrows the error and leaves [deviceInfo] set. *)
Theorem disconnect_twice_releases_once :
  forall (T : Type) (usb : UsbModule T) (s : Session T),
    let first := Driver.disconnect usb s in
    let second := Driver.disconnect usb (Trace.final first) in
    ((forall d, deviceInfo s = Some d ->
        exists b t', closeDevice usb (deviceName d) (transport s)
                     = (Normal b, t')) ->
     Trace.result first = Normal true
     /\ Trace.result second = Normal true
     /\ Trace.closes (Trace.events first)
        = (match deviceInfo s with Some _ => 1 | None => 0 end)%nat
     /\ Trace.events second = []
     /\ (Trace.closes (Trace.events first ++ Trace.events second) <= 1)%nat
     /\ deviceInfo (Trace.final first) = None
     /\ isConnected (Trace.final first) = false)
    /\ (deviceInfo s = None ->
        Trace.result first = Normal true /\ Trace.events first = [])
    /\ (forall d e t',
          deviceInfo s = Some d ->
          closeDevice usb (deviceName d) (transport s) = (Throw e, t') ->
          Trace.result first = Throw e
          /\ deviceInfo (Trace.final first) = Some d).
Proof.
  intros T usb s first second. split; [|split].
  - intros Hclose. subst first second.
    destruct (deviceInfo s) as [d|] eqn:Hd.
    + destruct (Hclose d eq_refl) as (b & t' & Hc).
      rewrite (disconnect_close_returns usb s d b t' Hd Hc).
      cbn [Trace.final Trace.events Trace.result fst snd].
      rewrite disconnect_without_deviceInfo by reflexivity.
      cbn. repeat split; lia.
    + rewrite (disconnect_without_deviceInfo usb s Hd).
      cbn [Trace.final Trace.events Trace.result fst snd].
      rewrite disconnect_without_deviceInfo by reflexivity.
      cbn. repeat split; lia.
  - intros Hd. subst first.
    rewrite (disconnect_without_deviceInfo usb s Hd). split; reflexivity.
  - intros d e t' Hd Hc. subst first.
    rewrite (disconnect_close_rejects usb s d e t' Hd Hc).
    split; [reflexivity | exact Hd].
Qed.

Lemma disconnect_twice_releases_once_witness :
  Trace.result
    (Driver.disconnect Sample.accepting
       (Trace.final (Driver.connect Sample.accepting Sample.info None
                       (newSession 0%nat))))
  = Normal true
  /\ Trace.events
       (Driver.disconnect Sample.accepting
          (Trace.final
             (Driver.disconnect Sample.accepting
                (Trace.final (Driver.connect Sample.accepting Sample.info None
                                (newSession 0%nat))))))
     = [].
Proof.
  pose proof (disconnect_twice_releases_once nat Sample.accepting
                (Trace.final (Driver.connect Sample.accepting Sample.info None
                                (newSession 0%nat)))) as H.
  cbv zeta in H. destruct H as (H & _).
  assert (Hclose : forall d,
             deviceInfo
               (Trace.final (Driver.connect Sample.accepting Sample.info None
                               (newSession 0%nat))) = Some d ->
             exists b t',
               closeDevice Sample.accepting (deviceName d)
                 (transport
                    (Trace.final
                       (Driver.connect Sample.accepting Sample.info None
                          (newSession 0%nat)))) = (Normal b, t')).
  { intros d _. eexists; eexists. reflexivity. }
  destruct (H Hclose) as (H1 & _ & _ & H4 & _).
  split; [exact H1 | exact H4].
Defined.

(** ** The initialization handshake *)

Section HandshakeFacts.

Context {T : Type} (usb : UsbModule T).

Lemma sameFields_trans (s1 s2 s3 : Session T) :
  Trace.sameFields s1 s2 -> Trace.sameFields s2 s3 -> Trace.sameFields s1 s3.
Proof.
  unfold Trace.sameFields. intros (A1 & B1 & C1 & D1) (A2 & B2 & C2 & D2).
  repeat split; congruence.
Qed.

Lemma write_attempts_S (r : nat) (bytesWritten : Z) (hidFrame : list Z) :
  Protocol.write_attempts usb (S r) bytesWritten hidFrame
  = (if bytesWritten <? 0 then
       name <- Eff.gets protocol_deviceName;;
       bytesWritten' <- Eff.usb_writeData usb name hidFrame;;
       (if bytesWritten' <? 0 then
          if (0 <? r)%nat then Eff.delay Protocol.RETRY_DELAY else Eff.ret tt
        else Eff.ret tt);;;
       Protocol.write_attempts usb r bytesWritten' hidFrame
     else Eff.ret bytesWritten)%eff.
Proof. reflexivity. Qed.

Lemma write_attempts_done (r : nat) (n : Z) (hidFrame : list Z) (s : Session T) :
  0 <= n -> Protocol.write_attempts usb r n hidFrame s = (Normal n, s, []).
Proof.
  intros Hn. destruct r as [|r]; [reflexivity|].
  rewrite write_attempts_S. destruct (Z.ltb_spec n 0); [lia | reflexivity].
Qed.

(** The retry loop: up to [S r] writes of the same frame, a delay after
    each failed one but the last possible, ended by the first write that
    does not return a negative count. *)
Lemma write_attempts_spec (r : nat) (hidFrame : list Z) :
  forall (s : Session T) (bytesWritten : Z),
    bytesWritten < 0 ->
    exists negs last s',
      Protocol.write_attempts usb (S r) bytesWritten hidFrame s
      = (last, s',
         flat_map (fun n => [EvWrite (protocol_deviceName s) hidFrame (Normal n);
                             EvDelay Protocol.RETRY_DELAY]) negs
         ++ [EvWrite (protocol_deviceName s) hidFrame last])
      /\ Forall (fun n => n < 0) negs
      /\ (List.length negs <= r)%nat
      /\ (forall n, last = Normal n -> n < 0 -> List.length negs = r)
      /\ Trace.sameFields s s'.
Proof.
  induction r as [|r IH]; intros s bw Hbw; rewrite write_attempts_S;
    (destruct (Z.ltb_spec bw 0) as [_|]; [|lia]);
    unfold Eff.bind at 1; unfold Eff.gets at 1; cbn beta iota;
    unfold Eff.bind at 1; unfold Eff.usb_writeData, Eff.call;
    destruct (writeData usb (protocol_deviceName s) hidFrame (transport s))
      as [[n|e] t1] eqn:Hw; cbn beta iota.
  - (* third attempt *)
    exists [], (Normal n), (Eff.set_transport t1 s).
    destruct (n <? 0); cbn; repeat split; auto.
  - exists [], (Throw e), (Eff.set_transport t1 s).
    cbn; repeat split; auto; discriminate.
  - destruct (Z.ltb_spec n 0) as [Hn|Hn].
    + (* failed, attempts left: delay and try again *)
      change (0 <? S r)%nat with true. cbn beta iota.
      unfold Eff.bind at 1. unfold Eff.delay, Eff.emit. cbn beta iota.
      destruct (IH (Eff.set_transport t1 s) n Hn)
        as (negs & last & s' & Hrun & Hnegs & Hlen & Hlast & Hsame).
      rewrite Hrun. cbn beta iota.
      exists (n :: negs), last, s'.
      split; [reflexivity|]. split; [now constructor|].
      split; [simpl; lia|]. split.
      * intros m Hm Hm0. simpl. now rewrite (Hlast m Hm Hm0).
      * exact Hsame.
    + unfold Eff.bind at 1. unfold Eff.ret at 1. cbn beta iota.
      rewrite write_attempts_done by lia.
      exists [], (Normal n), (Eff.set_transport t1 s).
      split; [reflexivity|]. split; [constructor|].
      split; [simpl; lia|]. split.
      * intros m [= <-] Hm. lia.
      * repeat split.
  - exists [], (Throw e), (Eff.set_transport t1 s).
    split; [reflexivity|]. split; [constructor|].
    split; [simpl; lia|]. split; [discriminate | repeat split].
Qed.

Lemma readInitResponse_spec (s : Session T) :
  exists response s',
    Protocol.readInitResponse usb s
    = (Normal response, s', [EvRead (protocol_deviceName s) Protocol.TIMEOUT])
    /\ Trace.sameFields s s'.
Proof.
  unfold Protocol.readInitResponse. unfold_eff.
  destruct (readData usb (protocol_deviceName s) Protocol.TIMEOUT (transport s))
    as [[[bytes|]|e] t1]; cbn beta iota.
  - destruct (0 <? List.length bytes)%nat; eexists; eexists;
      (split; [reflexivity | repeat split]).
  - eexists; eexists; (split; [reflexivity | repeat split]).
  - eexists; eexists; (split; [reflexivity | repeat split]).
Qed.

(** One init command: the writes with their retries, then the read of
    the response when the command was accepted and is not 0x00. *)
Lemma sendInitCommand_spec (command : Z) (s : Session T) :
  exists a s',
    Protocol.sendInitCommand usb command s
    = (Normal (Handshake.accepted a), s',
       Handshake.commandEvents (protocol_deviceName s) command a)
    /\ Handshake.wellFormed a
    /\ Trace.sameFields s s'.
Proof.
  unfold Protocol.sendInitCommand.
  destruct (write_attempts_spec 2 (Protocol.createHIDFrame command None) s (-1))
    as (negs & last & s1 & Hrun & Hnegs & Hlen & Hlast & Hsame); [lia|].
  unfold Eff.try_catch. unfold Eff.bind at 1. cbv zeta. rewrite Hrun.
  exists {| Handshake.failedCounts := negs; Handshake.lastResult := last |}.
  unfold Handshake.commandEvents, Handshake.attemptEvents, Handshake.accepted,
    Handshake.wellFormed.
  cbn [Handshake.failedCounts Handshake.lastResult].
  destruct last as [n|e]; cbn beta iota.
  - destruct (Z.ltb_spec n 0) as [Hn|Hn]; cbn [negb].
    + exists s1. unfold Eff.ret. cbn beta iota.
      split; [reflexivity|]. split; [|exact Hsame]. auto.
    + destruct (command =? 0) eqn:Hc; cbn [negb].
      * exists s1. unfold_eff. cbn beta iota.
        split; [reflexivity|]. split; [|exact Hsame].
        repeat split; auto; try (intros m [= <-] Hm; lia).
      * destruct (readInitResponse_spec s1) as (resp & s2 & Hread & Hsame2).
        exists s2. unfold Eff.bind, Eff.ret. rewrite Hread. cbn beta iota.
        pose proof Hsame as (_ & _ & Hname & _). rewrite Hname.
        split; [now rewrite !app_nil_r|].
        split; [|eapply sameFields_trans; [exact Hsame | exact Hsame2]].
        repeat split; auto; try (intros m [= <-] Hm; lia).
  - exists s1. unfold Eff.ret. cbn beta iota.
    split; [reflexivity|]. split; [|exact Hsame].
    repeat split; auto; try discriminate.
Qed.

(** The loop over the init commands. *)
Lemma init_loop_spec (commands : list Z) :
  forall (i : nat) (s : Session T),
    exists attempts s',
      Protocol.init_loop usb i commands s
      = (Handshake.outcome i commands attempts, s',
         Handshake.handshakeEvents (protocol_deviceName s) commands attempts)
      /\ Handshake.covers commands attempts
      /\ Forall Handshake.wellFormed attempts
      /\ Trace.sameFields s s'.
Proof.
  induction commands as [|c rest IH]; intros i s.
  - exists [], s. repeat split. constructor.
  - cbn [Protocol.init_loop].
    destruct (sendInitCommand_spec c s) as (a & s1 & Hsend & Hwf & Hsame).
    unfold Eff.bind at 1. rewrite Hsend.
    destruct (Handshake.accepted a) eqn:Hacc; cbn [negb].
    + destruct (IH (S i) s1) as (attempts & s2 & Hloop & Hcov & Hall & Hsame2).
      exists (a :: attempts), s2.
      unfold Eff.bind, Eff.delay, Eff.emit. rewrite Hloop.
      cbn [Handshake.outcome Handshake.handshakeEvents Handshake.covers].
      rewrite Hacc.
      destruct Hsame as (Hi & Hc & Hname & Hini). rewrite Hname.
      split; [reflexivity|]. split; [exact Hcov|]. split; [now constructor|].
      eapply sameFields_trans; [|exact Hsame2]. repeat split; auto.
    + exists [a], s1. unfold Eff.throw.
      cbn [Handshake.outcome Handshake.handshakeEvents Handshake.covers].
      rewrite Hacc. split; [reflexivity|]. split; [reflexivity|].
      split; [constructor; [exact Hwf | constructor] | exact Hsame].
Qed.

Lemma sendWakeUpCommand_spec (s : Session T) :
  exists written b s',
    Protocol.sendWakeUpCommand usb s
    = (Normal b, s', Handshake.wakeUpEvents (protocol_deviceName s) written)
    /\ Trace.sameFields s s'.
Proof.
  unfold Protocol.sendWakeUpCommand, Handshake.wakeUpEvents. unfold_eff.
  destruct (writeData usb (protocol_deviceName s)
              (Protocol.createHIDFrame 0 None) (transport s))
    as [[n|e] t1]; cbn beta iota.
  - match goal with
    | |- context [readData usb ?a ?b ?c] =>
        destruct (readData usb a b c) as [[resp|e] t2]
    end; cbn beta iota;
      exists (Normal n); eexists; eexists;
      (split; [reflexivity | repeat split]).
  - exists (Throw e); eexists; eexists;
      (split; [reflexivity | repeat split]).
Qed.

(** The whole sequence: wake-up, the wait after it, then the loop. *)
Lemma executeInitSequence_spec (s : Session T) :
  exists written attempts s',
    Protocol.executeInitSequence usb s
    = (match Handshake.outcome 0 Protocol.INIT_SEQUENCE attempts with
       | Normal _ => Normal true
       | Throw e => Throw e
       end, s',
       Handshake.wakeUpEvents (protocol_deviceName s) written
       ++ EvDelay 60000
          :: Handshake.handshakeEvents (protocol_deviceName s)
               Protocol.INIT_SEQUENCE attempts)
    /\ Handshake.covers Protocol.INIT_SEQUENCE attempts
    /\ Forall Handshake.wellFormed attempts
    /\ Trace.sameFields s s'.
Proof.
  unfold Protocol.executeInitSequence.
  destruct (sendWakeUpCommand_spec s) as (written & b & s1 & Hwake & Hsame1).
  destruct (init_loop_spec Protocol.INIT_SEQUENCE 0 s1)
    as (attempts & s2 & Hloop & Hcov & Hall & Hsame2).
  exists written, attempts, s2.
  unfold Eff.try_catch. unfold Eff.bind at 1. rewrite Hwake.
  unfold Eff.bind at 1. unfold Eff.delay, Eff.emit.
  unfold Eff.bind at 1. rewrite Hloop.
  destruct Hsame1 as (Hi & Hc & Hname & Hini). rewrite Hname.
  split.
  - destruct (Handshake.outcome 0 Protocol.INIT_SEQUENCE attempts);
      unfold Eff.ret, Eff.throw; cbn beta iota;
      now rewrite ?app_nil_r.
  - split; [exact Hcov|]. split; [exact Hall|].
    eapply sameFields_trans; [|exact Hsame2]. repeat split; auto.
Qed.

Lemma outcome_rejected (commands : list Z) :
  forall (i k : nat) (attempts : list Handshake.Attempts) c a,
    Handshake.covers commands attempts ->
    nth_error commands k = Some c ->
    nth_error attempts k = Some a ->
    Handshake.accepted a = false ->
    Handshake.outcome i commands attempts = Throw (ErrInitCommand (i + k + 1) c).
Proof.
  induction commands as [|c0 cs IH]; intros i k attempts c a Hcov Hc Ha Hacc.
  - destruct k; discriminate.
  - destruct attempts as [|a0 rest]; [destruct k; discriminate|].
    cbn [Handshake.covers Handshake.outcome] in *.
    destruct k as [|k]; cbn [nth_error] in Hc, Ha.
    + injection Hc as <-. injection Ha as <-. rewrite Hacc.
      now rewrite Nat.add_0_r.
    + destruct (Handshake.accepted a0).
      * rewrite (IH (S i) k rest c a Hcov Hc Ha Hacc).
        do 2 f_equal. lia.
      * subst rest. destruct k; discriminate.
Qed.

Lemma outcome_normal_iff (commands : list Z) :
  forall (i : nat) (attempts : list Handshake.Attempts),
    Handshake.covers commands attempts ->
    (Handshake.outcome i commands attempts = Normal tt
     <-> List.length attempts = List.length commands
         /\ Forall (fun a => Handshake.accepted a = true) attempts).
Proof.
  induction commands as [|c cs IH]; intros i attempts Hcov.
  - destruct attempts; [|destruct Hcov]. simpl. split; auto.
  - destruct attempts as [|a rest]; [destruct Hcov|].
    cbn [Handshake.covers Handshake.outcome List.length] in *.
    destruct (Handshake.accepted a) eqn:Hacc.
    + rewrite (IH (S i) rest Hcov). split.
      * intros [Hlen Hall]. split; [now rewrite Hlen | now constructor].
      * intros [Hlen Hall]. split; [lia | now inversion Hall].
    + split; [discriminate|]. intros [_ Hall].
      inversion Hall; congruence.
Qed.

Lemma writtenOpcodes_app (a b : list Event) :
  Trace.writtenOpcodes (a ++ b)
  = Trace.writtenOpcodes a ++ Trace.writtenOpcodes b.
Proof.
  unfold Trace.writtenOpcodes, Trace.writtenFrames.
  now rewrite flat_map_app, map_app.
Qed.

Lemma writtenOpcodes_commandEvents name c a :
  Trace.writtenOpcodes (Handshake.commandEvents name c a)
  = repeat c (S (List.length (Handshake.failedCounts a))).
Proof.
  unfold Handshake.commandEvents, Handshake.attemptEvents.
  rewrite !writtenOpcodes_app.
  replace (Trace.writtenOpcodes
             (if Handshake.accepted a
              then if c =? 0 then [] else [EvRead name Protocol.TIMEOUT]
              else [])) with (@nil Z)
    by (destruct (Handshake.accepted a), (c =? 0); reflexivity).
  rewrite app_nil_r.
  induction (Handshake.failedCounts a) as [|n l IH].
  - reflexivity.
  - cbn [flat_map app List.length].
    match goal with
    | |- Trace.writtenOpcodes (?e1 :: ?e2 :: ?X) ++ _ = _ =>
        change (Trace.writtenOpcodes (e1 :: e2 :: X))
          with (c :: Trace.writtenOpcodes X)
    end.
    cbn [app]. rewrite IH. reflexivity.
Qed.

Lemma collapse_repeat (c : Z) (n : nat) (l : list Z) :
  Trace.collapse (repeat c (S n) ++ l) = Trace.collapse (c :: l).
Proof.
  induction n as [|n IH]; [reflexivity|].
  change (repeat c (S (S n)) ++ l) with (c :: (repeat c (S n) ++ l)).
  change (repeat c (S n) ++ l) with (c :: (repeat c n ++ l)) at 1.
  cbn [Trace.collapse]. rewrite Z.eqb_refl.
  change (c :: repeat c n ++ l) with (repeat c (S n) ++ l). exact IH.
Qed.

(** The opcodes written by the loop, with the repetitions of the retries
    folded, are the commands tried, in the order of the list. *)
Lemma handshake_order name (commands : list Z) :
  forall attempts,
    Handshake.distinctNeighbours commands ->
    Handshake.covers commands attempts ->
    Trace.collapse
      (Trace.writtenOpcodes (Handshake.handshakeEvents name commands attempts))
    = firstn (List.length attempts) commands.
Proof.
  induction commands as [|c cs IH]; intros attempts Hd Hcov.
  - destruct attempts; [reflexivity | destruct Hcov].
  - destruct attempts as [|a rest]; [destruct Hcov|].
    cbn [Handshake.handshakeEvents Handshake.covers List.length firstn] in *.
    rewrite writtenOpcodes_app, writtenOpcodes_commandEvents, collapse_repeat.
    destruct (Handshake.accepted a).
    + change (Trace.writtenOpcodes
                (EvDelay Protocol.RETRY_DELAY
                 :: Handshake.handshakeEvents name cs rest))
        with (Trace.writtenOpcodes (Handshake.handshakeEvents name cs rest)).
      destruct cs as [|c' cs'].
      * destruct rest; [reflexivity | destruct Hcov].
      * destruct rest as [|a' rest']; [destruct Hcov|].
        destruct Hd as [Hne Hd'].
        specialize (IH (a' :: rest') Hd' Hcov).
        cbn [Handshake.handshakeEvents] in *.
        rewrite writtenOpcodes_app, writtenOpcodes_commandEvents in *.
        cbn [repeat app] in *. cbn [Trace.collapse].
        destruct (Z.eqb_spec c c') as [|_]; [contradiction|].
        f_equal. exact IH.
    + subst rest. reflexivity.
Qed.

Lemma notify_returns cb step (s : Session T) :
  Handshake.callbackReturns cb ->
  exists tr, @Driver.notify T cb step 4 s = (Normal tt, s, tr).
Proof.
  intros H. destruct cb as [f|]; simpl in *.
  - unfold_eff. rewrite H. eexists; reflexivity.
  - eexists; reflexivity.
Qed.

(** An error of the init sequence goes through both [initCommunication]
    methods and [connect] unchanged. *)
Lemma connect_propagates info cb (s s1 s2 : Session T) tr1 tr2 e :
  Handshake.callbackReturns cb ->
  Driver.connectToDevice usb info (Eff.set_deviceInfo (Some info) s)
  = (Normal true, s1, tr1) ->
  Protocol.executeInitSequence usb
    (Eff.set_protocol_deviceName (deviceName info) s1) = (Throw e, s2, tr2) ->
  Trace.result (Driver.connect usb info cb s) = Throw e
  /\ isConnected (Trace.final (Driver.connect usb info cb s)) = false
  /\ protocol_isInitialized (Trace.final (Driver.connect usb info cb s)) = false.
Proof.
  intros Hcb Hdev Hinit.
  destruct (notify_returns cb 1 (Eff.set_deviceInfo (Some info) s) Hcb)
    as [n1 Hn1].
  destruct (notify_returns cb 2 s1 Hcb) as [n2 Hn2].
  assert (Hp : exists tr,
             Protocol.initCommunication usb (deviceName info) s1
             = (Throw e, Eff.set_protocol_isInitialized false s2, tr)).
  { unfold Protocol.initCommunication.
    unfold Eff.try_catch, Eff.bind, Eff.modify. cbn beta iota.
    rewrite Hinit. unfold Eff.throw. cbn beta iota. eexists; reflexivity. }
  destruct Hp as [tp Hp].
  assert (Hd : exists tr,
             Driver.initCommunication usb (deviceName info) s1
             = (Throw e, Eff.set_protocol_isInitialized false s2, tr)).
  { unfold Driver.initCommunication.
    unfold Eff.try_catch, Eff.bind. rewrite Hp. unfold Eff.throw.
    cbn beta iota. eexists; reflexivity. }
  destruct Hd as [td Hd].
  assert (Hrun : exists tr,
             Driver.connect usb info cb s
             = (Throw e,
                Eff.set_isConnected false
                  (Eff.set_protocol_isInitialized false s2), tr)).
  { unfold Driver.connect.
    unfold Eff.try_catch. unfold Eff.bind at 1. unfold Eff.modify at 1.
    cbn beta iota.
    unfold Eff.bind at 1. rewrite Hn1.
    unfold Eff.bind at 1. rewrite Hdev. cbn [negb].
    unfold Eff.bind at 1. rewrite Hn2.
    unfold Eff.bind at 1. rewrite Hd.
    unfold Eff.bind, Eff.modify, Eff.throw. cbn beta iota.
    eexists; reflexivity. }
  destruct Hrun as [tr Hrun]. rewrite Hrun. repeat split.
Qed.

End HandshakeFacts.

Lemma INIT_SEQUENCE_distinctNeighbours :
  Handshake.distinctNeighbours Protocol.INIT_SEQUENCE.
Proof. simpl. repeat split; discriminate. Qed.

(** On the transport whose first two writes after the wake-up fail, the
    opcode 0x04 is written three times and the handshake succeeds. *)
Example handshake_retries_then_succeeds :
  Trace.result
    (Protocol.executeInitSequence Sample.flaky
       (Eff.set_protocol_deviceName (deviceName Sample.info) (newSession 0%nat)))
  = Normal true
  /\ Trace.writtenOpcodes
       (Trace.events
          (Protocol.executeInitSequence Sample.flaky
             (Eff.set_protocol_deviceName (deviceName Sample.info)
                (newSession 0%nat))))
     = [0x00; 0x04; 0x04; 0x04; 0x05; 0x15; 0x01; 0x00].
Proof. split; vm_compute; reflexivity. Qed.

(** On the transport that refuses 0x05, the events of [sendInitCommand]
    are three writes with two delays between them, and no read. *)
Example three_failed_attempts :
  Protocol.sendInitCommand Sample.rejecting05 0x05
    (Eff.set_protocol_deviceName None (newSession 0%nat))
  = (Normal false,
     Eff.set_transport 3%nat
       (Eff.set_protocol_deviceName None (newSession 0%nat)),
     [EvWrite None (Protocol.createHIDFrame 0x05 None) (Normal (-1));
      EvDelay 1000;
      EvWrite None (Protocol.createHIDFrame 0x05 None) (Normal (-1));
      EvDelay 1000;
      EvWrite None (Protocol.createHIDFrame 0x05 None) (Normal (-1))]).
Proof. vm_compute. reflexivity. Qed.

(** C5.  [executeInitSequence], after the wake-up and the wait that
    follows it, takes the opcodes 0x04, 0x05, 0x15, 0x01, 0x00 in that
    order.  For each one the frame is written up to 3 times: an attempt
    that returns a negative byte count is followed by the retry delay of
    1000 ms and another attempt, unless it was the third.  The loop ends
    at the first opcode whose attempts are not accepted, with the error of
    that init command, and returns true only when all five are accepted.
    That error leaves both [initCommunication] methods and [connect]
    unchanged, so the connect operation fails with it. *)
Theorem init_handshake_order_retries_failure :
  forall (T : Type) (usb : UsbModule T),
    Protocol.INIT_SEQUENCE = [0x04; 0x05; 0x15; 0x01; 0x00]
    /\ (forall s : Session T,
          exists written attempts,
            let name := protocol_deviceName s in
            let run := Protocol.executeInitSequence usb s in
            Trace.events run
            = Handshake.wakeUpEvents name written
              ++ EvDelay 60000
                 :: Handshake.handshakeEvents name Protocol.INIT_SEQUENCE attempts
            /\ Handshake.covers Protocol.INIT_SEQUENCE attempts
            /\ Forall Handshake.wellFormed attempts
            /\ Trace.collapse
                 (Trace.writtenOpcodes
                    (Handshake.handshakeEvents name Protocol.INIT_SEQUENCE
                       attempts))
               = firstn (List.length attempts) [0x04; 0x05; 0x15; 0x01; 0x00]
            /\ (Trace.result run = Normal true
                <-> List.length attempts = 5%nat
                    /\ Forall (fun a => Handshake.accepted a = true) attempts)
            /\ (forall k c a,
                  nth_error Protocol.INIT_SEQUENCE k = Some c ->
                  nth_error attempts k = Some a ->
                  Handshake.accepted a = false ->
                  Trace.result run = Throw (ErrInitCommand (k + 1) c)))
    /\ (forall info cb (s s1 s2 : Session T) tr1 tr2 i c,
          Handshake.callbackReturns cb ->
          Driver.connectToDevice usb info (Eff.set_deviceInfo (Some info) s)
          = (Normal true, s1, tr1) ->
          Protocol.executeInitSequence usb
            (Eff.set_protocol_deviceName (deviceName info) s1)
          = (Throw (ErrInitCommand i c), s2, tr2) ->
          Trace.result (Driver.connect usb info cb s)
          = Throw (ErrInitCommand i c)
          /\ isConnected (Trace.final (Driver.connect usb info cb s)) = false
          /\ protocol_isInitialized
               (Trace.final (Driver.connect usb info cb s)) = false).
Proof.
  intros T usb. split; [reflexivity|]. split.
  - intros s.
    destruct (executeInitSequence_spec usb s)
      as (written & attempts & s' & Hrun & Hcov & Hall & Hsame).
    exists written, attempts. cbv zeta. rewrite Hrun.
    cbn [Trace.events Trace.result fst snd].
    split; [reflexivity|]. split; [exact Hcov|]. split; [exact Hall|].
    split; [apply handshake_order;
            [exact INIT_SEQUENCE_distinctNeighbours | exact Hcov]|].
    split.
    + rewrite <- (outcome_normal_iff Protocol.INIT_SEQUENCE 0 attempts Hcov).
      destruct (Handshake.outcome 0 Protocol.INIT_SEQUENCE attempts) as [[]|e];
        split; congruence.
    + intros k c a Hc Ha Hacc.
      rewrite (outcome_rejected Protocol.INIT_SEQUENCE 0 k attempts c a
                 Hcov Hc Ha Hacc).
      reflexivity.
  - intros info cb s s1 s2 tr1 tr2 i c Hcb Hdev Hinit.
    exact (connect_propagates usb info cb s s1 s2 tr1 tr2 _ Hcb Hdev Hinit).
Qed.

Lemma init_handshake_order_retries_failure_witness :
  Trace.result
    (Driver.connect Sample.rejecting05 Sample.info None (newSession 0%nat))
  = Throw (ErrInitCommand 2 0x05)
  /\ isConnected
       (Trace.final
          (Driver.connect Sample.rejecting05 Sample.info None
             (newSession 0%nat))) = false
  /\ protocol_isInitialized
       (Trace.final
          (Driver.connect Sample.rejecting05 Sample.info None
             (newSession 0%nat))) = false.
Proof.
  pose proof (init_handshake_order_retries_failure nat Sample.rejecting05)
    as (_ & _ & H).
  apply (H Sample.info None (newSession 0%nat)
           (Trace.final
              (Driver.connectToDevice Sample.rejecting05 Sample.info
                 (Eff.set_deviceInfo (Some Sample.info) (newSession 0%nat))))
           (Trace.final
              (Protocol.executeInitSequence Sample.rejecting05
                 (Eff.set_protocol_deviceName (deviceName Sample.info)
                    (Trace.final
                       (Driver.connectToDevice Sample.rejecting05 Sample.info
                          (Eff.set_deviceInfo (Some Sample.info)
                             (newSession 0%nat)))))))
           (Trace.events
              (Driver.connectToDevice Sample.rejecting05 Sample.info
                 (Eff.set_deviceInfo (Some Sample.info) (newSession 0%nat))))
           (Trace.events
              (Protocol.executeInitSequence Sample.rejecting05
                 (Eff.set_protocol_deviceName (deviceName Sample.info)
                    (Trace.final
                       (Driver.connectToDevice Sample.rejecting05 Sample.info
                          (Eff.set_deviceInfo (Some Sample.info)
                             (newSession 0%nat)))))))
           2%nat 0x05).
  - exact I.
  - vm_compute. reflexivity.
  - vm_compute. reflexivity.
Defined.

Lemma str_eqb_nil_or_eq (a b : JsString) : Js.str_eqb a b = true <-> a = b.
Proof.
  revert b; induction a as [|x a IH]; intros [|y b]; simpl;
    try (split; congruence).
  rewrite andb_true_iff, ascii_eqb_true, IH. split.
  - intros [-> ->]; reflexivity.
  - intros [= -> ->]; auto.
Qed.

(* ================================================================== *)
(** * Part III: further properties of the driver and the protocol       *)
(* ================================================================== *)

(** ** The three record processors *)

Lemma is_str_true (v : option JsString) (lit : string) :
  Driver.is_str v lit = true <-> v = Some (lit : JsString).
Proof.
  destruct v as [s|]; simpl; [|split; discriminate].
  rewrite (str_eqb_nil_or_eq s lit). split; [now intros -> | now intros [= ->]].
Qed.

Lemma is_str_false (v : option JsString) (lit : string) :
  Driver.is_str v lit = false <-> v <> Some (lit : JsString).
Proof.
  rewrite <- is_str_true. destruct (Driver.is_str v lit); split; congruence.
Qed.

Ltac record_cases toISOString this_deviceInfo fields b :=
  unfold Driver.processGlucoseRecord, Driver.processKetoneRecord,
    Driver.processTimeChangeRecord, Driver.formatDeviceTime,
    Driver.call_toISOString, Pure.get_of_nullable, Pure.try_catch, Pure.bind,
    Js.num_eqb;
  repeat match goal with
  | |- context [Driver.is_str ?v ?lit] =>
      let E := fresh "E" in
      destruct (Driver.is_str v lit) eqn:E;
      [apply is_str_true in E | apply is_str_false in E]
  end;
  repeat match goal with
  | |- context [Js.parseInt ?a None] =>
      let E := fresh "E" in destruct (Js.parseInt a None) eqn:E
  end;
  repeat match goal with
  | |- context [(?z =? ?n)] =>
      let E := fresh "E" in destruct (Z.eqb_spec z n) as [E|E]
  end;
  repeat match goal with
  | |- context [toISOString ?t] =>
      let E := fresh "E" in destruct (toISOString t) eqn:E
  end;
  destruct this_deviceInfo;
  cbn [negb Driver.some_if_nonempty Driver.add2000 Driver.minus1 option_map];
  subst.

(** X1.  [processGlucoseRecord] returns a record exactly when field 10
    does not parse to 0, field 8 is "HI", "LO" or starts with an integer,
    the timestamp of the base record is a valid date and [deviceInfo] is
    set; in every other case it returns null, and it never throws.  A
    record returned for a field 8 that is neither "HI" nor "LO" carries
    the parsed integer and no annotations; every record returned keeps the
    base record, the ISO time without its first "Z" and the two
    identifiers of [deviceInfo].  A line too short to have a field 10 is
    not taken for a control test. *)
Theorem processGlucoseRecord_returns_iff :
  forall (toISOString : DateArgs -> option JsString)
         (this_deviceInfo : option DeviceInfo)
         (fields : list JsString) (b : BaseRecord),
    let result :=
      Driver.processGlucoseRecord toISOString this_deviceInfo fields b in
    let field8 := nth_error fields 8 in
    (result <> Normal None <->
       Js.parseInt (nth_error fields 10) None <> Some 0
       /\ (field8 = Some ("HI" : JsString) \/ field8 = Some ("LO" : JsString)
           \/ Js.parseInt field8 None <> None)
       /\ toISOString (timestamp b) <> None
       /\ this_deviceInfo <> None)
    /\ (result = Normal None
        \/ exists v a iso d,
             result = Normal (Some (Glucose b v a (Js.removeFirst "Z" iso)
                                      (deviceId d) (serialNumber d)))
             /\ toISOString (timestamp b) = Some iso
             /\ this_deviceInfo = Some d
             /\ (field8 <> Some ("HI" : JsString) ->
                 field8 <> Some ("LO" : JsString) ->
                 Js.parseInt field8 None = Some v /\ a = None))
    /\ ((List.length fields <= 10)%nat ->
        Js.parseInt (nth_error fields 10) None <> Some 0).
Proof.
  intros toISOString this_deviceInfo fields b result field8.
  subst result field8.
  split; [|split].
  - record_cases toISOString this_deviceInfo fields b;
      intuition congruence.
  - record_cases toISOString this_deviceInfo fields b;
      try (left; reflexivity); right;
      do 4 eexists; (split; [reflexivity|]); repeat split; congruence.
  - intros Hlen. apply nth_error_None in Hlen. rewrite Hlen. discriminate.
Qed.

(** X2.  [processKetoneRecord] reads its control flag in field 9 (not in
    field 10 as the glucose method does) and gives no special meaning to
    "LO": it returns a record exactly when field 9 does not parse to 0,
    field 8 is "HI" or starts with an integer, the timestamp is valid and
    [deviceInfo] is set, and null otherwise.  "HI" gives the value above
    the ketone ceiling with one annotation; an integer is kept as the raw
    value to be divided by 18, without annotation; a field 8 equal to "LO"
    always gives null. *)
Theorem processKetoneRecord_returns_iff :
  forall (toISOString : DateArgs -> option JsString)
         (this_deviceInfo : option DeviceInfo)
         (fields : list JsString) (b : BaseRecord),
    let result :=
      Driver.processKetoneRecord toISOString this_deviceInfo fields b in
    let field8 := nth_error fields 8 in
    (result <> Normal None <->
       Js.parseInt (nth_error fields 9) None <> Some 0
       /\ (field8 = Some ("HI" : JsString) \/ Js.parseInt field8 None <> None)
       /\ toISOString (timestamp b) <> None
       /\ this_deviceInfo <> None)
    /\ (result = Normal None
        \/ exists v a iso d,
             result = Normal (Some (Ketone b v a (Js.removeFirst "Z" iso)
                                      (deviceId d) (serialNumber d)))
             /\ toISOString (timestamp b) = Some iso
             /\ this_deviceInfo = Some d
             /\ (field8 = Some ("HI" : JsString) ->
                 v = KetoneHI
                 /\ a = Some [ {| code := "ketone/out-of-range";
                                  value := "high"; threshold := 8 |} ])
             /\ (field8 <> Some ("HI" : JsString) ->
                 exists rawValue,
                   Js.parseInt field8 None = Some rawValue
                   /\ v = KetoneRaw rawValue /\ a = None))
    /\ (field8 = Some ("LO" : JsString) -> result = Normal None).
Proof.
  intros toISOString this_deviceInfo fields b result field8.
  subst result field8.
  split; [|split].
  - record_cases toISOString this_deviceInfo fields b;
      intuition congruence.
  - record_cases toISOString this_deviceInfo fields b;
      try (left; reflexivity); right;
      do 4 eexists; (split; [reflexivity|]);
      repeat split; try congruence; eauto.
  - intros HLO. unfold Driver.processKetoneRecord. rewrite HLO.
    destruct (Js.num_eqb _ 0); reflexivity.
Qed.

(** X3.  [processTimeChangeRecord] returns a record exactly when field 7
    parses to 1, the date built from fields 8 to 12 and the timestamp of
    the base record are both valid and [deviceInfo] is set; otherwise it
    returns null, and it never throws.  In a record it returns, the end of
    the change and the device time are the same string.  Field 7 is also
    the field [parseRecord] reads the seconds from: with the base record
    of [commonFields], every time change that is accepted is stamped at
    second 1. *)
Theorem processTimeChangeRecord_returns_iff :
  forall (toISOString : DateArgs -> option JsString)
         (this_deviceInfo : option DeviceInfo)
         (fields : list JsString) (b : BaseRecord),
    let result :=
      Driver.processTimeChangeRecord toISOString this_deviceInfo fields b in
    let fromTimestamp :=
      {| year := Driver.add2000 (Js.parseInt (nth_error fields 10) None);
         monthIndex := Driver.minus1 (Js.parseInt (nth_error fields 8) None);
         day := Js.parseInt (nth_error fields 9) None;
         hours := Js.parseInt (nth_error fields 11) None;
         minutes := Js.parseInt (nth_error fields 12) None;
         seconds := Some 0 |} in
    (result <> Normal None <->
       Js.parseInt (nth_error fields 7) None = Some 1
       /\ toISOString fromTimestamp <> None
       /\ toISOString (timestamp b) <> None
       /\ this_deviceInfo <> None)
    /\ (result = Normal None
        \/ exists isoFrom iso d,
             result = Normal (Some (TimeChange b (Js.removeFirst "Z" isoFrom)
                                      (Js.removeFirst "Z" iso)
                                      (Js.removeFirst "Z" iso)
                                      (deviceId d) (serialNumber d)))
             /\ toISOString fromTimestamp = Some isoFrom
             /\ toISOString (timestamp b) = Some iso
             /\ this_deviceInfo = Some d)
    /\ (forall record,
          b = Driver.commonFields record fields ->
          result <> Normal None ->
          seconds (timestamp b) = Some 1).
Proof.
  intros toISOString this_deviceInfo fields b result fromTimestamp.
  assert (Hiff : result <> Normal None <->
       Js.parseInt (nth_error fields 7) None = Some 1
       /\ toISOString fromTimestamp <> None
       /\ toISOString (timestamp b) <> None
       /\ this_deviceInfo <> None).
  { subst result fromTimestamp.
    unfold Driver.processTimeChangeRecord, Driver.formatDeviceTime,
      Driver.call_toISOString, Pure.get_of_nullable, Pure.try_catch,
      Pure.bind, Js.num_eqb.
    destruct (Js.parseInt (nth_error fields 7) None) as [z|] eqn:E7;
      [destruct (Z.eqb_spec z 1) as [->|Hz]|]; cbn [negb];
      try (split; [congruence | intros (H & _); congruence]).
    match goal with
    | |- context [toISOString ?t] => destruct (toISOString t) eqn:Efrom
    end;
    destruct (toISOString (timestamp b)) eqn:Eto;
    destruct this_deviceInfo; intuition congruence. }
  split; [exact Hiff|split].
  - subst result fromTimestamp.
    unfold Driver.processTimeChangeRecord, Driver.formatDeviceTime,
      Driver.call_toISOString, Pure.get_of_nullable, Pure.try_catch,
      Pure.bind.
    destruct (Js.num_eqb (Js.parseInt (nth_error fields 7) None) 1);
      cbn [negb]; [|left; reflexivity].
    match goal with
    | |- context [toISOString ?t] => destruct (toISOString t) eqn:Efrom
    end;
    destruct (toISOString (timestamp b)) eqn:Eto;
    destruct this_deviceInfo; try (left; reflexivity).
    right. do 3 eexists. repeat split; reflexivity.
  - intros record -> Hres. apply Hiff in Hres as (H7 & _).
    cbn [Driver.commonFields timestamp seconds]. now rewrite H7.
Qed.

(** X4.  [processRecords] never throws and treats the lines of a batch
    one by one, in order: the result for two batches put end to end is the
    two results put end to end.  It never returns more records than it
    was given lines, and the raw lines of the records it returns are, in
    order, the lines of the batch that were kept. *)
Theorem processRecords_append :
  forall (toISOString : DateArgs -> option JsString)
         (this_deviceInfo : option DeviceInfo)
         (batch1 batch2 : list JsString),
  exists out1 out2,
    Driver.processRecords toISOString this_deviceInfo batch1 = Normal out1
    /\ Driver.processRecords toISOString this_deviceInfo batch2 = Normal out2
    /\ Driver.processRecords toISOString this_deviceInfo (batch1 ++ batch2)
       = Normal (out1 ++ out2)
    /\ (List.length out1 <= List.length batch1)%nat
    /\ map RecordSpec.rawOf out1 = filter RecordSpec.kept batch1.
Proof.
  intros toISOString this_deviceInfo batch1 batch2.
  exists (RecordSpec.emittedList batch1), (RecordSpec.emittedList batch2).
  rewrite !processRecords_emitted.
  repeat split.
  - unfold RecordSpec.emittedList. now rewrite flat_map_app.
  - unfold RecordSpec.emittedList.
    induction batch1 as [|r rest IH]; simpl; [lia|].
    destruct (RecordSpec.emitted r); simpl; lia.
  - unfold RecordSpec.emittedList.
    induction batch1 as [|r rest IH]; simpl; [reflexivity|].
    unfold RecordSpec.emitted, RecordSpec.kept at 1.
    cbv zeta. cbn [type Driver.commonFields].
    rewrite Nat.leb_antisym.
    destruct (List.length (Js.split "," r) <? 8)%nat; cbn [negb andb];
      [exact IH|].
    destruct (RecordSpec.typedCode _); cbn [negb]; [exact IH|].
    cbn [app map RecordSpec.rawOf raw]. f_equal. exact IH.
Qed.

(** ** The two copies of [parseTextResponse] *)

Lemma split_first_segment (d rest cur : JsString) :
  Forall (fun x => x <> TextRegex.CR) d ->
  Js.split_from TextRegex.crlf O cur (d ++ TextRegex.crlf ++ rest)
  = (rev cur ++ d) :: Js.split_from TextRegex.crlf 1 [] (TextRegex.LF :: rest).
Proof.
  revert cur; induction d as [|c d IH]; intros cur H.
  - rewrite app_nil_r. reflexivity.
  - cbn [app Js.split_from].
    change (Js.stripPrefix TextRegex.crlf (c :: d ++ TextRegex.crlf ++ rest))
      with (if Js.ascii_eqb TextRegex.CR c
            then Js.stripPrefix [TextRegex.LF] (d ++ TextRegex.crlf ++ rest)
            else None).
    inversion H as [|? ? Hc Hd]; subst.
    destruct (Js.ascii_eqb TextRegex.CR c) eqn:E.
    + apply ascii_eqb_true in E. congruence.
    + rewrite IH by assumption. cbn [rev]. now rewrite <- app_assoc.
Qed.

Lemma split_nonempty (sep s cur : JsString) (skip : nat) :
  exists line0 more, Js.split_from sep skip cur s = line0 :: more.
Proof.
  revert skip cur; induction s as [|c s IH]; intros skip cur.
  - simpl. eauto.
  - cbn [Js.split_from]. destruct skip; [|apply IH].
    destruct (Js.stripPrefix sep (c :: s)); [eauto | apply IH].
Qed.

Lemma Forall_not_CR (d : JsString) :
  Forall (fun x => x <> TextRegex.CR) d -> ~ In TextRegex.CR d.
Proof. rewrite Forall_forall. intros H Hin. exact (H _ Hin eq_refl). Qed.

(** X5.  Whenever one of the two copies of [parseTextResponse] returns a
    string, that string is the first segment of the response cut at CR LF.
    What the driver returns holds no CR, and the copy in App.tsx returns
    the same string for the same response. *)
Theorem parsed_data_is_first_segment :
  forall (response data : JsString),
    (fst (Driver.parseTextResponse response) = Some data ->
       ~ In TextRegex.CR data
       /\ (exists more, Js.split TextRegex.crlf response = data :: more)
       /\ fst (App.parseTextResponse response) = Some data)
    /\ (fst (App.parseTextResponse response) = Some data ->
          exists more, Js.split TextRegex.crlf response = data :: more).
Proof.
  intros response data.
  assert (Hmatch : forall m, TextRegex.regex_match response = Some m ->
            ~ In TextRegex.CR (TextRegex.data m)
            /\ exists more,
                 Js.split TextRegex.crlf response = TextRegex.data m :: more).
  { intros m Hm. apply regex_match_sound in Hm as (rest & -> & Hd & _).
    split; [now apply Forall_not_CR|].
    unfold Js.split. rewrite split_first_segment by assumption. eauto. }
  unfold Driver.parseTextResponse, App.parseTextResponse.
  destruct (_ || _); [split; discriminate|].
  destruct (TextRegex.regex_match response) as [m|] eqn:Hm.
  - destruct (Hmatch m eq_refl) as [Hcr Hsplit].
    destruct (negb (Js.str_eqb (TextRegex.status m) "OK"));
      [split; discriminate|].
    split.
    + intros [= <-]. repeat split; auto.
      destruct (negb _); reflexivity.
    + destruct (negb _); intros [= <-]; exact Hsplit.
  - split; [discriminate|].
    destruct (Js.split TextRegex.crlf response) as [|line0 more];
      [discriminate|].
    destruct (negb _); [|discriminate].
    intros [= <-]. eauto.
Qed.

(** X6.  The two copies of [parseTextResponse] return the same value on
    every blank response and on every response that has the shape of the
    format.  On any other response the driver returns null, while the
    copy in App.tsx returns the first segment of the response cut at CR LF
    unless that segment is blank. *)
Theorem parsers_agree_unless_fallback :
  forall response : JsString,
    (TextSpec.blank response = true \/ TextRegex.wellFormed response ->
       fst (Driver.parseTextResponse response)
       = fst (App.parseTextResponse response))
    /\ (TextSpec.blank response = false ->
        ~ TextRegex.wellFormed response ->
        fst (Driver.parseTextResponse response) = None
        /\ exists line0 more,
             Js.split TextRegex.crlf response = line0 :: more
             /\ fst (App.parseTextResponse response)
                = if Js.str_eqb (Js.trim line0) [] then None else Some line0).
Proof.
  intros response.
  unfold Driver.parseTextResponse, App.parseTextResponse, TextSpec.blank.
  destruct (_ || _) eqn:Hblank.
  - split; [reflexivity | discriminate].
  - split.
    + intros [H|H]; [discriminate|].
      destruct (TextRegex.regex_match response) as [m|] eqn:Hm.
      * destruct (negb (Js.str_eqb _ "OK")); [reflexivity|].
        destruct (negb _); reflexivity.
      * apply regex_match_None_iff in Hm. contradiction.
    + intros _ H. apply regex_match_None_iff in H. rewrite H.
      split; [reflexivity|].
      destruct (split_nonempty TextRegex.crlf response [] O)
        as (line0 & more & Hsplit).
      unfold Js.split. rewrite Hsplit. exists line0, more.
      split; [reflexivity|].
      destruct (Js.str_eqb (Js.trim line0) []); reflexivity.
Qed.

(** *** The checksum field *)








Lemma not_blank_of_letter (s : JsString) :
  In "C"%char s -> TextSpec.blank s = false.
Proof.
  intros HC. unfold TextSpec.blank. apply orb_false_iff. split.
  - destruct (Js.str_eqb s []) eqn:E; [|reflexivity].
    apply str_eqb_nil in E. rewrite E in HC. destruct HC.
  - destruct (Js.str_eqb (Js.trim s) []) eqn:E; [|reflexivity].
    apply str_eqb_nil in E.
    pose proof (In_trim "C"%char _ HC eq_refl) as H. rewrite E in H. destruct H.
Qed.



(** X8.  A framed response whose status is Fail! makes both copies of
    [parseTextResponse] return null and report the failed command,
    whatever data and checksum the response carries: the data of a failed
    command is never handed to the caller, not even by the lenient copy
    in App.tsx. *)
Theorem failed_command_yields_null :
  forall (d c rest : JsString),
    Forall (fun x => x <> TextRegex.CR) d ->
    List.length c = 8%nat ->
    Forall (fun x => TextRegex.isHexUpper x = true) c ->
    Driver.parseTextResponse (TextSpec.failResponse d c ++ rest)
    = (None, [TextRegex.ErrorCommandFailed "Fail!"])
    /\ App.parseTextResponse (TextSpec.failResponse d c ++ rest)
       = (None, [TextRegex.ErrorCommandFailed "Fail!"]).
Proof.
  intros d c rest Hd Hlen Hhex.
  assert (Hblank : TextSpec.blank (TextSpec.failResponse d c ++ rest) = false).
  { apply not_blank_of_letter. unfold TextSpec.failResponse.
    apply in_or_app. left. apply in_or_app. right. simpl. tauto. }
  unfold TextSpec.blank in Hblank.
  unfold Driver.parseTextResponse, App.parseTextResponse.
  rewrite Hblank.
  replace (TextSpec.failResponse d c ++ rest)
    with (d ++ TextRegex.crlf ++ "CKSM:" ++ c ++ TextRegex.crlf
            ++ "CMD " ++ "Fail!" ++ TextRegex.crlf ++ rest)
    by (unfold TextSpec.failResponse; now rewrite <- !app_assoc).
  rewrite regex_match_complete by auto.
  split; reflexivity.
Qed.

Lemma failed_command_yields_null_witness :
  Driver.parseTextResponse (TextSpec.failResponse "X1234" "000001A6" ++ [])
  = (None, [TextRegex.ErrorCommandFailed "Fail!"])
  /\ App.parseTextResponse (TextSpec.failResponse "X1234" "000001A6" ++ [])
     = (None, [TextRegex.ErrorCommandFailed "Fail!"]).
Proof.
  apply (failed_command_yields_null ("X1234" : JsString) ("000001A6" : JsString) []).
  - repeat constructor; discriminate.
  - reflexivity.
  - repeat constructor.
Defined.

(** ** Frames read back *)




(** ** Runs of the session methods *)

Section Runs.

Context {T : Type}.

Lemma try_catch_rethrow {A} (m : Eff.M T A) (s : Session T) :
  Eff.try_catch m (fun error => Eff.throw error) s = m s.
Proof.
  unfold Eff.try_catch, Eff.throw.
  destruct (m s) as [[[a|e] s1] t1]; [reflexivity|].
  now rewrite app_nil_r.
Qed.

End Runs.

Lemma filter_length_app {A} (p : A -> bool) (l1 l2 : list A) :
  List.length (filter p (l1 ++ l2))
  = (List.length (filter p l1) + List.length (filter p l2))%nat.
Proof. now rewrite filter_app, length_app. Qed.

Lemma totalDelay_app (t1 t2 : list Event) :
  Trace.totalDelay (t1 ++ t2) = Trace.totalDelay t1 + Trace.totalDelay t2.
Proof.
  unfold Trace.totalDelay.
  induction t1 as [|e t1 IH]; simpl; [reflexivity|].
  destruct e; lia.
Qed.

Lemma noSetup_app (t1 t2 : list Event) :
  Trace.noSetup t1 -> Trace.noSetup t2 -> Trace.noSetup (t1 ++ t2).
Proof. intros H1 H2. apply Forall_app. now split. Qed.

(** ** Text requests of the protocol *)

Lemma requestTextResponse_uninitialized {T} (usb : UsbModule T)
  (command : JsString) (s : Session T) :
  protocol_isInitialized s = false ->
  Protocol.requestTextResponse usb command s = (Throw ErrNotInitialized, s, []).
Proof.
  intros H. unfold Protocol.requestTextResponse.
  rewrite try_catch_rethrow. unfold_eff. now rewrite H.
Qed.

(** X10.  [requestTextResponse] makes no call at all on a protocol that is
    not initialized and fails with the error of that case.  Otherwise it
    writes the command frame exactly once and never retries: a write that
    rejects or returns a negative count ends the request without any
    read; after any other write it reads exactly once, with the timeout
    of 5000 ms, and fails with the no-response error when the read gives
    null or an empty array.  It changes no field of the driver or of the
    protocol, whatever happens. *)
Theorem requestTextResponse_single_exchange :
  forall (T : Type) (usb : UsbModule T) (command : JsString) (s : Session T),
    let run := Protocol.requestTextResponse usb command s in
    let name := protocol_deviceName s in
    let frame := Protocol.createTextCommandFrame command in
    let written := writeData usb name frame (transport s) in
    let answered := readData usb name Protocol.TIMEOUT (snd written) in
    Trace.sameFields s (Trace.final run)
    /\ (protocol_isInitialized s = false ->
        run = (Throw ErrNotInitialized, s, []))
    /\ (protocol_isInitialized s = true ->
        match fst written with
        | Throw e =>
            Trace.result run = Throw e
            /\ Trace.events run = [EvWrite name frame (fst written)]
        | Normal n =>
            if n <? 0 then
              Trace.result run = Throw (ErrTextWrite n)
              /\ Trace.events run = [EvWrite name frame (fst written)]
            else
              Trace.events run
              = [EvWrite name frame (fst written); EvRead name Protocol.TIMEOUT]
              /\ Trace.result run
                 = match fst answered with
                   | Throw e => Throw e
                   | Normal None | Normal (Some []) => Throw ErrNoResponse
                   | Normal (Some bytes) =>
                       Normal (Protocol.fromCharCode
                                 (filter Protocol.printable bytes))
                   end
        end).
Proof.
  intros T usb command s run name frame written answered.
  subst run written answered name frame.
  unfold Protocol.requestTextResponse.
  rewrite try_catch_rethrow.
  unfold_eff.
  destruct (protocol_isInitialized s) eqn:Hinit; cbn [negb].
  2: { repeat split; intros; discriminate. }
  destruct (writeData usb (protocol_deviceName s)
              (Protocol.createTextCommandFrame command) (transport s))
    as [[n|e] t1] eqn:Hw; cbn [fst snd].
  2: { repeat split; intros; try discriminate; reflexivity. }
  destruct (n <? 0) eqn:Hn.
  { repeat split; intros; try discriminate; reflexivity. }
  cbn [protocol_deviceName Eff.set_transport transport].
  destruct (readData usb (protocol_deviceName s) Protocol.TIMEOUT t1)
    as [[[bytes|]|e] t2] eqn:Hr; cbn [fst snd].
  - destruct bytes as [|b bytes];
      repeat split; intros; try discriminate; reflexivity.
  - repeat split; intros; try discriminate; reflexivity.
  - repeat split; intros; try discriminate; reflexivity.
Qed.

(** ** The handshake: outcome and cost *)

Lemma outcome_Throw_inv (commands : list Z) :
  forall (i : nat) (attempts : list Handshake.Attempts) e,
    Handshake.outcome i commands attempts = Throw e ->
    exists k c, nth_error commands k = Some c
                /\ e = ErrInitCommand (i + k + 1) c.
Proof.
  induction commands as [|c cs IH]; intros i attempts e; [discriminate|].
  destruct attempts as [|a rest]; [discriminate|]. cbn [Handshake.outcome].
  destruct (Handshake.accepted a).
  - intros H. apply IH in H as (k & c' & Hk & ->).
    exists (S k), c'. split; [exact Hk|]. f_equal. lia.
  - intros [= <-]. exists O, c. split; [reflexivity|]. f_equal. lia.
Qed.

Lemma protocol_initCommunication_spec {T} (usb : UsbModule T)
  (name : option JsString) (s : Session T) :
  let run := Protocol.initCommunication usb name s in
  protocol_deviceName (Trace.final run) = name
  /\ deviceInfo (Trace.final run) = deviceInfo s
  /\ isConnected (Trace.final run) = isConnected s
  /\ Trace.events run
     = Trace.events
         (Protocol.executeInitSequence usb (Eff.set_protocol_deviceName name s))
  /\ Trace.result run
     = Trace.result
         (Protocol.executeInitSequence usb (Eff.set_protocol_deviceName name s))
  /\ ((Trace.result run = Normal true
       /\ protocol_isInitialized (Trace.final run) = true)
      \/ (exists k c,
            nth_error Protocol.INIT_SEQUENCE k = Some c
            /\ Trace.result run = Throw (ErrInitCommand (k + 1) c)
            /\ protocol_isInitialized (Trace.final run) = false)).
Proof.
  intros run. subst run.
  destruct (executeInitSequence_spec usb (Eff.set_protocol_deviceName name s))
    as (written & attempts & s' & Hrun & _ & _ & Hsame).
  destruct Hsame as (Hinfo & Hconn & Hname & _).
  unfold Protocol.initCommunication. unfold_eff. rewrite Hrun.
  destruct (Handshake.outcome 0 Protocol.INIT_SEQUENCE attempts) as [[]|e] eqn:Ho.
  - cbn. rewrite !app_nil_r. repeat split; auto.
  - apply outcome_Throw_inv in Ho as (k & c & Hk & ->).
    cbn. rewrite !app_nil_r. repeat split; auto.
    right. exists k, c. auto.
Qed.

Lemma driver_initCommunication_spec :
  forall (T : Type) (usb : UsbModule T) (name : option JsString)
         (s : Session T),
    let run := Driver.initCommunication usb name s in
    run = Protocol.initCommunication usb name s
    /\ protocol_deviceName (Trace.final run) = name
    /\ deviceInfo (Trace.final run) = deviceInfo s
    /\ isConnected (Trace.final run) = isConnected s
    /\ ((Trace.result run = Normal true
         /\ protocol_isInitialized (Trace.final run) = true)
        \/ (exists k c,
              nth_error Protocol.INIT_SEQUENCE k = Some c
              /\ Trace.result run = Throw (ErrInitCommand (k + 1) c)
              /\ protocol_isInitialized (Trace.final run) = false)).
Proof.
  intros T usb name s run.
  pose proof (protocol_initCommunication_spec usb name s) as H.
  cbv zeta in H. destruct H as (Hname & Hinfo & Hconn & _ & _ & Hres).
  assert (Heq : run = Protocol.initCommunication usb name s).
  { subst run. unfold Driver.initCommunication.
    rewrite try_catch_rethrow. unfold Eff.bind.
    destruct (Protocol.initCommunication usb name s) as [[r s1] t1].
    cbn [Trace.result fst] in Hres.
    destruct Hres as [[-> _] | (k & c & _ & -> & _)]; cbn;
      rewrite ?app_nil_r; reflexivity. }
  rewrite Heq. auto.
Qed.

(** X11.  [initCommunication] of the driver adds nothing to the method of
    the protocol it calls: both give the same completion, session and
    events.  The method records the device name, leaves [deviceInfo] and
    [isConnected] alone and ends in one of two ways: it returns true with
    the protocol marked initialized, or it throws the error of the init
    command at position k + 1 of the sequence with the protocol marked not
    initialized.  It never returns false, and its two errors for a failed
    sequence and a failed protocol are never thrown. *)
Theorem initCommunication_outcome :
  forall (T : Type) (usb : UsbModule T) (name : option JsString)
         (s : Session T),
    let run := Driver.initCommunication usb name s in
    run = Protocol.initCommunication usb name s
    /\ protocol_deviceName (Trace.final run) = name
    /\ deviceInfo (Trace.final run) = deviceInfo s
    /\ isConnected (Trace.final run) = isConnected s
    /\ ((Trace.result run = Normal true
         /\ protocol_isInitialized (Trace.final run) = true)
        \/ (exists k c,
              nth_error Protocol.INIT_SEQUENCE k = Some c
              /\ Trace.result run = Throw (ErrInitCommand (k + 1) c)
              /\ protocol_isInitialized (Trace.final run) = false)).
Proof. exact driver_initCommunication_spec. Qed.

Lemma attemptEvents_cost name command (a : Handshake.Attempts) :
  Trace.writes (Handshake.attemptEvents name command a)
  = S (List.length (Handshake.failedCounts a))
  /\ Trace.reads (Handshake.attemptEvents name command a) = 0%nat
  /\ Trace.totalDelay (Handshake.attemptEvents name command a)
     = 1000 * Z.of_nat (List.length (Handshake.failedCounts a))
  /\ Trace.noSetup (Handshake.attemptEvents name command a).
Proof.
  unfold Handshake.attemptEvents, Trace.writes, Trace.reads, Trace.noSetup.
  induction (Handshake.failedCounts a) as [|n l (IHw & IHr & IHd & IHs)].
  - simpl. repeat split. repeat constructor.
  - cbn [flat_map app filter Trace.isWrite Trace.isRead List.length
           Trace.totalDelay fold_right].
    fold (Trace.totalDelay
            (flat_map (fun n => [EvWrite name (Protocol.createHIDFrame command None)
                                   (Normal n); EvDelay Protocol.RETRY_DELAY]) l
             ++ [EvWrite name (Protocol.createHIDFrame command None)
                   (Handshake.lastResult a)])).
    rewrite IHw, IHr, IHd. unfold Protocol.RETRY_DELAY.
    repeat split; try lia.
    repeat (constructor; [reflexivity|]). exact IHs.
Qed.

Lemma commandEvents_cost name command (a : Handshake.Attempts) :
  Handshake.wellFormed a ->
  let tr := Handshake.commandEvents name command a in
  (1 <= Trace.writes tr <= 3)%nat
  /\ (Trace.reads tr <= (if (command =? 0)%Z then 0 else 1))%nat
  /\ 0 <= Trace.totalDelay tr <= 2000
  /\ Trace.noSetup tr.
Proof.
  intros (_ & Hlen & _) tr. subst tr.
  destruct (attemptEvents_cost name command a) as (Hw & Hr & Hd & Hs).
  unfold Handshake.commandEvents, Trace.writes, Trace.reads in *.
  rewrite !filter_length_app, totalDelay_app, Hw, Hr, Hd.
  assert (Hno : Trace.noSetup
                  (if Handshake.accepted a
                   then if command =? 0 then [] else [EvRead name Protocol.TIMEOUT]
                   else [])).
  { destruct (Handshake.accepted a), (command =? 0); repeat constructor. }
  split; [|split; [|split; [|now apply noSetup_app]]];
    destruct (Handshake.accepted a), (command =? 0);
    cbn [filter Trace.isWrite Trace.isRead List.length Trace.totalDelay
           fold_right]; lia.
Qed.

Lemma handshakeEvents_cost name (commands : list Z) :
  forall attempts,
    Forall Handshake.wellFormed attempts ->
    let tr := Handshake.handshakeEvents name commands attempts in
    (Trace.writes tr <= 3 * List.length commands)%nat
    /\ (Trace.reads tr
        <= List.length (filter (fun c => negb (c =? 0)%Z) commands))%nat
    /\ 0 <= Trace.totalDelay tr <= 3000 * Z.of_nat (List.length commands)
    /\ Trace.noSetup tr
    /\ (List.length attempts = List.length commands ->
        Forall (fun a => Handshake.accepted a = true) attempts ->
        (List.length commands <= Trace.writes tr)%nat
        /\ 1000 * Z.of_nat (List.length commands) <= Trace.totalDelay tr).
Proof.
  induction commands as [|c cs IH]; intros attempts Hall tr; subst tr.
  - simpl. unfold Trace.writes, Trace.reads. simpl.
    repeat split; try lia. constructor.
  - destruct attempts as [|a rest].
    { cbn [Handshake.handshakeEvents]. unfold Trace.writes, Trace.reads.
      cbn [filter List.length Trace.totalDelay fold_right].
      repeat split; try lia; try constructor; discriminate. }
    inversion Hall as [|? ? Ha Hrest]; subst.
    cbn [Handshake.handshakeEvents].
    pose proof (commandEvents_cost name c a Ha) as H. cbv zeta in H.
    destruct H as (Hw & Hr & Hd & Hs).
    specialize (IH rest Hrest). cbv zeta in IH.
    destruct IH as (IHw & IHr & IHd & IHs & IHok).
    unfold Trace.writes, Trace.reads in *.
    rewrite !filter_length_app, totalDelay_app.
    cbn [filter List.length].
    assert (Hreads :
              List.length (if negb (c =? 0)
                           then c :: filter (fun c0 => negb (c0 =? 0)) cs
                           else filter (fun c0 => negb (c0 =? 0)) cs)
              = ((if (c =? 0)%Z then 0 else 1)
                 + List.length (filter (fun c0 => negb (c0 =? 0)%Z) cs))%nat)
      by (destruct (c =? 0); reflexivity).
    rewrite Hreads.
    destruct (Handshake.accepted a) eqn:Hacc.
    + cbn [filter Trace.isWrite Trace.isRead List.length Trace.totalDelay
             fold_right].
      fold (Trace.totalDelay (Handshake.handshakeEvents name cs rest)).
      unfold Protocol.RETRY_DELAY.
      split; [lia|]. split; [lia|]. split; [lia|].
      split.
      { apply noSetup_app; [exact Hs|]. constructor; [reflexivity|exact IHs]. }
      intros Hlen Hok. inversion Hok; subst.
      destruct IHok as [IHw' IHd']; [simpl in Hlen; lia | assumption |].
      split; lia.
    + cbn [filter List.length Trace.totalDelay fold_right].
      split; [lia|]. split; [lia|]. split; [lia|].
      split; [apply noSetup_app; [exact Hs | constructor]|].
      intros _ Hok. inversion Hok; subst. congruence.
Qed.

Lemma executeInitSequence_cost :
  forall (T : Type) (usb : UsbModule T) (s : Session T),
    let run := Protocol.executeInitSequence usb s in
    let tr := Trace.events run in
    (Trace.writes tr <= 16)%nat
    /\ (Trace.reads tr <= 5)%nat
    /\ 60000 <= Trace.totalDelay tr <= 75500
    /\ Trace.noSetup tr
    /\ (Trace.result run = Normal true ->
        (6 <= Trace.writes tr)%nat /\ 65000 <= Trace.totalDelay tr).
Proof.
  intros T usb s run tr. subst tr run.
  destruct (executeInitSequence_spec usb s)
    as (written & attempts & s' & Hrun & Hcov & Hall & _).
  rewrite Hrun. cbn [Trace.events Trace.result fst snd].
  pose proof (handshakeEvents_cost (protocol_deviceName s)
                Protocol.INIT_SEQUENCE attempts Hall) as H.
  cbv zeta in H. destruct H as (Hw & Hr & Hd & Hs & Hok).
  change (List.length Protocol.INIT_SEQUENCE) with 5%nat in *.
  change (List.length (filter (fun c => negb (c =? 0)) Protocol.INIT_SEQUENCE))
    with 4%nat in Hr.
  set (hs := Handshake.handshakeEvents (protocol_deviceName s)
               Protocol.INIT_SEQUENCE attempts) in *.
  assert (Hwake : (Trace.writes
                     (Handshake.wakeUpEvents (protocol_deviceName s) written)
                   = 1)%nat
                  /\ (Trace.reads
                        (Handshake.wakeUpEvents (protocol_deviceName s) written)
                      <= 1)%nat
                  /\ 0 <= Trace.totalDelay
                            (Handshake.wakeUpEvents (protocol_deviceName s) written)
                       <= 500
                  /\ Trace.noSetup
                       (Handshake.wakeUpEvents (protocol_deviceName s) written)).
  { unfold Handshake.wakeUpEvents.
    destruct written; cbn; repeat split; try lia; repeat constructor. }
  destruct Hwake as (Ww & Wr & Wd & Ws).
  unfold Trace.writes, Trace.reads in *.
  rewrite !filter_length_app, totalDelay_app.
  cbn [filter Trace.isWrite Trace.isRead List.length Trace.totalDelay fold_right].
  fold (Trace.totalDelay hs).
  split; [lia|]. split; [lia|]. split; [lia|].
  split.
  { apply noSetup_app; [exact Ws|]. constructor; [reflexivity | exact Hs]. }
  intros Hres.
  assert (Hnorm : Handshake.outcome 0 Protocol.INIT_SEQUENCE attempts = Normal tt).
  { destruct (Handshake.outcome 0 Protocol.INIT_SEQUENCE attempts) as [[]|e];
      [reflexivity | discriminate]. }
  apply (outcome_normal_iff _ _ _ Hcov) in Hnorm as [Hlen Hacc].
  destruct (Hok Hlen Hacc) as [Hw' Hd']. split; lia.
Qed.

(** X12.  Whatever the transport answers, [executeInitSequence] writes at
    most 16 frames and reads at most 5 times, never opens, claims or
    closes the device, and spends between 60 000 and 75 500 ms in its
    delays: the wait of one minute is made even when the rest fails at
    once.  A handshake that succeeds has written at least 6 frames and
    waited at least 65 000 ms. *)
Theorem handshake_cost :
  forall (T : Type) (usb : UsbModule T) (s : Session T),
    let run := Protocol.executeInitSequence usb s in
    let tr := Trace.events run in
    (Trace.writes tr <= 16)%nat
    /\ (Trace.reads tr <= 5)%nat
    /\ 60000 <= Trace.totalDelay tr <= 75500
    /\ Trace.noSetup tr
    /\ (Trace.result run = Normal true ->
        (6 <= Trace.writes tr)%nat /\ 65000 <= Trace.totalDelay tr).
Proof. exact executeInitSequence_cost. Qed.

(** ** Trimmed answers *)

Lemma trimStart_idem (s : JsString) :
  Js.trimStart (Js.trimStart s) = Js.trimStart s.
Proof.
  induction s as [|c s IH]; [reflexivity|]. cbn [Js.trimStart].
  destruct (Js.isWhiteSpace c) eqn:E; [exact IH|].
  cbn [Js.trimStart]. now rewrite E.
Qed.

Lemma trimStart_decomp (s : JsString) :
  exists pre, s = pre ++ Js.trimStart s.
Proof.
  induction s as [|c s [pre IH]]; [exists []; reflexivity|].
  cbn [Js.trimStart]. destruct (Js.isWhiteSpace c).
  - exists (c :: pre). cbn [app]. now rewrite <- IH.
  - exists []. reflexivity.
Qed.

Lemma trimStart_length (s : JsString) :
  (List.length (Js.trimStart s) <= List.length s)%nat.
Proof.
  induction s as [|c s IH]; [simpl; lia|]. cbn [Js.trimStart].
  destruct (Js.isWhiteSpace c); simpl; lia.
Qed.

Lemma trimStart_fixed_head (c : ascii) (s : JsString) :
  Js.trimStart (c :: s) = c :: s -> Js.isWhiteSpace c = false.
Proof.
  cbn [Js.trimStart]. destruct (Js.isWhiteSpace c); [|reflexivity].
  intros H. pose proof (trimStart_length s) as Hlen.
  rewrite H in Hlen. simpl in Hlen. lia.
Qed.

Lemma trim_idem (s : JsString) : Js.trim (Js.trim s) = Js.trim s.
Proof.
  unfold Js.trim.
  set (a := Js.trimStart s).
  set (b := Js.trimStart (rev a)).
  assert (Hb : Js.trimStart (rev b) = rev b).
  { destruct (trimStart_decomp (rev a)) as [pre Hpre]. fold b in Hpre.
    assert (Ha : a = rev b ++ rev pre).
    { rewrite <- rev_app_distr, <- Hpre. now rewrite rev_involutive. }
    destruct (rev b) as [|x t] eqn:Hrb; [reflexivity|].
    assert (Hx : Js.isWhiteSpace x = false).
    { apply (trimStart_fixed_head x (t ++ rev pre)).
      change (x :: t ++ rev pre) with ((x :: t) ++ rev pre).
      rewrite <- Ha. apply trimStart_idem. }
    cbn [Js.trimStart]. now rewrite Hx. }
  rewrite Hb, rev_involutive. unfold b. now rewrite trimStart_idem.
Qed.

Lemma blank_false_iff (text : JsString) :
  negb (Js.str_eqb text []) && Protocol.nonblank text
  = negb (TextSpec.blank text).
Proof.
  unfold TextSpec.blank, Protocol.nonblank.
  destruct (Js.str_eqb text []), (Js.str_eqb (Js.trim text) []); reflexivity.
Qed.

Lemma trim_not_empty (text : JsString) :
  TextSpec.blank text = false -> Js.trim text <> [].
Proof.
  unfold TextSpec.blank. intros H Hnil. rewrite Hnil in H.
  apply orb_false_iff in H as [_ H]. discriminate.
Qed.

Lemma trim_printable (text : JsString) :
  Forall (fun c => 32 <= Js.code c <= 126) text ->
  Forall (fun c => 32 <= Js.code c <= 126) (Js.trim text).
Proof.
  rewrite !Forall_forall. intros H c Hc. apply H. now apply In_trim_inv.
Qed.

Section TextGetters.

Context {T : Type} (usb : UsbModule T).

Local Abbreviation answers getter command message s :=
  (let run := getter s in
   let asked := Protocol.requestTextResponse usb command s in
   Trace.final run = Trace.final asked
   /\ Trace.events run = Trace.events asked
   /\ Trace.result run
      = match Trace.result asked with
        | Throw e => Throw e
        | Normal text =>
            if TextSpec.blank text then Throw (Error message)
            else Normal (Js.trim text)
        end
   /\ (forall r, Trace.result run = Normal r ->
         r <> [] /\ Js.trim r = r
         /\ Forall (fun c => 32 <= Js.code c <= 126) r)).

Lemma text_getter_answers (command : JsString) (message : string)
  (s : Session T) :
  answers
    (Eff.try_catch
       (Eff.bind (Protocol.requestTextResponse usb command)
          (fun response =>
             if negb (Js.str_eqb response []) && Protocol.nonblank response
             then Eff.ret (Js.trim response)
             else Eff.throw (Error message)))
       (fun error => Eff.throw error))
    command message s.
Proof.
  cbv zeta. rewrite try_catch_rethrow. unfold Eff.bind.
  destruct (Protocol.requestTextResponse usb command s) as [[[text|e] s1] t1]
    eqn:Hreq; cbn [Trace.result Trace.final Trace.events fst snd].
  2: { repeat split; intros; discriminate. }
  rewrite blank_false_iff.
  destruct (TextSpec.blank text) eqn:Hblank; cbn [negb].
  { unfold Eff.throw. rewrite app_nil_r.
    repeat split; intros; discriminate. }
  unfold Eff.ret. rewrite app_nil_r.
  split; [reflexivity|]. split; [reflexivity|]. split; [reflexivity|].
  intros r [= <-].
  split; [now apply trim_not_empty|]. split; [apply trim_idem|].
  apply trim_printable.
  apply requestTextResponse_text in Hreq as [bytes ->].
  apply fromCharCode_printable.
Qed.

(** X13.  [getSerialNumber], [getDate] and [getTime] of the protocol each
    make the one exchange of [requestTextResponse] for their command and
    nothing else.  An error of the exchange is passed on; a text that is
    empty or all spaces is refused with the error of the method; any other
    text is returned trimmed.  What they return is therefore never empty,
    has no space at either end and holds printable ASCII only. *)
Theorem protocol_text_getters :
  forall s : Session T,
    answers (Protocol.getSerialNumber usb) ("$serlnum?" : JsString)
      "No se recibio numero de serie" s
    /\ answers (Protocol.getDate usb) ("$date?" : JsString)
         "No se recibio fecha" s
    /\ answers (Protocol.getTime usb) ("$time?" : JsString)
         "No se recibio hora" s.
Proof.
  intros s. split; [|split]; apply text_getter_answers.
Qed.

End TextGetters.

(** ** Records requested by command *)

Lemma nonblank_not_empty (line : JsString) :
  Protocol.nonblank line = true -> Js.trim line <> [].
Proof.
  unfold Protocol.nonblank. intros H Hnil. rewrite Hnil in H. discriminate.
Qed.

Lemma parseRecordsResponse_map (response : JsString) :
  Protocol.parseRecordsResponse response
  = map Js.trim (filter Protocol.nonblank (Js.split Protocol.crlf response)).
Proof.
  unfold Protocol.parseRecordsResponse.
  induction (Js.split Protocol.crlf response) as [|line lines IH];
    [reflexivity|].
  cbn [filter]. destruct (Protocol.nonblank line) eqn:E; [|exact IH].
  cbn [flat_map map]. rewrite E. cbn [app]. now rewrite IH.
Qed.

Lemma nonblank_blank (text : JsString) :
  text <> [] -> Protocol.nonblank text = negb (TextSpec.blank text).
Proof.
  intros H. unfold Protocol.nonblank, TextSpec.blank.
  destruct (Js.str_eqb text []) eqn:E; [|reflexivity].
  apply str_eqb_nil in E. contradiction.
Qed.

(** X14.  Every record returned by [parseRecordsResponse] is a trimmed,
    non-empty line: the method returns the non-blank segments of the
    response cut at CR LF, each trimmed, in order.  [getDBRecords] makes
    the one exchange of [requestTextResponse] and passes its errors on;
    it fails on an empty text, returns no record for a text of spaces
    only and one record, the trimmed text, otherwise: it never returns
    more than one record. *)
Theorem getDBRecords_at_most_one_record :
  forall (T : Type) (usb : UsbModule T) (command : JsString) (s : Session T),
    let run := Protocol.getDBRecords usb command s in
    let asked := Protocol.requestTextResponse usb command s in
    (forall response : JsString,
        Protocol.parseRecordsResponse response
        = map Js.trim
            (filter Protocol.nonblank (Js.split TextRegex.crlf response))
        /\ Forall (fun r => r <> [] /\ Js.trim r = r)
             (Protocol.parseRecordsResponse response))
    /\ Trace.final run = Trace.final asked
    /\ Trace.events run = Trace.events asked
    /\ Trace.result run
       = match Trace.result asked with
         | Throw e => Throw e
         | Normal text =>
             if Js.str_eqb text []
             then Throw (Error "Sin respuesta para comando de registros")
             else Normal (if TextSpec.blank text then [] else [Js.trim text])
         end
    /\ (forall records, Trace.result run = Normal records ->
          (List.length records <= 1)%nat).
Proof.
  intros T usb command s run asked.
  assert (Hparse : forall response : JsString,
        Protocol.parseRecordsResponse response
        = map Js.trim
            (filter Protocol.nonblank (Js.split TextRegex.crlf response))
        /\ Forall (fun r => r <> [] /\ Js.trim r = r)
             (Protocol.parseRecordsResponse response)).
  { intros response. split; [apply parseRecordsResponse_map|].
    rewrite parseRecordsResponse_map.
    apply Forall_forall. intros r Hr. apply in_map_iff in Hr as (line & <- & Hin).
    apply filter_In in Hin as [_ Hnb].
    split; [now apply nonblank_not_empty | apply trim_idem]. }
  split; [exact Hparse|].
  assert (Hrun : Trace.final run = Trace.final asked
    /\ Trace.events run = Trace.events asked
    /\ Trace.result run
       = match Trace.result asked with
         | Throw e => Throw e
         | Normal text =>
             if Js.str_eqb text []
             then Throw (Error "Sin respuesta para comando de registros")
             else Normal (if TextSpec.blank text then [] else [Js.trim text])
         end).
  { subst run asked. unfold Protocol.getDBRecords.
    rewrite try_catch_rethrow.
    pose proof (requestTextResponse_uninitialized usb command s) as Huninit.
    unfold Eff.bind, Eff.gets, Eff.throw, Eff.ret. cbn beta iota.
    destruct (protocol_isInitialized s) eqn:Hinit; cbn [negb].
    2: { rewrite (Huninit eq_refl). repeat split. }
    destruct (Protocol.requestTextResponse usb command s) as [[[text|e] s1] t1]
      eqn:Hask; cbn [Trace.result Trace.final Trace.events fst snd].
    2: { repeat split. }
    destruct (Js.str_eqb text []) eqn:Hnil.
    { cbn [app]. rewrite app_nil_r. repeat split. }
    cbn [app]. rewrite app_nil_r.
    split; [reflexivity|]. split; [reflexivity|]. f_equal.
    rewrite parseRecordsResponse_map.
    assert (Htext : text <> []).
    { intros ->. discriminate. }
    apply requestTextResponse_text in Hask as [bytes ->].
    pose proof (fromCharCode_printable bytes) as Hp.
    unfold Js.split, Protocol.crlf.
    rewrite split_no_CR
      by (apply (printable_not_ctl _ _ Hp); vm_compute; reflexivity).
    cbn [rev app filter]. rewrite (nonblank_blank _ Htext).
    destruct (TextSpec.blank _); reflexivity. }
  destruct Hrun as (Hf & He & Hr). repeat split; auto.
  intros records Hrec. rewrite Hr in Hrec.
  destruct (Trace.result asked) as [text|e]; [|discriminate].
  destruct (Js.str_eqb text []); [discriminate|].
  injection Hrec as <-. destruct (TextSpec.blank text); simpl; lia.
Qed.

(** ** The steps of [connect] *)

Section ConnectSteps.

Context {T : Type} (usb : UsbModule T).

Lemma notify_run cb step total (s : Session T) :
  (forall f, cb = Some f -> f step total = Normal tt) ->
  Driver.notify cb step total s = (Normal tt, s, Trace.progress cb step total).
Proof.
  intros H. destruct cb as [f|]; [|reflexivity].
  unfold Driver.notify. unfold_eff. now rewrite (H f eq_refl).
Qed.

Lemma callbackReturns_step cb step :
  Handshake.callbackReturns cb ->
  forall f, cb = Some f -> f step 4 = Normal tt.
Proof. intros H f ->. apply H. Qed.

Lemma alwaysReturns_step cb step total :
  Trace.alwaysReturns cb ->
  forall f, cb = Some f -> f step total = Normal tt.
Proof. intros H f ->. apply H. Qed.

Lemma connectToDevice_run (info : DeviceInfo) (s : Session T) :
  let name := deviceName info in
  let opened := openDevice usb name (transport s) in
  let claimed := claimInterface usb name 0 (snd opened) in
  Driver.connectToDevice usb info s
  = match fst opened with
    | Normal true =>
        (match fst claimed with
         | Normal true => Normal true
         | Normal false => Throw ErrClaim
         | Throw e => Throw e
         end,
         Eff.set_transport (snd claimed) s, [EvOpen name; EvClaim name 0])
    | Normal false => (Throw ErrOpen, Eff.set_transport (snd opened) s,
                       [EvOpen name])
    | Throw e => (Throw e, Eff.set_transport (snd opened) s, [EvOpen name])
    end.
Proof.
  cbv zeta. unfold Driver.connectToDevice. rewrite try_catch_rethrow.
  unfold_eff.
  destruct (openDevice usb (deviceName info) (transport s)) as [[[|]|e] t1];
    cbn [fst snd negb transport Eff.set_transport]; try reflexivity.
  destruct (claimInterface usb (deviceName info) 0 t1) as [[[|]|e] t2];
    reflexivity.
Qed.

Lemma verifyConnection_run (s : Session T) :
  Driver.verifyConnection usb s
  = match deviceInfo s with
    | None => (Normal false, s, [])
    | Some d =>
        let written := writeData usb (deviceName d) [0x04; 0x00] (transport s) in
        (Normal match fst written with
                | Normal n => negb (n <? 0)
                | Throw _ => false
                end,
         Eff.set_transport (snd written) s,
         [EvWrite (deviceName d) [0x04; 0x00] (fst written)])
    end.
Proof.
  unfold Driver.verifyConnection. unfold_eff.
  destruct (deviceInfo s) as [d|]; [|reflexivity].
  destruct (writeData usb (deviceName d) [4; 0] (transport s)) as [[n|e] t1];
    cbn [fst snd]; [|reflexivity].
  destruct (n <? 0); reflexivity.
Qed.

(** The whole of [connect], step by step, for a callback that returns. *)
Lemma connect_run (info : DeviceInfo) cb (s : Session T) :
  Handshake.callbackReturns cb ->
  let dev := Driver.connectToDevice usb info (Eff.set_deviceInfo (Some info) s) in
  let ini := Driver.initCommunication usb (deviceName info) (Trace.final dev) in
  let ver := Driver.verifyConnection usb (Trace.final ini) in
  let n := Trace.progress cb in
  Driver.connect usb info cb s
  = match Trace.result dev with
    | Throw e =>
        (Throw e, Eff.set_isConnected false (Trace.final dev),
         n 1 4 ++ Trace.events dev)
    | Normal false =>
        (Throw ErrConnect, Eff.set_isConnected false (Trace.final dev),
         n 1 4 ++ Trace.events dev)
    | Normal true =>
        match Trace.result ini with
        | Throw e =>
            (Throw e, Eff.set_isConnected false (Trace.final ini),
             n 1 4 ++ Trace.events dev ++ n 2 4 ++ Trace.events ini)
        | Normal _ =>
            match Trace.result ver with
            | Throw e =>
                (Throw e, Eff.set_isConnected false (Trace.final ver),
                 n 1 4 ++ Trace.events dev ++ n 2 4 ++ Trace.events ini
                 ++ n 3 4 ++ Trace.events ver)
            | Normal false =>
                (Throw ErrUnstable, Eff.set_isConnected false (Trace.final ver),
                 n 1 4 ++ Trace.events dev ++ n 2 4 ++ Trace.events ini
                 ++ n 3 4 ++ Trace.events ver)
            | Normal true =>
                (Normal true, Eff.set_isConnected true (Trace.final ver),
                 n 1 4 ++ Trace.events dev ++ n 2 4 ++ Trace.events ini
                 ++ n 3 4 ++ Trace.events ver ++ n 4 4)
            end
        end
    end.
Proof.
  intros Hcb. cbv zeta.
  unfold Driver.connect.
  unfold Eff.try_catch. unfold Eff.bind at 1. unfold Eff.modify at 1.
  cbn beta iota.
  unfold Eff.bind at 1. rewrite (notify_run cb 1 4 _ (callbackReturns_step cb 1 Hcb)).
  unfold Eff.bind at 1.
  destruct (Driver.connectToDevice usb info (Eff.set_deviceInfo (Some info) s))
    as [[[[|]|e] s1] t1]; cbn [Trace.result Trace.final Trace.events fst snd negb].
  - unfold Eff.bind at 1.
    rewrite (notify_run cb 2 4 _ (callbackReturns_step cb 2 Hcb)).
    unfold Eff.bind at 1.
    destruct (Driver.initCommunication usb (deviceName info) s1)
      as [[[b|e] s2] t2]; cbn [Trace.result Trace.final Trace.events fst snd].
    + unfold Eff.bind at 1.
      rewrite (notify_run cb 3 4 _ (callbackReturns_step cb 3 Hcb)).
      unfold Eff.bind at 1.
      destruct (Driver.verifyConnection usb s2)
        as [[[[|]|e] s3] t3]; cbn [Trace.result Trace.final Trace.events fst snd negb].
      * unfold Eff.bind at 1. unfold Eff.modify at 1. cbn beta iota.
        unfold Eff.bind at 1.
        rewrite (notify_run cb 4 4 _ (callbackReturns_step cb 4 Hcb)).
        unfold Eff.ret. cbn [app]. rewrite ?app_nil_r, <- ?app_assoc; reflexivity.
      * unfold Eff.throw, Eff.bind, Eff.modify. cbn [app].
        rewrite ?app_nil_r, <- ?app_assoc; reflexivity.
      * unfold Eff.throw, Eff.bind, Eff.modify. cbn [app].
        rewrite ?app_nil_r, <- ?app_assoc; reflexivity.
    + unfold Eff.throw, Eff.bind, Eff.modify. cbn [app].
      rewrite ?app_nil_r, <- ?app_assoc; reflexivity.
  - unfold Eff.throw, Eff.bind, Eff.modify. cbn [app].
    rewrite ?app_nil_r; reflexivity.
  - unfold Eff.throw, Eff.bind, Eff.modify. cbn [app].
    rewrite ?app_nil_r; reflexivity.
Qed.

End ConnectSteps.

Lemma calls_app (t1 t2 : list Event) :
  Trace.calls (t1 ++ t2) = Trace.calls t1 ++ Trace.calls t2.
Proof. apply filter_app. Qed.

Lemma calls_progress {A} (cb : option A) step total :
  Trace.calls (Trace.progress cb step total) = [].
Proof. destruct cb; reflexivity. Qed.

Lemma noSetup_counts (tr : list Event) :
  Trace.noSetup tr ->
  Trace.opens tr = 0%nat /\ Trace.claims tr = 0%nat /\ Trace.closes tr = 0%nat.
Proof.
  unfold Trace.opens, Trace.claims, Trace.closes.
  induction 1 as [|e tr He _ (IHo & IHc & IHx)]; [auto|].
  destruct e; try discriminate He; cbn; auto.
Qed.

Lemma noSetup_progress {A} (cb : option A) step total :
  Trace.noSetup (Trace.progress cb step total).
Proof. destruct cb; repeat constructor. Qed.

Lemma noSetup_calls (tr : list Event) :
  Trace.noSetup tr -> Trace.noSetup (Trace.calls tr).
Proof.
  unfold Trace.noSetup, Trace.calls. rewrite !Forall_forall.
  intros H e He. apply filter_In in He as [He _]. auto.
Qed.

Lemma opens_progress {A} (cb : option A) step total :
  List.length (filter Trace.isOpen (Trace.progress cb step total)) = 0%nat.
Proof. destruct cb; reflexivity. Qed.

Lemma claims_progress {A} (cb : option A) step total :
  List.length (filter Trace.isClaim (Trace.progress cb step total)) = 0%nat.
Proof. destruct cb; reflexivity. Qed.

Lemma closes_progress {A} (cb : option A) step total :
  List.length (filter Trace.isClose (Trace.progress cb step total)) = 0%nat.
Proof. destruct cb; reflexivity. Qed.

Lemma totalDelay_progress {A} (cb : option A) step total :
  Trace.totalDelay (Trace.progress cb step total) = 0.
Proof. destruct cb; reflexivity. Qed.

(** X15.  With a callback that returns, [connect] gives up at the first
    step that fails and undoes nothing.  When [openDevice] resolves to
    false or rejects, the only call made on the usbModule is that
    [openDevice].  When the device opens but [claimInterface] resolves to
    false or rejects, the calls are [openDevice] and [claimInterface] on
    interface 0: nothing is written and the opened device is not closed.
    In both cases [isConnected] is false and [deviceInfo] stays set. *)
Theorem connect_stops_at_open_or_claim :
  forall (T : Type) (usb : UsbModule T) (info : DeviceInfo)
         (cb : option Driver.ProgressCallback) (s : Session T),
    Handshake.callbackReturns cb ->
    let run := Driver.connect usb info cb s in
    let name := deviceName info in
    let opened := openDevice usb name (transport s) in
    let claimed := claimInterface usb name 0 (snd opened) in
    (fst opened <> Normal true ->
       Trace.result run
       = match fst opened with Throw e => Throw e | Normal _ => Throw ErrOpen end
       /\ Trace.calls (Trace.events run) = [EvOpen name]
       /\ transport (Trace.final run) = snd opened
       /\ isConnected (Trace.final run) = false
       /\ deviceInfo (Trace.final run) = Some info)
    /\ (fst opened = Normal true -> fst claimed <> Normal true ->
        Trace.result run
        = match fst claimed with Throw e => Throw e | Normal _ => Throw ErrClaim end
        /\ Trace.calls (Trace.events run) = [EvOpen name; EvClaim name 0]
        /\ transport (Trace.final run) = snd claimed
        /\ isConnected (Trace.final run) = false
        /\ deviceInfo (Trace.final run) = Some info).
Proof.
  intros T usb info cb s Hcb run name opened claimed.
  subst run. rewrite (connect_run usb info cb s Hcb). cbv zeta.
  rewrite (connectToDevice_run usb info (Eff.set_deviceInfo (Some info) s)).
  cbv zeta. cbn [transport Eff.set_deviceInfo].
  fold name. fold opened. fold claimed.
  split.
  - intros Hopen.
    destruct (fst opened) as [[|]|e]; [contradiction| |];
      cbn [Trace.result Trace.final Trace.events fst snd];
      rewrite calls_app, calls_progress; repeat split.
  - intros Hopen Hclaim. rewrite Hopen.
    destruct (fst claimed) as [[|]|e]; [contradiction| |];
      cbn [Trace.result Trace.final Trace.events fst snd];
      rewrite calls_app, calls_progress; repeat split.
Qed.

Lemma connect_stops_at_open_or_claim_witness :
  Trace.result (Driver.connect Sample.unopenable Sample.info None (newSession 0%nat))
  = Throw ErrOpen
  /\ Trace.calls
       (Trace.events
          (Driver.connect Sample.unclaimable Sample.info None (newSession 0%nat)))
     = [EvOpen (deviceName Sample.info); EvClaim (deviceName Sample.info) 0].
Proof.
  split.
  - pose proof (connect_stops_at_open_or_claim nat Sample.unopenable
                  Sample.info None (newSession 0%nat) I) as H.
    cbv zeta in H. destruct H as [H _].
    destruct (H ltac:(discriminate)) as (Hres & _). exact Hres.
  - pose proof (connect_stops_at_open_or_claim nat Sample.unclaimable
                  Sample.info None (newSession 0%nat) I) as H.
    cbv zeta in H. destruct H as [_ H].
    destruct (H eq_refl ltac:(discriminate)) as (_ & Hcalls & _). exact Hcalls.
Defined.

Section ConnectOutcome.

Context {T : Type} (usb : UsbModule T).

Lemma driver_initCommunication_cost (name : option JsString) (s : Session T) :
  let run := Driver.initCommunication usb name s in
  Trace.noSetup (Trace.events run)
  /\ (forall b, Trace.result run = Normal b ->
        65000 <= Trace.totalDelay (Trace.events run)).
Proof.
  intros run.
  pose proof (driver_initCommunication_spec T usb name s) as H.
  cbv zeta in H. destruct H as (Heq & _). fold run in Heq.
  pose proof (protocol_initCommunication_spec usb name s) as H.
  cbv zeta in H. destruct H as (_ & _ & _ & Hev & Hres & Hcase).
  pose proof (executeInitSequence_cost T usb
                (Eff.set_protocol_deviceName name s)) as H.
  cbv zeta in H. destruct H as (_ & _ & _ & Hno & Hok).
  rewrite Heq, Hev. split; [exact Hno|].
  intros b Hb. rewrite Hres in Hb. apply Hok.
  rewrite <- Hres in *.
  destruct Hcase as [[Ht _] | (k & c & _ & Ht & _)]; congruence.
Qed.

Lemma connectToDevice_success (info : DeviceInfo) (s : Session T) :
  Trace.result (Driver.connectToDevice usb info s) = Normal true ->
  Trace.events (Driver.connectToDevice usb info s)
  = [EvOpen (deviceName info); EvClaim (deviceName info) 0]
  /\ Trace.sameFields s (Trace.final (Driver.connectToDevice usb info s)).
Proof.
  rewrite connectToDevice_run. cbv zeta.
  destruct (fst (openDevice usb (deviceName info) (transport s))) as [[|]|e];
    cbn [Trace.result Trace.events Trace.final fst snd]; try discriminate.
  intros _. repeat split.
Qed.

End ConnectOutcome.

(** X16.  With a callback that returns, [connect] never returns false, and
    [isConnected] is true afterwards exactly when it returned true.  A
    [connect] that returns true leaves [deviceInfo] set to its argument
    and the protocol initialized under the device's name; it has opened
    the device once, claimed interface 0 once and closed nothing; its
    calls on the usbModule start with [openDevice] and [claimInterface]
    and end with the test write of the two bytes 0x04, 0x00, which
    returned a non-negative count; and it has spent at least 65 000 ms
    in delays. *)
Theorem connect_success_postcondition :
  forall (T : Type) (usb : UsbModule T) (info : DeviceInfo)
         (cb : option Driver.ProgressCallback) (s : Session T),
    Handshake.callbackReturns cb ->
    let run := Driver.connect usb info cb s in
    let name := deviceName info in
    (forall b, Trace.result run = Normal b -> b = true)
    /\ (isConnected (Trace.final run) = true <-> Trace.result run = Normal true)
    /\ (Trace.result run = Normal true ->
        deviceInfo (Trace.final run) = Some info
        /\ protocol_isInitialized (Trace.final run) = true
        /\ protocol_deviceName (Trace.final run) = name
        /\ Trace.opens (Trace.events run) = 1%nat
        /\ Trace.claims (Trace.events run) = 1%nat
        /\ Trace.closes (Trace.events run) = 0%nat
        /\ (exists middle n,
              Trace.calls (Trace.events run)
              = EvOpen name :: EvClaim name 0
                  :: middle ++ [EvWrite name [0x04; 0x00] (Normal n)]
              /\ 0 <= n /\ Trace.noSetup middle)
        /\ 65000 <= Trace.totalDelay (Trace.events run)).
Proof.
  intros T usb info cb s Hcb run name. subst run.
  rewrite (connect_run usb info cb s Hcb). cbv zeta.
  set (dev := Driver.connectToDevice usb info (Eff.set_deviceInfo (Some info) s)).
  set (ini := Driver.initCommunication usb (deviceName info) (Trace.final dev)).
  set (ver := Driver.verifyConnection usb (Trace.final ini)).
  destruct (Trace.result dev) as [[|]|e] eqn:Hdev;
    cbn [Trace.result Trace.final Trace.events fst snd isConnected
           Eff.set_isConnected];
    try (split; [discriminate | split; [split; discriminate | discriminate]]).
  destruct (Trace.result ini) as [b|e] eqn:Hini;
    cbn [Trace.result Trace.final Trace.events fst snd isConnected
           Eff.set_isConnected];
    try (split; [discriminate | split; [split; discriminate | discriminate]]).
  destruct (Trace.result ver) as [[|]|e] eqn:Hver;
    cbn [Trace.result Trace.final Trace.events fst snd isConnected
           Eff.set_isConnected];
    try (split; [discriminate | split; [split; discriminate | discriminate]]).
  split; [intros b' [= <-]; reflexivity|].
  split; [split; reflexivity|]. intros _.
  destruct (connectToDevice_success usb info _ Hdev) as [Hdev_ev Hdev_same].
  fold dev in Hdev_ev, Hdev_same.
  destruct Hdev_same as (Hd_info & _).
  pose proof (driver_initCommunication_spec T usb (deviceName info)
                (Trace.final dev)) as Hspec.
  cbv zeta in Hspec. fold ini in Hspec.
  destruct Hspec as (_ & Hi_name & Hi_info & _ & Hi_case).
  assert (Hi_init : protocol_isInitialized (Trace.final ini) = true).
  { destruct Hi_case as [[_ H] | (k & c & _ & H & _)]; [exact H | congruence]. }
  pose proof (driver_initCommunication_cost usb (deviceName info)
                (Trace.final dev)) as Hcost.
  cbv zeta in Hcost. fold ini in Hcost. destruct Hcost as [Hi_no Hi_delay].
  specialize (Hi_delay b Hini).
  assert (Hinfo : deviceInfo (Trace.final ini) = Some info).
  { rewrite Hi_info, Hd_info. reflexivity. }
  pose proof (verifyConnection_run usb (Trace.final ini)) as Hv.
  fold ver in Hv. rewrite Hinfo in Hv. cbv zeta in Hv.
  destruct (writeData usb (deviceName info) [4; 0] (transport (Trace.final ini)))
    as [[n|e] t3] eqn:Hw; cbn [fst snd] in Hv;
    rewrite Hv in Hver; cbn [Trace.result fst] in Hver; [|discriminate].
  assert (Hn : 0 <= n).
  { destruct (Z.ltb_spec n 0); [discriminate | assumption]. }
  rewrite Hv, Hdev_ev. cbn [Trace.final Trace.events fst snd].
  cbn [deviceInfo protocol_isInitialized protocol_deviceName
         Eff.set_isConnected Eff.set_transport].
  destruct (noSetup_counts _ Hi_no) as (Io & Ic & Ix).
  split; [exact Hinfo|]. split; [exact Hi_init|]. split; [exact Hi_name|].
  unfold Trace.opens, Trace.claims, Trace.closes in *.
  rewrite !filter_length_app, !calls_app, !totalDelay_app.
  rewrite !calls_progress, !totalDelay_progress.
  rewrite Io, Ic, Ix.
  rewrite !opens_progress, !claims_progress, !closes_progress.
  split; [reflexivity|]. split; [reflexivity|]. split; [reflexivity|].
  split.
  - exists (Trace.calls (Trace.events ini)), n.
    split; [|split; [exact Hn | now apply noSetup_calls]].
    cbn. rewrite ?app_nil_r. reflexivity.
  - cbn [Trace.totalDelay fold_right]. lia.
Qed.

Lemma connect_success_postcondition_witness :
  isConnected
    (Trace.final (Driver.connect Sample.accepting Sample.info None
                    (newSession 0%nat))) = true
  <-> Trace.result (Driver.connect Sample.accepting Sample.info None
                      (newSession 0%nat)) = Normal true.
Proof.
  pose proof (connect_success_postcondition nat Sample.accepting Sample.info
                None (newSession 0%nat) I) as H.
  cbv zeta in H. exact (proj1 (proj2 H)).
Defined.

(** X17.  A progress callback that throws on the first notification makes
    [connect] fail with the callback's error before the usbModule is
    called at all: the device is not opened, [isConnected] is false and
    [deviceInfo] is already set. *)
Theorem throwing_callback_aborts_connect :
  forall (T : Type) (usb : UsbModule T) (info : DeviceInfo)
         (f : Driver.ProgressCallback) (e : Err) (s : Session T),
    f 1 4 = Throw e ->
    Driver.connect usb info (Some f) s
    = (Throw e, Eff.set_isConnected false (Eff.set_deviceInfo (Some info) s),
       [EvProgress 1 4]).
Proof.
  intros T usb info f e s Hf.
  unfold Driver.connect, Driver.notify. unfold_eff. rewrite Hf. reflexivity.
Qed.

Lemma throwing_callback_aborts_connect_witness :
  Driver.connect Sample.accepting Sample.info (Some Sample.throwingCallback)
    (newSession 0%nat)
  = (Throw (ErrRejected "progressCallback"),
     Eff.set_isConnected false
       (Eff.set_deviceInfo (Some Sample.info) (newSession 0%nat)),
     [EvProgress 1 4]).
Proof.
  apply (throwing_callback_aborts_connect nat Sample.accepting Sample.info
           Sample.throwingCallback (ErrRejected "progressCallback")
           (newSession 0%nat)).
  reflexivity.
Defined.

(** X18.  [verifyConnection] never throws and changes no field of the
    session.  It returns true exactly when [deviceInfo] is set and the
    write of the two bytes 0x04, 0x00 returned a non-negative count; a
    write that rejects, like a missing [deviceInfo], is answered with
    false.  It writes those two bytes as they are, not in a 64-byte frame,
    at most once, and reads nothing. *)
Theorem verifyConnection_outcome :
  forall (T : Type) (usb : UsbModule T) (s : Session T),
    let run := Driver.verifyConnection usb s in
    (exists b, Trace.result run = Normal b)
    /\ Trace.sameFields s (Trace.final run)
    /\ (Trace.result run = Normal true <->
        exists d n,
          deviceInfo s = Some d
          /\ fst (writeData usb (deviceName d) [0x04; 0x00] (transport s))
             = Normal n
          /\ 0 <= n)
    /\ Trace.writtenFrames (Trace.events run)
       = match deviceInfo s with Some _ => [[0x04; 0x00]] | None => [] end
    /\ Trace.reads (Trace.events run) = 0%nat.
Proof.
  intros T usb s run. subst run. rewrite verifyConnection_run.
  destruct (deviceInfo s) as [d|] eqn:Hinfo.
  - cbv zeta.
    destruct (writeData usb (deviceName d) [4; 0] (transport s)) as [[n|e] t1]
      eqn:Hw; cbn [Trace.result Trace.final Trace.events fst snd].
    + split; [eauto|]. split; [repeat split|]. split; [|split; reflexivity].
      split.
      * intros [= Hn]. exists d, n.
        split; [reflexivity|]. rewrite Hw. split; [reflexivity|].
        destruct (Z.ltb_spec n 0); [discriminate | assumption].
      * intros (d' & n' & [= <-] & Hw' & Hn). rewrite Hw in Hw'.
        injection Hw' as <-.
        destruct (Z.ltb_spec n 0); [lia | reflexivity].
    + split; [eauto|]. split; [repeat split|]. split; [|split; reflexivity].
      split; [discriminate|].
      intros (d' & n' & [= <-] & H & _). rewrite Hw in H. discriminate.
  - cbn [Trace.result Trace.final Trace.events fst snd].
    split; [eauto|]. split; [repeat split|]. split; [|split; reflexivity].
    split; [discriminate|]. intros (d' & n' & H & _). discriminate.
Qed.

(** ** Fetching the records *)

Section FetchData.

Context {T : Type} (usb : UsbModule T).

Lemma getResults_run (s : Session T) :
  let asked := Protocol.requestTextResponse usb ("$result?" : JsString) s in
  Protocol.getResults usb s
  = (match Trace.result asked with
     | Throw e => Throw e
     | Normal text => Normal (if TextSpec.blank text then [] else [Js.trim text])
     end, Trace.final asked, Trace.events asked).
Proof.
  cbv zeta. unfold Protocol.getResults. rewrite try_catch_rethrow.
  unfold Eff.bind.
  destruct (Protocol.requestTextResponse usb ("$result?" : JsString) s)
    as [[[text|e] s1] t1] eqn:Hask;
    cbn [Trace.result Trace.final Trace.events fst snd]; [|reflexivity].
  rewrite blank_false_iff.
  destruct (TextSpec.blank text) eqn:Hblank; cbn [negb]; unfold Eff.ret;
    rewrite app_nil_r; [reflexivity|].
  do 2 f_equal.
  apply requestTextResponse_text in Hask as [bytes ->].
  pose proof (fromCharCode_printable bytes) as Hp.
  set (text := Protocol.fromCharCode (filter Protocol.printable bytes)) in *.
  assert (Hcr : ~ In TextRegex.CR (Js.trim text)).
  { intros Hin. apply In_trim_inv in Hin. revert Hin.
    apply (printable_not_ctl _ _ Hp). vm_compute. reflexivity. }
  unfold Js.split, Protocol.crlf. rewrite (split_no_CR _ [] Hcr).
  cbn [rev app filter]. unfold Protocol.nonblank. rewrite trim_idem.
  unfold TextSpec.blank in Hblank. apply orb_false_iff in Hblank as [_ Hb].
  now rewrite Hb.
Qed.

End FetchData.

Lemma emittedList_length (records : list JsString) :
  (List.length (RecordSpec.emittedList records) <= List.length records)%nat.
Proof.
  unfold RecordSpec.emittedList.
  induction records as [|r rest IH]; simpl; [lia|].
  destruct (RecordSpec.emitted r); simpl; lia.
Qed.

Lemma fetchData_run {T} (usb : UsbModule T)
  (toISOString : DateArgs -> option JsString)
  (cb : option Driver.ProgressCallback) (s : Session T) :
  Trace.alwaysReturns cb ->
  let asked := Protocol.requestTextResponse usb ("$result?" : JsString) s in
  Driver.fetchData usb toISOString cb s
  = match Trace.result asked with
    | Throw e =>
        (Throw e, Trace.final asked,
         Trace.progress cb 1 2 ++ Trace.events asked)
    | Normal text =>
        let raw := if TextSpec.blank text then [] else [Js.trim text] in
        (Normal {| Driver.rawRecords := raw;
                   Driver.processedRecords := RecordSpec.emittedList raw;
                   Driver.recordCount := Z.of_nat (List.length raw) |},
         Trace.final asked,
         Trace.progress cb 1 2 ++ Trace.events asked ++ Trace.progress cb 2 2)
    end.
Proof.
  intros Hcb. cbv zeta. unfold Driver.fetchData. rewrite try_catch_rethrow.
  unfold Eff.bind at 1.
  rewrite (notify_run cb 1 2 _ (alwaysReturns_step cb 1 2 Hcb)).
  unfold Eff.bind at 1. rewrite getResults_run. cbv zeta.
  destruct (Trace.result (Protocol.requestTextResponse usb _ s)) as [text|e];
    [|reflexivity].
  unfold Eff.bind at 1.
  rewrite (notify_run cb 2 2 _ (alwaysReturns_step cb 2 2 Hcb)).
  unfold Eff.bind, Eff.gets. rewrite processRecords_emitted.
  unfold Eff.ret. cbn [app]. rewrite ?app_nil_r. reflexivity.
Qed.

(** X19.  With a callback that returns, [fetchData] makes the one exchange
    of the result command and nothing else on the usbModule; on a protocol
    that is not initialized it fails without any call.  An error of the
    exchange is passed on.  Otherwise it returns at most one raw record,
    the trimmed text, and none for a text of spaces only; [recordCount]
    is the number of raw records; the processed records are at most as
    many, and none of them is a glucose, ketone or time-change record. *)
Theorem fetchData_outcome :
  forall (T : Type) (usb : UsbModule T)
         (toISOString : DateArgs -> option JsString)
         (cb : option Driver.ProgressCallback) (s : Session T),
    Trace.alwaysReturns cb ->
    let run := Driver.fetchData usb toISOString cb s in
    let asked := Protocol.requestTextResponse usb ("$result?" : JsString) s in
    Trace.final run = Trace.final asked
    /\ Trace.calls (Trace.events run) = Trace.calls (Trace.events asked)
    /\ (protocol_isInitialized s = false ->
        Trace.result run = Throw ErrNotInitialized
        /\ Trace.calls (Trace.events run) = [])
    /\ (forall e, Trace.result asked = Throw e -> Trace.result run = Throw e)
    /\ (forall text, Trace.result asked = Normal text ->
          exists r,
            Trace.result run = Normal r
            /\ Driver.rawRecords r
               = if TextSpec.blank text then [] else [Js.trim text])
    /\ (forall r, Trace.result run = Normal r ->
          (List.length (Driver.rawRecords r) <= 1)%nat
          /\ Driver.recordCount r = Z.of_nat (List.length (Driver.rawRecords r))
          /\ (List.length (Driver.processedRecords r)
              <= List.length (Driver.rawRecords r))%nat
          /\ Forall RecordSpec.isUntyped (Driver.processedRecords r)).
Proof.
  intros T usb toISOString cb s Hcb run asked.
  subst run. rewrite (fetchData_run usb toISOString cb s Hcb). cbv zeta.
  fold asked.
  assert (Hun : protocol_isInitialized s = false ->
                asked = (Throw ErrNotInitialized, s, [])).
  { apply requestTextResponse_uninitialized. }
  destruct (Trace.result asked) as [text|e] eqn:Hres;
    cbn [Trace.result Trace.final Trace.events fst snd];
    rewrite !calls_app, !calls_progress, ?app_nil_r; cbn [app].
  - split; [reflexivity|]. split; [reflexivity|].
    split.
    { intros Hinit. rewrite (Hun Hinit) in Hres. discriminate. }
    split; [discriminate|].
    split.
    { intros text' [= <-]. eexists. split; reflexivity. }
    intros r [= <-]. cbn [Driver.rawRecords Driver.recordCount
                            Driver.processedRecords].
    split; [destruct (TextSpec.blank text); simpl; lia|].
    split; [reflexivity|].
    split; [apply emittedList_length | apply emittedList_untyped].
  - split; [reflexivity|]. split; [reflexivity|].
    split.
    { intros Hinit. rewrite (Hun Hinit) in Hres |- *.
      injection Hres as <-. split; reflexivity. }
    split; [intros e' [= <-]; reflexivity|].
    split; discriminate.
Qed.

Lemma fetchData_outcome_witness :
  Trace.result
    (Driver.fetchData Sample.accepting Sample.toISOString None
       (newSession 0%nat))
  = Throw ErrNotInitialized.
Proof.
  pose proof (fetchData_outcome nat Sample.accepting Sample.toISOString None
                (newSession 0%nat) I) as H.
  cbv zeta in H. destruct H as (_ & _ & H & _).
  exact (proj1 (H eq_refl)).
Defined.

(** ** Serial number, date and time over text commands *)

(** What the driver's parser accepts: exactly the framed responses with
    status OK, and it returns their data. *)
Lemma driver_parseTextResponse_Some_iff (response d : JsString) :
  fst (Driver.parseTextResponse response) = Some d
  <-> exists c rest,
        response = TextRegex.okResponse d c ++ rest
        /\ Forall (fun x => x <> TextRegex.CR) d
        /\ List.length c = 8%nat
        /\ Forall (fun x => TextRegex.isHexUpper x = true) c.
Proof.
  split.
  - unfold Driver.parseTextResponse.
    destruct (_ || _); [discriminate|].
    destruct (TextRegex.regex_match response) as [m|] eqn:Hm; [|discriminate].
    destruct (negb (Js.str_eqb (TextRegex.status m) "OK")) eqn:Hst;
      [discriminate|].
    intros [= <-].
    apply negb_false_iff, str_eqb_nil_or_eq in Hst.
    apply regex_match_sound in Hm as (rest & Hresp & Hd & Hlen & Hhex & _).
    exists (TextRegex.checksum m), rest. repeat split; auto.
    rewrite Hresp at 1. rewrite Hst. unfold TextRegex.okResponse.
    now rewrite <- !app_assoc.
  - intros (c & rest & -> & Hd & Hlen & Hhex).
    now rewrite driver_parseTextResponse_ok.
Qed.

Section TextCommands.

Context {T : Type}.
Variable sendTextCommand :
  option JsString -> JsString -> T -> Completion JsString * T.

Lemma driver_getSerialNumber_run (s : Session T) (d : DeviceInfo) :
  deviceInfo s = Some d ->
  let sent := sendTextCommand (deviceName d) ("$serlnum?" : JsString)
                (transport s) in
  Driver.getSerialNumber sendTextCommand s
  = (match fst sent with
     | Throw e => Throw e
     | Normal response =>
         if TextSpec.blank response
         then Throw (Error "Respuesta vacia del dispositivo")
         else
           match fst (Driver.parseTextResponse response) with
           | None => Throw (Error "No se pudo parsear el numero de serie")
           | Some serial =>
               if Js.str_eqb serial []
               then Throw (Error "No se pudo parsear el numero de serie")
               else Normal serial
           end
     end, Eff.set_transport (snd sent) s, []).
Proof.
  intros Hinfo. cbv zeta. unfold Driver.getSerialNumber.
  rewrite try_catch_rethrow.
  unfold Driver.this_deviceName, Driver.usb_sendTextCommand, TextSpec.blank.
  unfold_eff. rewrite Hinfo.
  destruct (sendTextCommand (deviceName d) ("$serlnum?" : JsString)
              (transport s)) as [[response|e] t1];
    cbn [fst snd]; [|reflexivity].
  destruct (_ || _); [reflexivity|].
  destruct (fst (Driver.parseTextResponse response)) as [serial|];
    [|reflexivity].
  destruct (Js.str_eqb serial []); reflexivity.
Qed.

(** X20.  [getSerialNumber] of the driver needs [deviceInfo]: without it
    the method fails with a TypeError and sends nothing.  With it, the
    method sends the serial-number command once, records no other event
    and changes nothing but the transport.  It returns a serial number
    exactly when the response is a framed response with status OK whose
    data is not empty, and the number is that data; a rejection of the
    command is passed on. *)
Theorem driver_getSerialNumber_outcome :
  forall s : Session T,
    let run := Driver.getSerialNumber sendTextCommand s in
    (deviceInfo s = None ->
       exists msg, run = (Throw (TypeError msg), s, []))
    /\ (forall d, deviceInfo s = Some d ->
          let sent := sendTextCommand (deviceName d) ("$serlnum?" : JsString)
                        (transport s) in
          Trace.final run = Eff.set_transport (snd sent) s
          /\ Trace.events run = []
          /\ (forall e, fst sent = Throw e -> Trace.result run = Throw e)
          /\ (forall serial,
                Trace.result run = Normal serial
                <-> exists response c rest,
                      fst sent = Normal response
                      /\ response = TextRegex.okResponse serial c ++ rest
                      /\ Forall (fun x => x <> TextRegex.CR) serial
                      /\ List.length c = 8%nat
                      /\ Forall (fun x => TextRegex.isHexUpper x = true) c
                      /\ serial <> [])).
Proof.
  intros s run. split.
  - intros Hinfo. subst run. unfold Driver.getSerialNumber.
    rewrite try_catch_rethrow. unfold Driver.this_deviceName. unfold_eff.
    rewrite Hinfo. eexists. reflexivity.
  - intros d Hinfo sent. subst run sent.
    rewrite (driver_getSerialNumber_run s d Hinfo). cbv zeta.
    cbn [Trace.result Trace.final Trace.events fst snd].
    split; [reflexivity|]. split; [reflexivity|].
    destruct (fst (sendTextCommand (deviceName d) ("$serlnum?" : JsString)
                     (transport s))) as [response|e].
    2: { split; [intros e' [= <-]; reflexivity|].
         intros serial. split; [discriminate|].
         intros (r & c & rest & H & _). discriminate. }
    split; [discriminate|].
    intros serial. split.
    + destruct (TextSpec.blank response); [discriminate|].
      destruct (fst (Driver.parseTextResponse response)) as [x|] eqn:Hp;
        [|discriminate].
      destruct (Js.str_eqb x []) eqn:Hx; [discriminate|].
      intros [= <-].
      apply driver_parseTextResponse_Some_iff in Hp
        as (c & rest & Hresp & Hd & Hlen & Hhex).
      exists response, c, rest. repeat split; auto.
      intros ->. discriminate.
    + intros (r & c & rest & [= <-] & -> & Hd & Hlen & Hhex & Hne).
      unfold TextSpec.blank. rewrite okResponse_not_blank.
      rewrite driver_parseTextResponse_ok by assumption. cbn [fst].
      destruct (Js.str_eqb serial []) eqn:Hx; [|reflexivity].
      apply str_eqb_nil in Hx. contradiction.
Qed.

End TextCommands.

Section DeviceClock.

Context {T : Type}.
Variable sendTextCommand :
  option JsString -> JsString -> T -> Completion JsString * T.

Lemma getDeviceDateTime_run (s : Session T) (d : DeviceInfo) :
  deviceInfo s = Some d ->
  let name := deviceName d in
  let sentDate := sendTextCommand name ("$date?" : JsString) (transport s) in
  let sentTime := sendTextCommand name ("$time?" : JsString) (snd sentDate) in
  Driver.getDeviceDateTime sendTextCommand s
  = match fst sentDate with
    | Throw e => (Throw e, Eff.set_transport (snd sentDate) s, [])
    | Normal dateResponse =>
        (match fst sentTime with
         | Throw e => Throw e
         | Normal timeResponse =>
             match fst (Driver.parseTextResponse dateResponse),
                   fst (Driver.parseTextResponse timeResponse) with
             | Some date, Some time =>
                 if Js.str_eqb date [] || Js.str_eqb time []
                 then Throw (Error "No se pudo obtener fecha/hora del dispositivo")
                 else Normal {| Driver.date := date; Driver.time := time;
                                Driver.formatted := date ++ " " ++ time |}
             | _, _ =>
                 Throw (Error "No se pudo obtener fecha/hora del dispositivo")
             end
         end, Eff.set_transport (snd sentTime) s, [])
    end.
Proof.
  intros Hinfo. cbv zeta. unfold Driver.getDeviceDateTime.
  rewrite try_catch_rethrow.
  unfold Driver.this_deviceName, Driver.usb_sendTextCommand, Driver.falsy.
  unfold_eff. rewrite Hinfo.
  destruct (sendTextCommand (deviceName d) ("$date?" : JsString) (transport s))
    as [[r1|e] t1]; cbn [fst snd deviceInfo transport Eff.set_transport];
    [|reflexivity].
  rewrite Hinfo. cbn [fst snd deviceInfo transport Eff.set_transport].
  destruct (sendTextCommand (deviceName d) ("$time?" : JsString) t1)
    as [[r2|e] t2]; cbn [fst snd]; [|reflexivity].
  destruct (fst (Driver.parseTextResponse r1)) as [dd|];
    destruct (fst (Driver.parseTextResponse r2)) as [tt|]; try reflexivity.
  destruct (Js.str_eqb dd [] || Js.str_eqb tt []); reflexivity.
Qed.

(** X21.  [getDeviceDateTime], with [deviceInfo] set, sends the date
    command and then, on the transport as the first command left it, the
    time command: the time is asked for even when the answer to the date
    command is unusable, and only a rejection of the date command stops
    the method before it.  It returns a value exactly when both answers
    are framed responses with status OK and non-empty data; the value
    holds the two data strings and, as [formatted], the date, one space
    and the time. *)
Theorem getDeviceDateTime_outcome :
  forall (s : Session T) (d : DeviceInfo),
    deviceInfo s = Some d ->
    let run := Driver.getDeviceDateTime sendTextCommand s in
    let name := deviceName d in
    let sentDate := sendTextCommand name ("$date?" : JsString) (transport s) in
    let sentTime := sendTextCommand name ("$time?" : JsString) (snd sentDate) in
    Trace.events run = []
    /\ Trace.sameFields s (Trace.final run)
    /\ (forall e, fst sentDate = Throw e ->
          Trace.result run = Throw e
          /\ transport (Trace.final run) = snd sentDate)
    /\ (forall dateResponse, fst sentDate = Normal dateResponse ->
          transport (Trace.final run) = snd sentTime
          /\ (forall e, fst sentTime = Throw e -> Trace.result run = Throw e))
    /\ (forall dt,
          Trace.result run = Normal dt
          <-> exists dateResponse timeResponse,
                fst sentDate = Normal dateResponse
                /\ fst sentTime = Normal timeResponse
                /\ fst (Driver.parseTextResponse dateResponse)
                   = Some (Driver.date dt)
                /\ fst (Driver.parseTextResponse timeResponse)
                   = Some (Driver.time dt)
                /\ Driver.date dt <> [] /\ Driver.time dt <> []
                /\ Driver.formatted dt
                   = Driver.date dt ++ " " ++ Driver.time dt).
Proof.
  intros s d Hinfo run name sentDate sentTime. subst run.
  rewrite (getDeviceDateTime_run s d Hinfo). cbv zeta.
  fold name. fold sentDate. fold sentTime.
  destruct (fst sentDate) as [r1|e1];
    cbn [Trace.result Trace.final Trace.events fst snd].
  2: { split; [reflexivity|]. split; [repeat split|].
       split; [intros e [= <-]; split; reflexivity|].
       split; [discriminate|].
       intros dt. split; [discriminate|].
       intros (a & b & H & _). discriminate. }
  split; [reflexivity|]. split; [repeat split|].
  split; [discriminate|].
  split.
  { intros r [= <-]. split; [reflexivity|].
    intros e He. now rewrite He. }
  intros dt.
  destruct (fst sentTime) as [r2|e2].
  2: { split; [discriminate|]. intros (a & b & _ & H & _). discriminate. }
  split.
  - destruct (fst (Driver.parseTextResponse r1)) as [dd|] eqn:H1;
      [|discriminate].
    destruct (fst (Driver.parseTextResponse r2)) as [tt|] eqn:H2;
      [|discriminate].
    destruct (Js.str_eqb dd []) eqn:Hd; [discriminate|].
    destruct (Js.str_eqb tt []) eqn:Ht; [discriminate|].
    cbn [orb]. intros [= <-]. exists r1, r2.
    cbn [Driver.date Driver.time Driver.formatted].
    repeat split; auto; intros ->; discriminate.
  - intros (a & b & [= <-] & [= <-] & H1 & H2 & Hd & Ht & Hf).
    rewrite H1, H2.
    destruct (Js.str_eqb (Driver.date dt) []) eqn:Ed;
      [apply str_eqb_nil in Ed; contradiction|].
    destruct (Js.str_eqb (Driver.time dt) []) eqn:Et;
      [apply str_eqb_nil in Et; contradiction|].
    cbn [orb]. f_equal. destruct dt as [dd tt ff].
    cbn [Driver.date Driver.time Driver.formatted] in *. now rewrite Hf.
Qed.

End DeviceClock.

Lemma getDeviceDateTime_outcome_witness :
  Trace.events (Driver.getDeviceDateTime Sample.textDevice Sample.readySession)
  = []
  /\ Trace.sameFields Sample.readySession
       (Trace.final
          (Driver.getDeviceDateTime Sample.textDevice Sample.readySession)).
Proof.
  pose proof (getDeviceDateTime_outcome Sample.textDevice Sample.readySession
                Sample.info eq_refl) as H.
  cbv zeta in H. destruct H as (H1 & H2 & _). split; assumption.
Defined.

(** ** The device clock *)

Lemma split_char_none (c : ascii) (s cur : JsString) :
  ~ In c s -> Js.split_from [c] O cur s = [rev cur ++ s].
Proof.
  revert cur; induction s as [|x s IH]; intros cur H.
  - simpl. now rewrite app_nil_r.
  - cbn [Js.split_from Js.stripPrefix].
    destruct (Js.ascii_eqb c x) eqn:E.
    + apply ascii_eqb_true in E. subst x. exfalso. apply H. now left.
    + rewrite IH by (intros Hin; apply H; now right).
      cbn [rev]. now rewrite <- app_assoc.
Qed.

Lemma split_char_first (c : ascii) (a b cur : JsString) :
  ~ In c a ->
  Js.split_from [c] O cur (a ++ c :: b)
  = (rev cur ++ a) :: Js.split_from [c] O [] b.
Proof.
  revert cur; induction a as [|x a IH]; intros cur H.
  - cbn [app Js.split_from Js.stripPrefix].
    assert (E : Js.ascii_eqb c c = true) by now apply ascii_eqb_true.
    rewrite E. cbn [List.length Nat.pred]. now rewrite app_nil_r.
  - cbn [app Js.split_from Js.stripPrefix].
    destruct (Js.ascii_eqb c x) eqn:E.
    + apply ascii_eqb_true in E. subst x. exfalso. apply H. now left.
    + rewrite IH by (intros Hin; apply H; now right).
      cbn [rev]. now rewrite <- app_assoc.
Qed.

Lemma first_occurrence (c : ascii) (s : JsString) :
  In c s -> exists a b, s = a ++ c :: b /\ ~ In c a.
Proof.
  induction s as [|x s IH]; [intros []|].
  intros Hin. destruct (Ascii.ascii_dec x c) as [->|Hne].
  - exists [], s. split; [reflexivity | intros []].
  - destruct Hin as [-> | Hin]; [contradiction|].
    destruct (IH Hin) as (a & b & -> & Ha).
    exists (x :: a), b. split; [reflexivity|].
    intros [-> | H]; [contradiction | auto].
Qed.

(** X22.  [parseDeviceDateTime] never throws.  It answers with the
    current time exactly when the [formatted] text holds no space; in
    particular never for a text made, as [getDeviceDateTime] makes it, of
    a date, a space and a time.  For a date and a time without spaces it
    reads the month, the day and the two-digit year from the comma
    separated date and the hour and the minute from the time, and builds
    the date of year 2000 + YY, month index MM - 1, at second 0. *)
Theorem parseDeviceDateTime_outcome :
  forall dt : Driver.DeviceDateTime,
    (exists d, Driver.parseDeviceDateTime dt = Normal d)
    /\ (Driver.parseDeviceDateTime dt = Normal Driver.DateNow
        <-> ~ In " "%char (Driver.formatted dt))
    /\ (forall date time : JsString,
          Driver.formatted dt = date ++ " " ++ time ->
          Driver.parseDeviceDateTime dt <> Normal Driver.DateNow)
    /\ (forall date time : JsString,
          ~ In " "%char date -> ~ In " "%char time ->
          Driver.formatted dt = date ++ " " ++ time ->
          let dateParts := Js.split "," date in
          let timeParts := Js.split "," time in
          Driver.parseDeviceDateTime dt
          = Normal (Driver.DateOf
              {| year := option_map (fun y => 2000 + y)
                           (Js.parseInt (nth_error dateParts 2) None);
                 monthIndex := option_map (fun m => m - 1)
                                 (Js.parseInt (nth_error dateParts 0) None);
                 day := Js.parseInt (nth_error dateParts 1) None;
                 hours := Js.parseInt (nth_error timeParts 0) None;
                 minutes := Js.parseInt (nth_error timeParts 1) None;
                 seconds := Some 0 |})).
Proof.
  intros dt.
  assert (Hiff : Driver.parseDeviceDateTime dt = Normal Driver.DateNow
                 <-> ~ In " "%char (Driver.formatted dt)).
  { unfold Driver.parseDeviceDateTime, Pure.try_catch, Js.split. split.
    - intros H Hin.
      apply first_occurrence in Hin as (a & b & Hf & Ha).
      rewrite Hf in H.
      change (list_ascii_of_string " ") with [" "%char] in H.
      rewrite (split_char_first " " a b [] Ha) in H.
      destruct (split_nonempty [" "%char] b [] O) as (y & more & Hy).
      rewrite Hy in H. cbn in H. discriminate.
    - intros Hno.
      change (list_ascii_of_string " ") with [" "%char].
      rewrite (split_char_none " " _ [] Hno). reflexivity. }
  split; [|split; [exact Hiff|split]].
  - unfold Driver.parseDeviceDateTime, Pure.try_catch.
    destruct (nth_error _ 0); [destruct (nth_error _ 1)|]; eauto.
  - intros date time Hf H. apply Hiff in H. apply H. rewrite Hf.
    apply in_or_app. right. now left.
  - intros date time Hd Ht Hf dateParts timeParts.
    unfold Driver.parseDeviceDateTime, Pure.try_catch, Js.split.
    rewrite Hf.
    change (list_ascii_of_string " ") with [" "%char].
    cbn [app]. rewrite (split_char_first " " date time [] Hd).
    rewrite (split_char_none " " time [] Ht).
    cbn [rev app nth_error]. reflexivity.
Qed.

Lemma parseDeviceDateTime_returns (dt : Driver.DeviceDateTime) :
  exists d, Driver.parseDeviceDateTime dt = Normal d.
Proof.
  unfold Driver.parseDeviceDateTime, Pure.try_catch.
  destruct (nth_error _ 0); [destruct (nth_error _ 1)|]; eauto.
Qed.

Lemma parseDeviceDateTime_no_space (dt : Driver.DeviceDateTime) :
  ~ In " "%char (Driver.formatted dt) ->
  Driver.parseDeviceDateTime dt = Normal Driver.DateNow.
Proof.
  intros Hno. unfold Driver.parseDeviceDateTime, Pure.try_catch, Js.split.
  change (list_ascii_of_string " ") with [" "%char].
  rewrite (split_char_none " " _ [] Hno). reflexivity.
Qed.

Lemma verifyTimeSync_run {T} (timeValue : DateArgs -> option Z)
  (currentTime currentTimeInCatch : Z) (dt : Driver.DeviceDateTime)
  (s : Session T) :
  exists d,
    Driver.parseDeviceDateTime dt = Normal d
    /\ Driver.verifyTimeSync timeValue currentTime currentTimeInCatch dt s
       = (Normal
            (let deviceTime := Driver.dateValue timeValue currentTimeInCatch d in
             Driver.SyncInfo deviceTime currentTime
               (option_map (fun t => Z.abs (currentTime - t)) deviceTime)
               match deviceTime with
               | Some t => 300000 <? Z.abs (currentTime - t)
               | None => false
               end), s, []).
Proof.
  destruct (parseDeviceDateTime_returns dt) as [d Hd]. exists d.
  split; [exact Hd|].
  unfold Driver.verifyTimeSync. unfold_eff. rewrite Hd. cbv zeta.
  destruct (Driver.dateValue timeValue currentTimeInCatch d); reflexivity.
Qed.

(** X23.  [verifyTimeSync] never throws, never returns the error object
    of its catch block, records no event and leaves the session as it is.
    Its [needsSync] is true exactly when the device time is a valid date
    more than 300 000 ms (five minutes) away from the host clock: a device
    time that is not a valid date is reported as in sync.  For a
    [formatted] text without a space the device time is the host clock
    read in the catch block of [parseDeviceDateTime]. *)
Theorem verifyTimeSync_outcome :
  forall (T : Type) (timeValue : DateArgs -> option Z)
         (currentTime currentTimeInCatch : Z) (dt : Driver.DeviceDateTime)
         (s : Session T),
  exists deviceTime needsSync,
    Driver.verifyTimeSync timeValue currentTime currentTimeInCatch dt s
    = (Normal (Driver.SyncInfo deviceTime currentTime
                 (option_map (fun t => Z.abs (currentTime - t)) deviceTime)
                 needsSync), s, [])
    /\ (needsSync = true
        <-> exists t, deviceTime = Some t /\ 300000 < Z.abs (currentTime - t))
    /\ (deviceTime = None -> needsSync = false)
    /\ (~ In " "%char (Driver.formatted dt) ->
        deviceTime = Some currentTimeInCatch)
    /\ (forall args, Driver.parseDeviceDateTime dt = Normal (Driver.DateOf args) ->
        deviceTime = timeValue args).
Proof.
  intros T timeValue currentTime currentTimeInCatch dt s.
  destruct (verifyTimeSync_run timeValue currentTime currentTimeInCatch dt s)
    as (d & Hd & Hrun).
  cbv zeta in Hrun.
  exists (Driver.dateValue timeValue currentTimeInCatch d).
  eexists. split; [exact Hrun|].
  split; [|split; [|split]].
  - destruct (Driver.dateValue timeValue currentTimeInCatch d) as [t|].
    + rewrite Z.ltb_lt. split.
      * intros H. exists t. split; [reflexivity | exact H].
      * intros (t' & [= <-] & H). exact H.
    + split; [discriminate|]. intros (t' & H & _). discriminate.
  - intros ->. reflexivity.
  - intros Hno. rewrite (parseDeviceDateTime_no_space dt Hno) in Hd.
    injection Hd as <-. reflexivity.
  - intros args Hargs. rewrite Hargs in Hd. injection Hd as <-. reflexivity.
Qed.

Section DeviceInfoFacts.

Context {T : Type}.
Variable sendTextCommand :
  option JsString -> JsString -> T -> Completion JsString * T.
Variable timeValue : DateArgs -> option Z.
Variables currentTime currentTimeInCatch : Z.
Variable driverId : JsString.

Lemma getSerialNumber_quiet (s : Session T) :
  let run := Driver.getSerialNumber sendTextCommand s in
  Trace.events run = []
  /\ Trace.sameFields s (Trace.final run)
  /\ (deviceInfo s = None ->
      Trace.final run = s /\ exists msg, Trace.result run = Throw (TypeError msg))
  /\ (forall serial, Trace.result run = Normal serial ->
        serial <> [] /\ deviceInfo s <> None).
Proof.
  cbv zeta. destruct (deviceInfo s) as [d|] eqn:Hinfo.
  - rewrite (driver_getSerialNumber_run sendTextCommand s d Hinfo). cbv zeta.
    cbn [Trace.result Trace.final Trace.events fst snd].
    split; [reflexivity|]. split; [repeat split|]. split; [discriminate|].
    intros serial.
    destruct (fst (sendTextCommand _ _ _)) as [response|e]; [|discriminate].
    destruct (TextSpec.blank response); [discriminate|].
    destruct (fst (Driver.parseTextResponse response)) as [x|]; [|discriminate].
    destruct (Js.str_eqb x []) eqn:Hx; [discriminate|].
    intros [= <-]. split; [intros ->; discriminate | discriminate].
  - unfold Driver.getSerialNumber. rewrite try_catch_rethrow.
    unfold Driver.this_deviceName. unfold_eff. rewrite Hinfo.
    cbn [Trace.result Trace.final Trace.events fst snd].
    split; [reflexivity|]. split; [repeat split|].
    split; [intros _; split; [reflexivity | eexists; reflexivity]|].
    intros; discriminate.
Qed.

Lemma getDeviceDateTime_quiet (s : Session T) :
  let run := Driver.getDeviceDateTime sendTextCommand s in
  Trace.events run = []
  /\ Trace.sameFields s (Trace.final run)
  /\ (forall dt, Trace.result run = Normal dt ->
        Driver.formatted dt = Driver.date dt ++ " " ++ Driver.time dt
        /\ Driver.date dt <> [] /\ Driver.time dt <> []).
Proof.
  cbv zeta. destruct (deviceInfo s) as [d|] eqn:Hinfo.
  - rewrite (getDeviceDateTime_run sendTextCommand s d Hinfo). cbv zeta.
    destruct (fst (sendTextCommand (deviceName d) ("$date?" : JsString) _))
      as [r1|e1]; cbn [Trace.result Trace.final Trace.events fst snd].
    2: { repeat split; intros; discriminate. }
    split; [reflexivity|]. split; [repeat split|].
    intros dt.
    destruct (fst (sendTextCommand (deviceName d) ("$time?" : JsString) _))
      as [r2|e2]; [|discriminate].
    destruct (fst (Driver.parseTextResponse r1)) as [dd|]; [|discriminate].
    destruct (fst (Driver.parseTextResponse r2)) as [tt|]; [|discriminate].
    destruct (Js.str_eqb dd []) eqn:Hd; [discriminate|].
    destruct (Js.str_eqb tt []) eqn:Ht; [discriminate|].
    cbn [orb]. intros [= <-]. cbn [Driver.date Driver.time Driver.formatted].
    repeat split; intros ->; discriminate.
  - unfold Driver.getDeviceDateTime. rewrite try_catch_rethrow.
    unfold Driver.this_deviceName. unfold_eff. rewrite Hinfo.
    cbn [Trace.result Trace.final Trace.events fst snd].
    repeat split; intros; discriminate.
Qed.

Lemma getDeviceInfo_run (cb : option Driver.ProgressCallback) (s : Session T) :
  Trace.alwaysReturns cb ->
  let sn := Driver.getSerialNumber sendTextCommand s in
  let dtr := Driver.getDeviceDateTime sendTextCommand (Trace.final sn) in
  exists syncOf : Driver.DeviceDateTime -> Driver.SyncResult,
    (forall dt, exists deviceTime difference needsSync,
        syncOf dt = Driver.SyncInfo deviceTime currentTime difference needsSync)
    /\ Driver.getDeviceInfo sendTextCommand timeValue currentTime
         currentTimeInCatch driverId cb s
       = match Trace.result sn with
         | Throw e => (Throw e, Trace.final sn, Trace.progress cb 1 3)
         | Normal serial =>
             match Trace.result dtr with
             | Throw e =>
                 (Throw e, Trace.final dtr,
                  Trace.progress cb 1 3 ++ Trace.progress cb 2 3)
             | Normal dt =>
                 (Normal {| Driver.info_serialNumber := serial;
                            Driver.info_deviceId := driverId ++ "-" ++ serial;
                            Driver.info_deviceDateTime := dt;
                            Driver.info_timeSync := syncOf dt |},
                  Trace.final dtr,
                  Trace.progress cb 1 3 ++ Trace.progress cb 2 3
                  ++ Trace.progress cb 3 3)
             end
         end.
Proof.
  intros Hcb. cbv zeta.
  exists (fun dt =>
            let deviceTime :=
              Driver.dateValue timeValue currentTimeInCatch
                match Driver.parseDeviceDateTime dt with
                | Normal d => d
                | Throw _ => Driver.DateNow
                end in
            Driver.SyncInfo deviceTime currentTime
              (option_map (fun t => Z.abs (currentTime - t)) deviceTime)
              match deviceTime with
              | Some t => 300000 <? Z.abs (currentTime - t)
              | None => false
              end).
  split; [intros dt; do 3 eexists; reflexivity|].
  unfold Driver.getDeviceInfo. rewrite try_catch_rethrow.
  unfold Eff.bind at 1.
  rewrite (notify_run cb 1 3 _ (alwaysReturns_step cb 1 3 Hcb)).
  unfold Eff.bind at 1.
  pose proof (getSerialNumber_quiet s) as Hsn. cbv zeta in Hsn.
  destruct (Driver.getSerialNumber sendTextCommand s) as [[[serial|e] s1] t1];
    cbn [Trace.result Trace.final Trace.events fst snd] in Hsn |- *;
    destruct Hsn as (-> & Hsame & Hnone & Hserial).
  2: { now rewrite app_nil_r. }
  destruct (Hserial serial eq_refl) as [Hne Hsome].
  destruct (Js.str_eqb serial []) eqn:Hnil;
    [apply str_eqb_nil in Hnil; contradiction|].
  unfold Eff.bind at 1.
  rewrite (notify_run cb 2 3 _ (alwaysReturns_step cb 2 3 Hcb)).
  unfold Eff.bind at 1.
  pose proof (getDeviceDateTime_quiet s1) as Hdt. cbv zeta in Hdt.
  destruct (Driver.getDeviceDateTime sendTextCommand s1) as [[[dt|e] s2] t2];
    cbn [Trace.result Trace.final Trace.events fst snd] in Hdt |- *;
    destruct Hdt as (-> & Hsame2 & Hformatted).
  2: { cbn [app]. now rewrite ?app_nil_r. }
  unfold Eff.bind at 1.
  rewrite (notify_run cb 3 3 _ (alwaysReturns_step cb 3 3 Hcb)).
  unfold Eff.bind at 1.
  destruct (verifyTimeSync_run timeValue currentTime currentTimeInCatch dt s2)
    as (d & Hd & ->).
  rewrite Hd. unfold Eff.ret. cbn [app]. now rewrite ?app_nil_r.
Qed.

Lemma getDeviceInfo_spec (cb : option Driver.ProgressCallback) (s : Session T) :
  Trace.alwaysReturns cb ->
  let run := Driver.getDeviceInfo sendTextCommand timeValue currentTime
               currentTimeInCatch driverId cb s in
  Trace.calls (Trace.events run) = []
  /\ Trace.closes (Trace.events run) = 0%nat
  /\ Trace.totalDelay (Trace.events run) = 0
  /\ Trace.sameFields s (Trace.final run)
  /\ (deviceInfo s = None ->
      exists msg, Trace.result run = Throw (TypeError msg)
                  /\ Trace.final run = s)
  /\ (forall r, Trace.result run = Normal r ->
        Driver.info_serialNumber r <> []
        /\ Trace.result (Driver.getSerialNumber sendTextCommand s)
           = Normal (Driver.info_serialNumber r)
        /\ Driver.info_deviceId r
           = driverId ++ "-" ++ Driver.info_serialNumber r
        /\ Driver.formatted (Driver.info_deviceDateTime r)
           = Driver.date (Driver.info_deviceDateTime r) ++ " "
             ++ Driver.time (Driver.info_deviceDateTime r)
        /\ (exists deviceTime difference needsSync,
              Driver.info_timeSync r
              = Driver.SyncInfo deviceTime currentTime difference needsSync)
        /\ Trace.events run
           = Trace.progress cb 1 3 ++ Trace.progress cb 2 3
             ++ Trace.progress cb 3 3).
Proof.
  intros Hcb run. subst run.
  destruct (getDeviceInfo_run cb s Hcb) as (syncOf & Hsync & ->).
  pose proof (getSerialNumber_quiet s) as Hsn. cbv zeta in Hsn.
  destruct Hsn as (_ & Hsame & Hnone & Hserial).
  pose proof (getDeviceDateTime_quiet
                (Trace.final (Driver.getSerialNumber sendTextCommand s))) as Hdt.
  cbv zeta in Hdt. destruct Hdt as (_ & Hsame2 & Hformatted).
  destruct (Trace.result (Driver.getSerialNumber sendTextCommand s))
    as [serial|e] eqn:Hres.
  2: { cbn [Trace.result Trace.final Trace.events fst snd].
       unfold Trace.closes. rewrite closes_progress.
       rewrite calls_progress, totalDelay_progress.
       split; [reflexivity|]. split; [reflexivity|]. split; [reflexivity|].
       split; [exact Hsame|].
       split; [|intros; discriminate].
       intros Hinfo. destruct (Hnone Hinfo) as (Hfin & msg & [= ->]).
       exists msg. split; [reflexivity | exact Hfin]. }
  destruct (Hserial serial eq_refl) as [Hne Hsome].
  destruct (Trace.result (Driver.getDeviceDateTime sendTextCommand _))
    as [dt|e] eqn:Hres2;
    cbn [Trace.result Trace.final Trace.events fst snd];
    unfold Trace.closes;
    rewrite !filter_length_app, !calls_app, !totalDelay_app;
    rewrite !closes_progress, !calls_progress, !totalDelay_progress;
    (split; [reflexivity|]); (split; [reflexivity|]); (split; [reflexivity|]);
    (split; [exact (sameFields_trans _ _ _ Hsame Hsame2)|]);
    (split; [intros Hinfo; contradiction|]); [|intros; discriminate].
  intros r [= <-].
  cbn [Driver.info_serialNumber Driver.info_deviceId
         Driver.info_deviceDateTime Driver.info_timeSync].
  split; [exact Hne|]. split; [reflexivity|]. split; [reflexivity|].
  split; [apply (Hformatted dt eq_refl)|].
  split; [apply Hsync | reflexivity].
Qed.

End DeviceInfoFacts.

(** X24.  With a callback that returns, [getDeviceInfo] makes no call on
    [openDevice], [closeDevice], [claimInterface], [writeData] or
    [readData] and no delay: it works through text commands only, and it
    changes no field of the session, so [this.deviceInfo] is still the
    object given to [connect].  Without [deviceInfo] it fails with a
    TypeError.  What it returns carries a serial number that is not
    empty and is the one [getSerialNumber] reads, the device id made of
    the driver id, a dash and that serial number, a date and time whose
    [formatted] is the date, a space and the time, and a sync result that
    is never the error object. *)
Theorem getDeviceInfo_outcome :
  forall (T : Type)
         (sendTextCommand :
            option JsString -> JsString -> T -> Completion JsString * T)
         (timeValue : DateArgs -> option Z)
         (currentTime currentTimeInCatch : Z) (driverId : JsString)
         (cb : option Driver.ProgressCallback) (s : Session T),
    Trace.alwaysReturns cb ->
    let run := Driver.getDeviceInfo sendTextCommand timeValue currentTime
                 currentTimeInCatch driverId cb s in
    Trace.calls (Trace.events run) = []
    /\ Trace.closes (Trace.events run) = 0%nat
    /\ Trace.totalDelay (Trace.events run) = 0
    /\ Trace.sameFields s (Trace.final run)
    /\ (deviceInfo s = None ->
        exists msg, Trace.result run = Throw (TypeError msg)
                    /\ Trace.final run = s)
    /\ (forall r, Trace.result run = Normal r ->
          Driver.info_serialNumber r <> []
          /\ Trace.result (Driver.getSerialNumber sendTextCommand s)
             = Normal (Driver.info_serialNumber r)
          /\ Driver.info_deviceId r
             = driverId ++ "-" ++ Driver.info_serialNumber r
          /\ Driver.formatted (Driver.info_deviceDateTime r)
             = Driver.date (Driver.info_deviceDateTime r) ++ " "
               ++ Driver.time (Driver.info_deviceDateTime r)
          /\ (exists deviceTime difference needsSync,
                Driver.info_timeSync r
                = Driver.SyncInfo deviceTime currentTime difference needsSync)
          /\ Trace.events run
             = Trace.progress cb 1 3 ++ Trace.progress cb 2 3
               ++ Trace.progress cb 3 3).
Proof.
  intros T sendTextCommand timeValue currentTime currentTimeInCatch driverId
    cb s Hcb.
  exact (getDeviceInfo_spec sendTextCommand timeValue currentTime
           currentTimeInCatch driverId cb s Hcb).
Qed.

Lemma getDeviceInfo_outcome_witness :
  Trace.calls
    (Trace.events
       (Driver.getDeviceInfo Sample.textDevice Sample.timeValue
          Sample.currentTime Sample.currentTime
          ("AbbottFreeStyleOptiumNeo" : JsString) None Sample.readySession))
  = [].
Proof.
  pose proof (getDeviceInfo_outcome nat Sample.textDevice Sample.timeValue
                Sample.currentTime Sample.currentTime
                ("AbbottFreeStyleOptiumNeo" : JsString) None
                Sample.readySession I) as H.
  cbv zeta in H. exact (proj1 H).
Defined.

(** ** The upload *)

Lemma summarize_bounds (records : list ProcessedRecord) :
  let summary := Driver.summarize records in
  Driver.totalRecords summary = List.length records
  /\ (Driver.glucoseRecords summary + Driver.ketoneRecords summary
      + Driver.timeChangeRecords summary <= Driver.totalRecords summary)%nat
  /\ (Driver.hiValues summary
      <= Driver.glucoseRecords summary + Driver.ketoneRecords summary)%nat
  /\ (Driver.loValues summary
      <= Driver.glucoseRecords summary + Driver.ketoneRecords summary)%nat.
Proof.
  cbv zeta. unfold Driver.summarize.
  cbn [Driver.totalRecords Driver.glucoseRecords Driver.ketoneRecords
         Driver.timeChangeRecords Driver.hiValues Driver.loValues].
  split; [reflexivity|].
  induction records as [|r rest (IH1 & IH2 & IH3)]; [simpl; lia|].
  cbn [filter List.length].
  destruct r as [b|b v [a|] t d sn|b v [a|] t d sn|b f t' t d sn];
    cbn [Driver.isGlucose Driver.isKetone Driver.isTimeChange];
    repeat match goal with
    | |- context [Driver.hasAnnotation ?v ?r] =>
        let E := fresh "E" in
        destruct (Driver.hasAnnotation v r) eqn:E;
        cbn in E; try discriminate E; clear E
    end;
    cbn [List.length]; lia.
Qed.

Lemma summarize_untyped (records : list ProcessedRecord) :
  Forall RecordSpec.isUntyped records ->
  Driver.summarize records
  = {| Driver.totalRecords := List.length records;
       Driver.glucoseRecords := 0; Driver.ketoneRecords := 0;
       Driver.timeChangeRecords := 0;
       Driver.hiValues := 0; Driver.loValues := 0 |}.
Proof.
  intros H. unfold Driver.summarize.
  assert (Hf : forall p : ProcessedRecord -> bool,
             (forall b, p (Untyped b) = false) ->
             List.length (filter p records) = 0%nat).
  { intros p Hp. induction H as [|r rest (b & -> & _) _ IH]; [reflexivity|].
    cbn [filter]. now rewrite Hp. }
  rewrite !Hf by reflexivity. reflexivity.
Qed.

Lemma uploadData_run {T} (records : list ProcessedRecord)
  (cb : option Driver.ProgressCallback) (s : Session T) :
  Trace.alwaysReturns cb ->
  Driver.uploadData records cb s
  = match deviceInfo s with
    | None =>
        (Throw (TypeError "Cannot read properties of null"), s,
         Trace.progress cb 1 3)
    | Some d =>
        (Normal {| Driver.upload_records := records;
                   Driver.upload_summary := Driver.summarize records;
                   Driver.upload_serialNumber := serialNumber d;
                   Driver.upload_deviceId := deviceId d;
                   Driver.recordsUploaded := List.length records |},
         s,
         Trace.progress cb 1 3 ++ Trace.progress cb 2 3
         ++ Trace.progress cb 3 3 ++ [EvDelay 1000])
    end.
Proof.
  intros Hcb. unfold Driver.uploadData. rewrite try_catch_rethrow.
  unfold Eff.bind at 1.
  rewrite (notify_run cb 1 3 _ (alwaysReturns_step cb 1 3 Hcb)).
  unfold Eff.bind at 1, Eff.gets.
  destruct (deviceInfo s) as [d|].
  2: { unfold Eff.throw. now rewrite app_nil_r. }
  unfold Eff.bind at 1.
  rewrite (notify_run cb 2 3 _ (alwaysReturns_step cb 2 3 Hcb)).
  cbv zeta. unfold Eff.bind at 1.
  rewrite (notify_run cb 3 3 _ (alwaysReturns_step cb 3 3 Hcb)).
  unfold Driver.simulateUpload.
  unfold_eff. cbn [app]. rewrite ?app_nil_r. reflexivity.
Qed.

(** X25.  With a callback that returns, [uploadData] never calls the
    usbModule and leaves the session as it is.  Without [deviceInfo] (for
    instance after [disconnect]) it fails with a TypeError before any
    delay.  With [deviceInfo] it always succeeds after one delay of
    1000 ms: it returns the records unchanged, reports all of them as
    uploaded, and takes the serial number and device id from
    [deviceInfo].  In its summary the glucose, ketone and time-change
    counts never add up to more than the total, and the HI and LO counts
    never exceed the glucose and ketone counts together; for the records
    that [processRecords] returns all five counts are zero. *)
Theorem uploadData_outcome :
  forall (T : Type) (records : list ProcessedRecord)
         (cb : option Driver.ProgressCallback) (s : Session T),
    Trace.alwaysReturns cb ->
    let run := Driver.uploadData records cb s in
    Trace.final run = s
    /\ Trace.calls (Trace.events run) = []
    /\ (deviceInfo s = None ->
        (exists msg, Trace.result run = Throw (TypeError msg))
        /\ Trace.totalDelay (Trace.events run) = 0)
    /\ (forall d, deviceInfo s = Some d ->
          Trace.totalDelay (Trace.events run) = 1000
          /\ exists r,
               Trace.result run = Normal r
               /\ Driver.upload_records r = records
               /\ Driver.recordsUploaded r = List.length records
               /\ Driver.upload_serialNumber r = serialNumber d
               /\ Driver.upload_deviceId r = deviceId d
               /\ Driver.upload_summary r = Driver.summarize records)
    /\ (let summary := Driver.summarize records in
        Driver.totalRecords summary = List.length records
        /\ (Driver.glucoseRecords summary + Driver.ketoneRecords summary
            + Driver.timeChangeRecords summary
            <= Driver.totalRecords summary)%nat
        /\ (Driver.hiValues summary
            <= Driver.glucoseRecords summary + Driver.ketoneRecords summary)%nat
        /\ (Driver.loValues summary
            <= Driver.glucoseRecords summary + Driver.ketoneRecords summary)%nat)
    /\ (forall toISOString this_deviceInfo lines,
          Driver.processRecords toISOString this_deviceInfo lines
          = Normal records ->
          Driver.summarize records
          = {| Driver.totalRecords := List.length records;
               Driver.glucoseRecords := 0; Driver.ketoneRecords := 0;
               Driver.timeChangeRecords := 0;
               Driver.hiValues := 0; Driver.loValues := 0 |}).
Proof.
  intros T records cb s Hcb run. subst run.
  rewrite (uploadData_run records cb s Hcb).
  split; [destruct (deviceInfo s); reflexivity|].
  split.
  { destruct (deviceInfo s); cbn [Trace.events snd];
      rewrite ?calls_app, ?calls_progress; reflexivity. }
  split.
  { intros ->. cbn [Trace.result Trace.events fst snd].
    split; [eexists; reflexivity | apply totalDelay_progress]. }
  split.
  { intros d ->. cbn [Trace.result Trace.events fst snd].
    rewrite !totalDelay_app, !totalDelay_progress.
    split; [reflexivity|]. eexists. repeat split. }
  split; [apply summarize_bounds|].
  intros toISOString this_deviceInfo lines Hlines.
  apply summarize_untyped.
  rewrite processRecords_emitted in Hlines. injection Hlines as <-.
  apply emittedList_untyped.
Qed.

Lemma uploadData_outcome_witness :
  Trace.final (Driver.uploadData [] None Sample.readySession)
  = Sample.readySession
  /\ Trace.calls (Trace.events (Driver.uploadData [] None Sample.readySession))
     = [].
Proof.
  pose proof (uploadData_outcome nat [] None Sample.readySession I) as H.
  cbv zeta in H. destruct H as (H1 & H2 & _). split; assumption.
Defined.

(** ** The two flows of the application *)

Lemma bind_run {T A B} (m : Eff.M T A) (k : A -> Eff.M T B) (s : Session T) :
  Eff.bind m k s
  = match Trace.result (m s) with
    | Normal a =>
        (Trace.result (k a (Trace.final (m s))),
         Trace.final (k a (Trace.final (m s))),
         Trace.events (m s) ++ Trace.events (k a (Trace.final (m s))))
    | Throw e => (Throw e, Trace.final (m s), Trace.events (m s))
    end.
Proof.
  unfold Eff.bind. destruct (m s) as [[[a|e] s1] t1];
    cbn [Trace.result Trace.final Trace.events fst snd]; [|reflexivity].
  destruct (k a s1) as [[r2 s2] t2]. reflexivity.
Qed.

Lemma bind_gets {T A B} (f : Session T -> A) (k : A -> Eff.M T B)
  (s : Session T) :
  Eff.bind (Eff.gets f) k s = k (f s) s.
Proof.
  unfold Eff.bind, Eff.gets. destruct (k (f s) s) as [[r2 s2] t2]. reflexivity.
Qed.

Lemma requestTextResponse_quiet {T} (usb : UsbModule T) (command : JsString)
  (s : Session T) :
  let run := Protocol.requestTextResponse usb command s in
  Trace.sameFields s (Trace.final run) /\ Trace.noSetup (Trace.events run).
Proof.
  cbv zeta. unfold Protocol.requestTextResponse.
  rewrite try_catch_rethrow. unfold_eff.
  destruct (protocol_isInitialized s); cbn [negb];
    [|split; [repeat split | constructor]].
  destruct (writeData usb _ _ _) as [[n|e] t1];
    [|split; [repeat split | repeat constructor]].
  destruct (n <? 0); [split; [repeat split | repeat constructor]|].
  cbn [protocol_deviceName Eff.set_transport transport].
  destruct (readData usb _ _ _) as [[[bytes|]|e] t2];
    [destruct bytes| |]; (split; [repeat split | repeat constructor]).
Qed.

Lemma disconnect_run {T} (usb : UsbModule T) (s : Session T) (d : DeviceInfo) :
  deviceInfo s = Some d ->
  let closed := closeDevice usb (deviceName d) (transport s) in
  Driver.disconnect usb s
  = match fst closed with
    | Normal _ =>
        (Normal true,
         Eff.set_deviceInfo None
           (Eff.set_isConnected false (Eff.set_transport (snd closed) s)),
         [EvClose (deviceName d)])
    | Throw e =>
        (Throw e, Eff.set_transport (snd closed) s, [EvClose (deviceName d)])
    end.
Proof.
  intros Hinfo. cbv zeta.
  destruct (closeDevice usb (deviceName d) (transport s)) as [[b|e] t'] eqn:Hc;
    cbn [fst snd].
  - exact (disconnect_close_returns usb s d b t' Hinfo Hc).
  - exact (disconnect_close_rejects usb s d e t' Hinfo Hc).
Qed.

Section Flows.

Context {T : Type} (usb : UsbModule T).
Variable sendTextCommand :
  option JsString -> JsString -> T -> Completion JsString * T.
Variable toISOString : DateArgs -> option JsString.
Variable timeValue : DateArgs -> option Z.
Variables currentTime currentTimeInCatch : Z.
Variable driverId : JsString.
Variable info : DeviceInfo.

Local Abbreviation getDeviceInfo :=
  (Driver.getDeviceInfo sendTextCommand timeValue currentTime
     currentTimeInCatch driverId App.logProgress).

Lemma logProgress_returns : Trace.alwaysReturns App.logProgress.
Proof. intros step total. reflexivity. Qed.

(** What the first two steps of both flows leave: nothing closed, and
    [deviceInfo] set to the argument of [connect]. *)
Lemma connected_and_identified (s : Session T) :
  let c := Driver.connect usb info App.logProgress s in
  let g := getDeviceInfo (Trace.final c) in
  Trace.closes (Trace.events c) = 0%nat
  /\ deviceInfo (Trace.final c) = Some info
  /\ Trace.closes (Trace.events g) = 0%nat
  /\ deviceInfo (Trace.final g) = Some info.
Proof.
  cbv zeta.
  destruct (connect_events_and_deviceInfo usb info App.logProgress s)
    as [Hinfo Hcl].
  pose proof (getDeviceInfo_spec sendTextCommand timeValue currentTime
                currentTimeInCatch driverId App.logProgress
                (Trace.final (Driver.connect usb info App.logProgress s))
                logProgress_returns) as Hg.
  cbv zeta in Hg. destruct Hg as (_ & Hgc & _ & (Hgi & _) & _).
  repeat split; auto. now rewrite Hgi.
Qed.

Lemma communicateWithFreeStyleNeo_run (s : Session T) :
  let c := Driver.connect usb info App.logProgress (newSession (transport s)) in
  let g := getDeviceInfo (Trace.final c) in
  let d := Driver.disconnect usb (Trace.final g) in
  App.communicateWithFreeStyleNeo usb sendTextCommand timeValue currentTime
    currentTimeInCatch driverId info s
  = match Trace.result c with
    | Throw e => (Throw e, Trace.final c, Trace.events c)
    | Normal _ =>
        match Trace.result g with
        | Throw e => (Throw e, Trace.final g, Trace.events c ++ Trace.events g)
        | Normal _ =>
            (match Trace.result d with
             | Throw e => Throw e
             | Normal _ => Normal tt
             end, Trace.final d,
             Trace.events c ++ Trace.events g ++ Trace.events d)
        end
    end.
Proof.
  cbv zeta. unfold App.communicateWithFreeStyleNeo.
  rewrite try_catch_rethrow.
  unfold Eff.bind at 1, App.createAbbottDriver, Eff.modify. cbn beta iota.
  rewrite bind_run.
  destruct (Trace.result (Driver.connect usb info App.logProgress _));
    [|reflexivity].
  rewrite bind_run.
  destruct (Trace.result (getDeviceInfo _)); [|reflexivity].
  rewrite bind_run.
  destruct (Trace.result (Driver.disconnect usb _));
    cbn [Trace.result Trace.final Trace.events Eff.ret fst snd];
    rewrite ?app_nil_r; reflexivity.
Qed.

(** X26.  [communicateWithFreeStyleNeo] builds a new driver, connects,
    reads the device information and disconnects.  It calls [closeDevice]
    at most once.  When it returns, it has called [closeDevice] exactly
    once and the driver is left without [deviceInfo] and not connected.
    When it fails and [closeDevice] itself never rejects, the failure came
    from [connect] or [getDeviceInfo] and the flow has not called
    [closeDevice] at all: the error is rethrown with the device left as
    the failed step left it and [deviceInfo] still set. *)
Theorem communicateWithFreeStyleNeo_closes :
  forall s : Session T,
    let run := App.communicateWithFreeStyleNeo usb sendTextCommand timeValue
                 currentTime currentTimeInCatch driverId info s in
    (Trace.closes (Trace.events run) <= 1)%nat
    /\ (Trace.result run = Normal tt ->
        Trace.closes (Trace.events run) = 1%nat
        /\ deviceInfo (Trace.final run) = None
        /\ isConnected (Trace.final run) = false)
    /\ (forall e, Trace.result run = Throw e ->
        (forall name t, exists b, fst (closeDevice usb name t) = Normal b) ->
        Trace.closes (Trace.events run) = 0%nat
        /\ deviceInfo (Trace.final run) = Some info).
Proof.
  intros s run. subst run. rewrite communicateWithFreeStyleNeo_run.
  pose proof (connected_and_identified (newSession (transport s))) as H.
  cbv zeta in *. destruct H as (Hc & Hci & Hg & Hgi).
  set (c := Driver.connect usb info App.logProgress (newSession (transport s)))
    in *.
  set (g := getDeviceInfo (Trace.final c)) in *.
  rewrite (disconnect_run usb (Trace.final g) info Hgi). cbv zeta.
  destruct (Trace.result c) as [b|e];
    cbn [Trace.result Trace.final Trace.events fst snd].
  2: { rewrite Hc. split; [lia|]. split; [discriminate|]. auto. }
  destruct (Trace.result g) as [r|e];
    cbn [Trace.result Trace.final Trace.events fst snd];
    unfold Trace.closes in *; rewrite ?filter_length_app, ?Hc, ?Hg.
  2: { split; [simpl; lia|]. split; [discriminate|]. auto. }
  destruct (fst (closeDevice usb (deviceName info) (transport (Trace.final g))))
    as [b'|e] eqn:Hclose;
    cbn [Trace.result Trace.final Trace.events fst snd filter Trace.isClose
           List.length].
  - split; [lia|]. split; [intros _; repeat split|]. discriminate.
  - split; [lia|]. split; [discriminate|].
    intros e' _ Hnever.
    destruct (Hnever (deviceName info) (transport (Trace.final g))) as [b' Hb].
    rewrite Hb in Hclose. discriminate.
Qed.

End Flows.

Section UploadFlow.

Context {T : Type} (usb : UsbModule T).
Variable sendTextCommand :
  option JsString -> JsString -> T -> Completion JsString * T.
Variable toISOString : DateArgs -> option JsString.
Variable timeValue : DateArgs -> option Z.
Variables currentTime currentTimeInCatch : Z.
Variable driverId : JsString.
Variable info : DeviceInfo.

Local Abbreviation getDeviceInfo :=
  (Driver.getDeviceInfo sendTextCommand timeValue currentTime
     currentTimeInCatch driverId App.logProgress).

Lemma communicateWithAbbottDevice_run (s : Session T) :
  let c := Driver.connect usb info App.logProgress (newSession (transport s)) in
  let g := getDeviceInfo (Trace.final c) in
  let f := Driver.fetchData usb toISOString App.logProgress (Trace.final g) in
  App.communicateWithAbbottDevice usb sendTextCommand toISOString timeValue
    currentTime currentTimeInCatch driverId info s
  = match Trace.result c with
    | Throw e => (Throw e, Trace.final c, Trace.events c)
    | Normal _ =>
        match Trace.result g with
        | Throw e => (Throw e, Trace.final g, Trace.events c ++ Trace.events g)
        | Normal _ =>
            match Trace.result f with
            | Throw e =>
                (Throw e, Trace.final f,
                 Trace.events c ++ Trace.events g ++ Trace.events f)
            | Normal dataResult =>
                let processed :=
                  RecordSpec.emittedList (Driver.rawRecords dataResult) in
                let u := Driver.uploadData processed App.logProgress
                           (Trace.final f) in
                match Trace.result u with
                | Throw e =>
                    (Throw e, Trace.final u,
                     Trace.events c ++ Trace.events g ++ Trace.events f
                     ++ Trace.events u)
                | Normal uploadResult =>
                    let d := Driver.disconnect usb (Trace.final u) in
                    (match Trace.result d with
                     | Throw e => Throw e
                     | Normal _ =>
                         Normal (uploadResult, List.length processed)
                     end, Trace.final d,
                     Trace.events c ++ Trace.events g ++ Trace.events f
                     ++ Trace.events u ++ Trace.events d)
                end
            end
        end
    end.
Proof.
  cbv zeta. unfold App.communicateWithAbbottDevice.
  rewrite try_catch_rethrow.
  unfold Eff.bind at 1, App.createAbbottDriver, Eff.modify. cbn beta iota.
  rewrite bind_run.
  destruct (Trace.result (Driver.connect usb info App.logProgress _));
    [|reflexivity].
  rewrite bind_run.
  destruct (Trace.result (getDeviceInfo _)); [|reflexivity].
  rewrite bind_run.
  destruct (Trace.result (Driver.fetchData usb toISOString App.logProgress _))
    as [dataResult|e]; [|reflexivity].
  rewrite bind_gets, processRecords_emitted.
  rewrite bind_run.
  destruct (Trace.result (Driver.uploadData _ App.logProgress _))
    as [uploadResult|e]; [|reflexivity].
  rewrite bind_run.
  destruct (Trace.result (Driver.disconnect usb _));
    cbn [Trace.result Trace.final Trace.events Eff.ret fst snd];
    rewrite ?app_nil_r; reflexivity.
Qed.

Lemma fetchData_quiet (s : Session T) :
  let f := Driver.fetchData usb toISOString App.logProgress s in
  Trace.closes (Trace.events f) = 0%nat
  /\ Trace.sameFields s (Trace.final f)
  /\ (forall r, Trace.result f = Normal r ->
        (List.length (Driver.rawRecords r) <= 1)%nat).
Proof.
  cbv zeta.
  rewrite (fetchData_run usb toISOString App.logProgress s
             (logProgress_returns)).
  cbv zeta.
  pose proof (requestTextResponse_quiet usb ("$result?" : JsString) s) as Hq.
  cbv zeta in Hq. destruct Hq as [Hsame Hno].
  apply noSetup_counts in Hno as (_ & _ & Hcl).
  unfold Trace.closes in *.
  destruct (Trace.result (Protocol.requestTextResponse usb _ s)) as [text|e];
    cbn [Trace.result Trace.final Trace.events fst snd];
    rewrite !filter_length_app, Hcl; (split; [reflexivity|]);
    (split; [exact Hsame|]); [|discriminate].
  intros r [= <-]. cbn [Driver.rawRecords].
  destruct (TextSpec.blank text); simpl; lia.
Qed.

(** X27.  [communicateWithAbbottDevice] builds a new driver, connects,
    reads the device information, fetches and processes the records,
    simulates the upload and disconnects.  It calls [closeDevice] at most
    once; when it fails and [closeDevice] itself never rejects, it has not
    called it at all.  When it returns, [closeDevice] has been called
    exactly once and the driver is left without [deviceInfo]; the records
    count is the number of uploaded records and is at most one; none of
    the records is a glucose, ketone or time-change record, so every
    typed count of the summary is zero; and the serial number and device
    id of the upload are those of the object given to [connect]. *)
Theorem communicateWithAbbottDevice_outcome :
  forall s : Session T,
    let run := App.communicateWithAbbottDevice usb sendTextCommand toISOString
                 timeValue currentTime currentTimeInCatch driverId info s in
    (Trace.closes (Trace.events run) <= 1)%nat
    /\ (forall r count, Trace.result run = Normal (r, count) ->
        Trace.closes (Trace.events run) = 1%nat
        /\ deviceInfo (Trace.final run) = None
        /\ isConnected (Trace.final run) = false
        /\ count = List.length (Driver.upload_records r)
        /\ (count <= 1)%nat
        /\ Driver.recordsUploaded r = count
        /\ Forall RecordSpec.isUntyped (Driver.upload_records r)
        /\ Driver.upload_summary r
           = {| Driver.totalRecords := count;
                Driver.glucoseRecords := 0; Driver.ketoneRecords := 0;
                Driver.timeChangeRecords := 0;
                Driver.hiValues := 0; Driver.loValues := 0 |}
        /\ Driver.upload_serialNumber r = serialNumber info
        /\ Driver.upload_deviceId r = deviceId info)
    /\ (forall e, Trace.result run = Throw e ->
        (forall name t, exists b, fst (closeDevice usb name t) = Normal b) ->
        Trace.closes (Trace.events run) = 0%nat
        /\ deviceInfo (Trace.final run) = Some info).
Proof.
  intros s run. subst run. rewrite communicateWithAbbottDevice_run.
  pose proof (connected_and_identified usb sendTextCommand timeValue
                currentTime currentTimeInCatch driverId info
                (newSession (transport s))) as H.
  cbv zeta in *. destruct H as (Hc & Hci & Hg & Hgi).
  set (c := Driver.connect usb info App.logProgress (newSession (transport s)))
    in *.
  set (g := getDeviceInfo (Trace.final c)) in *.
  pose proof (fetchData_quiet (Trace.final g)) as Hf. cbv zeta in Hf.
  set (f := Driver.fetchData usb toISOString App.logProgress (Trace.final g))
    in *.
  destruct Hf as (Hfc & (Hfi & _) & Hraw).
  assert (Hfinfo : deviceInfo (Trace.final f) = Some info)
    by (now rewrite Hfi).
  destruct (Trace.result c) as [b|e];
    cbn [Trace.result Trace.final Trace.events fst snd].
  2: { rewrite Hc. split; [lia|]. split; [discriminate|]. auto. }
  destruct (Trace.result g) as [r|e];
    cbn [Trace.result Trace.final Trace.events fst snd].
  2: { unfold Trace.closes in *. rewrite ?filter_length_app, ?Hc, ?Hg.
       split; [simpl; lia|]. split; [discriminate|]. auto. }
  destruct (Trace.result f) as [dataResult|e] eqn:Hfres;
    cbn [Trace.result Trace.final Trace.events fst snd].
  2: { unfold Trace.closes in *. rewrite ?filter_length_app, ?Hc, ?Hg, ?Hfc.
       split; [simpl; lia|]. split; [discriminate|]. auto. }
  specialize (Hraw dataResult eq_refl).
  set (processed := RecordSpec.emittedList (Driver.rawRecords dataResult)).
  rewrite (uploadData_run processed App.logProgress (Trace.final f)
             logProgress_returns).
  rewrite Hfinfo. cbn [Trace.result Trace.final Trace.events fst snd].
  rewrite (disconnect_run usb (Trace.final f) info Hfinfo). cbv zeta.
  assert (Hlen : (List.length processed <= 1)%nat).
  { pose proof (emittedList_length (Driver.rawRecords dataResult)).
    subst processed. lia. }
  unfold Trace.closes in *.
  destruct (fst (closeDevice usb (deviceName info) (transport (Trace.final f))))
    as [b'|e] eqn:Hclose;
    cbn [Trace.result Trace.final Trace.events fst snd];
    rewrite ?filter_length_app, ?closes_progress, ?Hc, ?Hg, ?Hfc;
    cbn [filter Trace.isClose List.length].
  - split; [lia|]. split; [|discriminate].
    intros r' count [= <- <-].
    cbn [Driver.upload_records Driver.recordsUploaded Driver.upload_summary
           Driver.upload_serialNumber Driver.upload_deviceId].
    split; [reflexivity|]. split; [reflexivity|]. split; [reflexivity|].
    split; [reflexivity|]. split; [exact Hlen|]. split; [reflexivity|].
    split; [apply emittedList_untyped|].
    split; [apply summarize_untyped, emittedList_untyped|].
    split; reflexivity.
  - split; [lia|]. split; [discriminate|].
    intros e' _ Hnever.
    destruct (Hnever (deviceName info) (transport (Trace.final f))) as [b' Hb].
    rewrite Hb in Hclose. discriminate.
Qed.

End UploadFlow.

(** ** The device time of a record *)

Lemma removeFirst_absent (c : ascii) (s : JsString) :
  ~ In c s -> Js.removeFirst c s = s.
Proof.
  induction s as [|x s IH]; [reflexivity|]. intros H. cbn [Js.removeFirst].
  destruct (Js.ascii_eqb x c) eqn:E.
  - apply ascii_eqb_true in E. subst x. exfalso. apply H. now left.
  - rewrite IH; [reflexivity|]. intros Hin. apply H. now right.
Qed.

Lemma removeFirst_last (c : ascii) (s : JsString) :
  ~ In c s -> Js.removeFirst c (s ++ [c]) = s.
Proof.
  induction s as [|x s IH]; intros H; cbn [app Js.removeFirst].
  - assert (E : Js.ascii_eqb c c = true) by now apply ascii_eqb_true.
    now rewrite E.
  - destruct (Js.ascii_eqb x c) eqn:E.
    + apply ascii_eqb_true in E. subst x. exfalso. apply H. now left.
    + rewrite IH; [reflexivity|]. intros Hin. apply H. now right.
Qed.

(** X28.  [formatDeviceTime] cannot rescue an invalid date: its catch
    block calls [toISOString] again, so for a timestamp that is not a
    valid date the method throws the RangeError.  For a valid date it
    returns the ISO text without its first "Z": the text without its last
    character when the only "Z" is the one that ends it, and the text
    unchanged when it holds none. *)
Theorem formatDeviceTime_outcome :
  forall (toISOString : DateArgs -> option JsString) (ts : DateArgs),
    (toISOString ts = None ->
       exists msg, Driver.formatDeviceTime toISOString ts
                   = Throw (RangeError msg))
    /\ (forall iso, toISOString ts = Some iso ->
          Driver.formatDeviceTime toISOString ts
          = Normal (Js.removeFirst "Z" iso))
    /\ (forall body : JsString,
          ~ In "Z"%char body -> toISOString ts = Some (body ++ "Z") ->
          Driver.formatDeviceTime toISOString ts = Normal body)
    /\ (forall iso : JsString,
          ~ In "Z"%char iso -> toISOString ts = Some iso ->
          Driver.formatDeviceTime toISOString ts = Normal iso).
Proof.
  intros toISOString ts.
  unfold Driver.formatDeviceTime, Driver.call_toISOString, Pure.try_catch,
    Pure.bind.
  split; [|split; [|split]].
  - intros ->. eexists. reflexivity.
  - intros iso ->. reflexivity.
  - intros body Hno ->.
    change (list_ascii_of_string "Z") with ["Z"%char].
    now rewrite removeFirst_last.
  - intros iso Hno ->. now rewrite removeFirst_absent.
Qed.
